(** * OCR-SAM inpainting demo: the two pipeline stages and their wiring

    A shallow embedding of [mmocr_sam_inpainting_app.py]:
    - [run_mmocr_sam] (Stage A): text spotting, box-prompted segmentation,
      the annotated preview, the summary string and the mask table;
    - [run_downstream] (Stage B): mask-table lookup, diffusion call and the
      8-bit composite;
    - the two button handlers of the Gradio form.

    The pretrained models, the plotting canvas and the resampling filter
    are collaborators of the program, not part of it: they are variables
    of the section [Pipeline].  Python values that travel through the
    text box (the mask table) are modelled with their [repr] printer and
    the literal fragment of [eval]. *)

From Stdlib Require Import ZArith List String Ascii Bool Lia Arith.
From Stdlib Require Import DecimalString DecimalNat DecimalPos DecimalZ Decimal.
Import ListNotations.
Open Scope string_scope.
Open Scope list_scope.
Set Warnings "-register-all".

(** ** Python exceptions and results *)

(** Keys a dict of the model may hold: [bool], [int] and [str] objects. *)
Inductive pykey : Type :=
| KBool (b : bool)
| KInt (z : Z)
| KStr (s : string).

(** The built-in exception classes the program can raise, and [OtherError]
    for any class defined elsewhere. *)
Inductive exn : Type :=
| SyntaxError
| NameError
| KeyError (k : pykey)
| IndexError
| TypeError
| ValueError
| AssertionError
| RuntimeError
| cv2_error
| OtherError (cls : string).

(** The error kinds the specification names.  The program defines no such
    classes; in the model they are exception classes of their own. *)
Definition SelectionError : exn := OtherError "SelectionError".
Definition MalformedMaskTableError : exn := OtherError "MalformedMaskTableError".
Definition ModelInferenceError : exn := OtherError "ModelInferenceError".

Inductive result (A : Type) : Type :=
| Ok (a : A)
| Raise (e : exn).
Arguments Ok {A} a.
Arguments Raise {A} e.

Definition bind {A B : Type} (r : result A) (k : A -> result B) : result B :=
  match r with
  | Ok a => k a
  | Raise e => Raise e
  end.

Notation "x <- c ;; k" := (bind c (fun x => k))
  (at level 61, c at next level, right associativity).
Notation "' p <- c ;; k" := (bind c (fun x => match x with p => k end))
  (at level 61, p pattern, c at next level, right associativity).

Fixpoint mapM {A B : Type} (f : A -> result B) (l : list A) : result (list B) :=
  match l with
  | [] => Ok []
  | x :: xs => y <- f x ;; ys <- mapM f xs ;; Ok (y :: ys)
  end.

(** ** Python values *)

(** The objects that pass through the mask-table text box.  [F] is the
    type of Python floats. *)
Inductive pyval (F : Type) : Type :=
| PyBool (b : bool)
| PyInt (z : Z)
| PyFloat (f : F)
| PyStr (s : string)
| PyList (l : list (pyval F))
| PyDict (d : list (pykey * pyval F)).
Arguments PyBool {F} b.
Arguments PyInt {F} z.
Arguments PyFloat {F} f.
Arguments PyStr {F} s.
Arguments PyList {F} l.
Arguments PyDict {F} d.

(** [k1 == k2] on keys: [True == 1] and [False == 0], strings by content. *)
Definition key_num (k : pykey) : option Z :=
  match k with
  | KBool b => Some (if b then 1 else 0)%Z
  | KInt z => Some z
  | KStr _ => None
  end.

Definition key_eqb (k1 k2 : pykey) : bool :=
  match k1, k2 with
  | KStr s1, KStr s2 => String.eqb s1 s2
  | KStr _, _ | _, KStr _ => false
  | _, _ => match key_num k1, key_num k2 with
            | Some a, Some b => Z.eqb a b
            | _, _ => false
            end
  end.

(** Dicts keep insertion order: an association list. *)
Fixpoint dict_get {V : Type} (d : list (pykey * V)) (k : pykey) : option V :=
  match d with
  | [] => None
  | (k', v) :: d' => if key_eqb k' k then Some v else dict_get d' k
  end.

(** [d[k] = v]: overwrite in place (same key object, same position) or
    append. *)
Fixpoint dict_set {V : Type} (d : list (pykey * V)) (k : pykey) (v : V)
  : list (pykey * V) :=
  match d with
  | [] => [(k, v)]
  | (k', v') :: d' =>
      if key_eqb k' k then (k', v) :: d' else (k', v') :: dict_set d' k v
  end.

(** ** Characters and tokens of the literal fragment *)

Inductive token : Type :=
| TLBrace | TRBrace | TLBrack | TRBrack | TComma | TColon
| TAtom (a : string)
| TStr (s : string).

Inductive cclass : Type :=
| CSpace
| CPunct (t : token)
| CQuote
| CAtom
| CBad.

Definition dquote : ascii := ascii_of_nat 34.
Definition backslash : ascii := ascii_of_nat 92.

Definition in_range (lo hi : nat) (c : ascii) : bool :=
  Nat.leb lo (nat_of_ascii c) && Nat.leb (nat_of_ascii c) hi.

Definition is_digit (c : ascii) : bool := in_range 48 57 c.

(** Characters of names and numbers: letters, digits, [_ . + -]. *)
Definition is_atom_char (c : ascii) : bool :=
  is_digit c || in_range 65 90 c || in_range 97 122 c
  || Ascii.eqb c "_" || Ascii.eqb c "." || Ascii.eqb c "+" || Ascii.eqb c "-".

Definition classify (c : ascii) : cclass :=
  if Ascii.eqb c " " then CSpace
  else if Ascii.eqb c "{" then CPunct TLBrace
  else if Ascii.eqb c "}" then CPunct TRBrace
  else if Ascii.eqb c "[" then CPunct TLBrack
  else if Ascii.eqb c "]" then CPunct TRBrack
  else if Ascii.eqb c "," then CPunct TComma
  else if Ascii.eqb c ":" then CPunct TColon
  else if Ascii.eqb c "'" || Ascii.eqb c dquote then CQuote
  else if is_atom_char c then CAtom
  else CBad.

(** Characters a string literal may hold unescaped (the closing quote is
    tested first): printable ASCII other than the backslash. *)
Definition plain_char (c : ascii) : bool :=
  in_range 32 126 c && negb (Ascii.eqb c backslash).

(** The lexer: one pass over the text.  [lex] is between tokens, [in_atom]
    inside a name or number, [in_str q] inside a string opened by [q],
    [after_str] just behind a closing quote.  [None] means the text is not
    in the fragment. *)
Fixpoint lex (s : string) : option (list token) :=
  match s with
  | EmptyString => Some []
  | String c s' =>
      match classify c with
      | CSpace => lex s'
      | CPunct t => option_map (cons t) (lex s')
      | CQuote =>
          match in_str c s' with
          | Some (body, ts) => Some (TStr body :: ts)
          | None => None
          end
      | CAtom =>
          match in_atom s' with
          | Some (more, ts) => Some (TAtom (String c more) :: ts)
          | None => None
          end
      | CBad => None
      end
  end
with in_atom (s : string) : option (string * list token) :=
  match s with
  | EmptyString => Some (EmptyString, [])
  | String c s' =>
      match classify c with
      | CAtom =>
          match in_atom s' with
          | Some (more, ts) => Some (String c more, ts)
          | None => None
          end
      | CSpace => option_map (pair EmptyString) (lex s')
      | CPunct t => option_map (fun ts => (EmptyString, t :: ts)) (lex s')
      | CQuote => None
      | CBad => None
      end
  end
with in_str (q : ascii) (s : string) : option (string * list token) :=
  match s with
  | EmptyString => None
  | String c s' =>
      if Ascii.eqb c q then option_map (pair EmptyString) (after_str s')
      else if plain_char c then
        match in_str q s' with
        | Some (more, ts) => Some (String c more, ts)
        | None => None
        end
      else None
  end
with after_str (s : string) : option (list token) :=
  match s with
  | EmptyString => Some []
  | String c s' =>
      match classify c with
      | CSpace => lex s'
      | CPunct t => option_map (cons t) (lex s')
      | _ => None
      end
  end.

(** ** Printing integers, [str(n)] *)

Definition str_Z (z : Z) : string := NilZero.string_of_int (Z.to_int z).
Definition str_nat (n : nat) : string := NilZero.string_of_uint (Nat.to_uint n).

(** A decimal integer literal with an optional minus sign, in the one
    spelling [str] gives it (no leading zeros, no [-0]). *)
Definition int_of_atom (a : string) : option Z :=
  match NilZero.int_of_string a with
  | Some d => if String.eqb (str_Z (Z.of_int d)) a then Some (Z.of_int d) else None
  | None => None
  end.

(** The shape of a float literal with an optional minus sign: digits,
    [. e E + -] only, starting with a digit, a dot or the sign. *)
Definition is_float_char (c : ascii) : bool :=
  is_digit c || Ascii.eqb c "." || Ascii.eqb c "e" || Ascii.eqb c "E"
  || Ascii.eqb c "+" || Ascii.eqb c "-".

Fixpoint all_chars (p : ascii -> bool) (s : string) : bool :=
  match s with
  | EmptyString => true
  | String c s' => p c && all_chars p s'
  end.

Definition float_shaped (a : string) : bool :=
  match a with
  | EmptyString => false
  | String c _ =>
      (is_digit c || Ascii.eqb c "." || Ascii.eqb c "-") && all_chars is_float_char a
  end.

(** ** [repr] of strings *)

Definition hex_digit (n : nat) : ascii :=
  nth n ["0"; "1"; "2"; "3"; "4"; "5"; "6"; "7"; "8"; "9";
         "a"; "b"; "c"; "d"; "e"; "f"]%char "0"%char.

(** One character inside quotes [q]: backslash, the quote itself, newline,
    carriage return and tab get a backslash; other control characters
    are written as a two-digit hex escape. *)
Definition repr_char (q c : ascii) : string :=
  let n := nat_of_ascii c in
  if Ascii.eqb c backslash then String backslash (String backslash EmptyString)
  else if Ascii.eqb c q then String backslash (String q EmptyString)
  else if Nat.eqb n 10 then String backslash "n"
  else if Nat.eqb n 13 then String backslash "r"
  else if Nat.eqb n 9 then String backslash "t"
  else if Nat.ltb n 32 || Nat.eqb n 127 then
    String backslash
      (String "x" (String (hex_digit (n / 16)) (String (hex_digit (n mod 16)) EmptyString)))
  else String c EmptyString.

Fixpoint str_contains (c : ascii) (s : string) : bool :=
  match s with
  | EmptyString => false
  | String c' s' => Ascii.eqb c' c || str_contains c s'
  end.

Fixpoint repr_chars (q : ascii) (s : string) : string :=
  match s with
  | EmptyString => EmptyString
  | String c s' => repr_char q c ++ repr_chars q s'
  end.

(** Single quotes, unless the text holds a single quote and no double
    quote. *)
Definition repr_quote (s : string) : ascii :=
  if str_contains "'" s && negb (str_contains dquote s) then dquote else "'"%char.

Definition repr_str (s : string) : string :=
  let q := repr_quote s in
  String q (repr_chars q s ++ String q EmptyString).

Definition repr_key (k : pykey) : string :=
  match k with
  | KBool true => "True"
  | KBool false => "False"
  | KInt z => str_Z z
  | KStr s => repr_str s
  end.

(** [", ".join(parts)] *)
Fixpoint join (sep : string) (parts : list string) : string :=
  match parts with
  | [] => EmptyString
  | [x] => x
  | x :: xs => x ++ sep ++ join sep xs
  end.

(** ** Arrays and images *)

(** A [uint8] array of shape (rows, columns, channels), as nested lists. *)
Definition image : Type := list (list (list Z)).

Definition height (im : image) : nat := List.length im.
Definition width (im : image) : nat := List.length (hd [] im).
Definition channels (im : image) : nat := List.length (hd [] (hd [] im)).

(** PIL's [Image.size]: (width, height). *)
Definition Image_size (im : image) : nat * nat := (width im, height im).

Definition size_eqb (a b : nat * nat) : bool :=
  Nat.eqb (fst a) (fst b) && Nat.eqb (snd a) (snd b).

(** [im[y][x][c]], 0 off the array. *)
Definition pixel (im : image) (y x c : nat) : Z :=
  nth c (nth x (nth y im []) []) 0%Z.

(** The array of shape (h, w, ch) holding [f y x c]. *)
Definition tabulate (h w ch : nat) (f : nat -> nat -> nat -> Z) : image :=
  map (fun y => map (fun x => map (fun c => f y x c) (seq 0 ch)) (seq 0 w)) (seq 0 h).

(** The first [n] entries of [l], filled up with [d]. *)
Fixpoint fit {A : Type} (d : A) (n : nat) (l : list A) : list A :=
  match n with
  | O => []
  | S n =>
      match l with
      | [] => d :: fit d n []
      | x :: r => x :: fit d n r
      end
  end.

(** The array of shape (h, w, ch) holding the entries of [im], 0 where
    [im] has none: [tabulate h w ch (pixel im)] (lemma
    [conform_tabulate]). *)
Definition conform (h w ch : nat) (im : image) : image :=
  map (fun row => map (fit 0%Z ch) (fit [] w row)) (fit [] h im).

(** [im.shape == (h, w, ch)] *)
Definition shapeb (h w ch : nat) (im : image) : bool :=
  Nat.eqb (List.length im) h
  && forallb (fun row =>
       Nat.eqb (List.length row) w
       && forallb (fun px => Nat.eqb (List.length px) ch) row) im.

(** Every entry is a [uint8]. *)
Definition bytesb (im : image) : bool :=
  forallb (forallb (forallb (fun v => (0 <=? v)%Z && (v <? 256)%Z))) im.

(** A [uint8] array of shape (h, w, ch). *)
Definition wf_image (h w ch : nat) (im : image) : Prop :=
  shapeb h w ch im = true /\ bytesb im = true.

(** [cv2.cvtColor] with [COLOR_BGR2RGB] or [COLOR_RGB2BGR] (the same
    conversion): three channels reversed; a fourth channel is dropped.
    Any other channel count, or an empty array, is an OpenCV error. *)
Definition cvt_pixel (px : list Z) : result (list Z) :=
  match px with
  | [a; b; c] => Ok [c; b; a]
  | [a; b; c; _] => Ok [c; b; a]
  | _ => Raise cv2_error
  end.

Definition cvtColor (im : image) : result image :=
  match im with
  | [] => Raise cv2_error
  | [] :: _ => Raise cv2_error
  | _ => mapM (mapM cvt_pixel) im
  end.

(** Element-wise combination of two arrays of the same shape; operands of
    different shapes are a [ValueError]. *)
Fixpoint zip_same {A B C : Type} (f : A -> B -> result C) (a : list A) (b : list B)
  : result (list C) :=
  match a, b with
  | [], [] => Ok []
  | x :: a', y :: b' => z <- f x y ;; r <- zip_same f a' b' ;; Ok (z :: r)
  | _, _ => Raise ValueError
  end.

Definition np_binop (op : Z -> Z -> Z) (a b : image) : result image :=
  zip_same (zip_same (zip_same (fun x y => Ok (op x y)))) a b.

(** [uint8] arithmetic wraps around. *)
Definition mul_u8 (x y : Z) : Z := ((x * y) mod 256)%Z.
Definition add_u8 (x y : Z) : Z := ((x + y) mod 256)%Z.

(** ** Data of Stage A *)

(** What the text spotter returns for one image: the recognised strings
    and the polygons (flat coordinate lists x1, y1, x2, y2, ...), both in
    detector order. *)
Record prediction (F : Type) : Type := {
  rec_texts : list string;
  det_polygons : list (list F)
}.
Arguments rec_texts {F} p.
Arguments det_polygons {F} p.

(** An axis-aligned box (x1, y1, x2, y2). *)
Definition box (F : Type) : Type := (F * F * F * F)%type.

(** One segmentation mask as the predictor returns it: shape (1, H, W). *)
Definition sam_mask : Type := list (list (list bool)).

(** What has been drawn on the current matplotlib figure. *)
Inductive artist (F Color : Type) : Type :=
| Imshow (im : image)
| MaskOverlay (m : sam_mask) (color : Color)
| PlotLine (pts : list (list F))
| Text (x y : F) (s : string).
Arguments Imshow {F Color} im.
Arguments MaskOverlay {F Color} m color.
Arguments PlotLine {F Color} pts.
Arguments Text {F Color} x y s.

(** The components of the Gradio form. *)
Record ui : Type := {
  input_image : image;
  sam_results : string;
  mask_results : string;
  text_index : string;
  prompt : string;
  output_image : option image
}.

(** ** [int(text)] *)

(** Whitespace [int] strips from ASCII text: space, and tab to carriage
    return (9..13). *)
Definition is_space (c : ascii) : bool :=
  Ascii.eqb c " " || in_range 9 13 c.

Fixpoint lstrip (s : string) : string :=
  match s with
  | String c s' => if is_space c then lstrip s' else s
  | EmptyString => EmptyString
  end.

Fixpoint str_rev_onto (s acc : string) : string :=
  match s with
  | EmptyString => acc
  | String c s' => str_rev_onto s' (String c acc)
  end.

Definition str_rev (s : string) : string := str_rev_onto s EmptyString.

Definition strip (s : string) : string := str_rev (lstrip (str_rev (lstrip s))).

(** Digits with single underscores between them, underscores removed.
    [prev] tells whether the previous character was a digit. *)
Fixpoint int_digits (prev : bool) (s : string) : option string :=
  match s with
  | EmptyString => if prev then Some EmptyString else None
  | String c s' =>
      if is_digit c then option_map (String c) (int_digits true s')
      else if Ascii.eqb c "_" && prev then int_digits false s'
      else None
  end.

(** [sys.get_int_max_str_digits()], as CPython sets it by default: a
    decimal text of more digits is refused. *)
Definition max_str_digits : nat := 4300.

Definition nat_of_digits (s : string) : option Z :=
  match int_digits false s with
  | Some ds =>
      if Nat.ltb max_str_digits (String.length ds) then None
      else option_map Z.of_uint (NilEmpty.uint_of_string ds)
  | None => None
  end.

(** [int(text)] on ASCII text, base 10: [ValueError] on text that is no
    integer literal, and on one of more than [max_str_digits] digits. *)
Definition py_int (text : string) : result Z :=
  let t := strip text in
  let r := match t with
           | String "-" t' => option_map Z.opp (nat_of_digits t')
           | String "+" t' => nat_of_digits t'
           | _ => nat_of_digits t
           end in
  match r with
  | Some z => Ok z
  | None => Raise ValueError
  end.

(** * Sample collaborators

    Concrete stand-ins for the collaborators of the pipeline, used by the
    examples at the end of the file. *)

Module Sample.

(** Whole-number floats of moderate size: the float [z.0] is the integer
    [z], printed [str(z) + ".0"]. *)
Definition float_repr (z : Z) : string := (str_Z z ++ ".0")%string.

Fixpoint strip_dot0 (s : string) : option string :=
  match s with
  | EmptyString => None
  | String c s' =>
      if String.eqb s ".0" then Some EmptyString
      else option_map (String c) (strip_dot0 s')
  end.

Definition float_of_atom (a : string) : option Z :=
  match strip_dot0 a with
  | Some t => int_of_atom t
  | None => None
  end.

Definition float_gt_half (z : Z) : bool := (0 <? z)%Z.

(** An [eval] that knows one expression outside the literal fragment, the
    table of one 512 x 512 mask that is false on its upper half and true
    on its lower half, and rejects any other text. *)
Definition half_expr : string :=
  "{0: {'mask': [[[False] * 512] * 256 + [[True] * 512] * 256], 'polygon': []}}".

Definition half_table : pyval Z :=
  PyDict [(KInt 0,
           PyDict [(KStr "mask",
                    PyList [PyList (repeat (PyList (repeat (PyBool false) 512)) 256
                                    ++ repeat (PyList (repeat (PyBool true) 512)) 256)]);
                   (KStr "polygon", PyList [])])].

Definition eval_other (text : string) : result (pyval Z) :=
  if String.eqb text half_expr then Ok half_table else Raise SyntaxError.

(** A generator whose state is a number, and a pipeline that paints every
    pixel with 200 plus the state it is given (modulo 256). *)
Definition manual_seed (seed : Z) : Z := seed.

Definition paint (g : Z) (y x c : nat) : Z := ((200 + g) mod 256)%Z.

Definition pipe (prompt : string) (steps : nat) (g : Z) (control : image)
  : result ((nat -> nat -> nat -> Z) * Z) :=
  Ok (paint g, (g + 1)%Z).

(** PIL's bicubic filter (the default of [Image.resize] for RGB images),
    after [Resample.c]: per axis, the filter weights of each output
    position over its support, normalised and turned into 22-bit fixed
    point; a horizontal pass and a vertical pass, each rounding to a byte.
    The C code computes the weights in doubles; here they are exact
    rationals, written as integer numerators over a common denominator. *)

(** The weight of the filter (a = -1/2) at [n / d], times 2 d^3. *)
Definition bicubic_filter (n d : Z) : Z :=
  let n := Z.abs n in
  if (n <? d)%Z then (3 * n * n * n - 5 * n * n * d + 2 * d * d * d)%Z
  else if (n <? 2 * d)%Z then
    (- (n * n * n - 5 * n * n * d + 8 * n * d * d - 4 * d * d * d))%Z
  else 0%Z.

Definition precision_bits : Z := 22.

(** [num / den] as a fixed-point number, rounded half away from zero. *)
Definition fixed_point (num den : Z) : Z :=
  let num := (if den <? 0 then - num else num)%Z in
  let den := Z.abs den in
  if (num <? 0)%Z then Z.quot (2 * num * 2 ^ precision_bits - den) (2 * den)
  else Z.quot (2 * num * 2 ^ precision_bits + den) (2 * den).

(** The first input position and the fixed-point weights for output
    position [xx], resampling [in_size] positions to [out_size].  With
    scale = in/out, filter scale = max(scale, 1) and support = 2 * filter
    scale, the centre is (xx + 1/2) * scale and the taps run from
    trunc(centre - support + 1/2) to trunc(centre + support + 1/2), cut
    to the input. *)
Definition coeffs (in_size out_size xx : nat) : nat * list Z :=
  let i := Z.of_nat in_size in
  let o := Z.of_nat out_size in
  let f := Z.max i o in
  let c2 := ((2 * Z.of_nat xx + 1) * i)%Z in
  let xmin := Z.to_nat (Z.max 0 (Z.quot (c2 - 4 * f + o) (2 * o))) in
  let xmax := Nat.min in_size (Z.to_nat (Z.quot (c2 + 4 * f + o) (2 * o))) in
  let ws := map (fun x =>
                   bicubic_filter ((2 * Z.of_nat (x + xmin) + 1) * o - c2) (2 * f))
                (seq 0 (xmax - xmin)) in
  let ww := fold_left Z.add ws 0%Z in
  let den := if (ww =? 0)%Z then (2 * (2 * f) * (2 * f) * (2 * f))%Z else ww in
  (xmin, map (fun w => fixed_point w den) ws).

(** [v >> 22], cut to a byte. *)
Definition clip8 (v : Z) : Z :=
  Z.max 0 (Z.min 255 (v / 4194304)).

(** One output pixel of a pass: the weighted sum of the pixels of
    [window], channel by channel. *)
Definition weighted (ks : list Z) (window : list (list Z)) : list Z :=
  match window with
  | [] => []
  | px0 :: _ =>
      map clip8
        (fold_left
           (fun acc kp => map (fun ap => (fst ap + fst kp * snd ap)%Z) (combine acc (snd kp)))
           (combine ks window)
           (map (fun _ => 2097152%Z) px0))
  end.

(** One row of the horizontal pass, from the table of the pass: the
    first tap and the weights of every output position. *)
Definition resample_row (table : list (nat * list Z)) (row : list (list Z))
  : list (list Z) :=
  map (fun xk => weighted (snd xk) (skipn (fst xk) row)) table.

(** The horizontal pass: every row resampled to [w] pixels, with the
    weights computed once for the pass.  Rows that already have [w]
    pixels are left as they are (the pass is skipped). *)
Definition horizontal_pass (w : nat) (rows : image) : image :=
  let n := width rows in
  if Nat.eqb n w then rows
  else map (resample_row (map (coeffs n w) (seq 0 w))) rows.

(** One row of the vertical pass: pixel by pixel, the weighted sum down
    the rows of [window]. *)
Definition weighted_rows (ks : list Z) (window : image) : list (list Z) :=
  map (fun x => weighted ks (map (fun r => nth x r []) window))
      (seq 0 (width window)).

(** The vertical pass, to [h] rows; skipped when there are [h] rows
    already. *)
Definition vertical_pass (h : nat) (rows : image) : image :=
  let n := height rows in
  if Nat.eqb n h then rows
  else map (fun yk => weighted_rows (snd yk) (skipn (fst yk) rows))
           (map (coeffs n h) (seq 0 h)).

Definition resample (im : image) (size : nat * nat) : image :=
  vertical_pass (snd size) (horizontal_pass (fst size) im).

(** A row of 512 pixels: 256 grey pixels of value [a], then 256 of value
    [b]. *)
Definition step_row (a b : Z) : list (list Z) :=
  repeat [a; a; a] 256 ++ repeat [b; b; b] 256.

(** numpy's generator as a counter, colours as numbers. *)
Definition np_random3 (rng : nat) : nat * nat := (rng, S rng).

(** A spotter that finds nothing, and one that finds the single word
    HELLO in the box (10, 10, 50, 30). *)
Definition spotter_none (img : image) : result (prediction Z) :=
  Ok {| rec_texts := []; det_polygons := [] |}.

Definition spotter_hello (img : image) : result (prediction Z) :=
  Ok {| rec_texts := ["HELLO"];
        det_polygons := [[10; 10; 50; 10; 50; 30; 10; 30]%Z] |}.

Fixpoint evens (l : list Z) : list Z :=
  match l with
  | x :: _ :: r => x :: evens r
  | _ => []
  end.

(** The smallest box around the points of a polygon. *)
Definition poly2bbox (polygon : list Z) : result (box Z) :=
  if Nat.even (List.length polygon) then
    match evens polygon, evens (tl polygon) with
    | x :: xs, y :: ys =>
        Ok (fold_left Z.min xs x, fold_left Z.min ys y,
            fold_left Z.max xs x, fold_left Z.max ys y)
    | _, _ => Raise ValueError
    end
  else Raise AssertionError.

Definition apply_boxes_torch (boxes : list (box Z)) (shape : nat * nat)
  : list (box Z) := boxes.

(** A predictor that answers each box with the mask of the box itself. *)
Definition box_mask (h w : nat) (b : box Z) : sam_mask :=
  let '(x1, y1, x2, y2) := b in
  [map (fun y =>
          map (fun x =>
                 (x1 <=? Z.of_nat x)%Z && (Z.of_nat x <=? x2)%Z
                 && (y1 <=? Z.of_nat y)%Z && (Z.of_nat y <=? y2)%Z)
              (seq 0 w))
       (seq 0 h)].

Definition predict_torch (img : image) (boxes : list (box Z))
  : result (list sam_mask) :=
  Ok (map (box_mask (height img) (width img)) boxes).

(** A canvas of matplotlib's default figure size, 640 x 480, all white
    and opaque; the artists are not painted. *)
Definition canvas_render (fig : list (artist Z nat)) : image :=
  repeat (repeat [255; 255; 255; 255]%Z 640) 480.

(** The canvas after the colour conversion. *)
Definition white_preview : image := repeat (repeat [255; 255; 255]%Z 640) 480.

(** Sample inputs: a one-pixel image, an image of two pixels side by
    side, and an image of the working size with the mask of
    [half_table]. *)
Definition img1 : image := [[[10; 20; 30]]]%Z.
Definition img2 : image := [[[10; 20; 30]; [40; 50; 60]]]%Z.
Definition img512 : image := repeat (repeat [7; 8; 9]%Z 512) 512.
Definition mask512 : list (list Z) :=
  repeat (repeat 0%Z 512) 256 ++ repeat (repeat 1%Z 512) 256.

(** A spotter that finds two words, and a predictor that answers with
    the mask of the first box only. *)
Definition spotter_two (img : image) : result (prediction Z) :=
  Ok {| rec_texts := ["HELLO"; "WORLD"];
        det_polygons := [[10; 10; 50; 10; 50; 30; 10; 30]%Z;
                         [60; 10; 90; 10; 90; 30; 60; 30]%Z] |}.

Definition predict_first (img : image) (boxes : list (box Z))
  : result (list sam_mask) :=
  Ok (firstn 1 (map (box_mask (height img) (width img)) boxes)).

(** The form with [img1] uploaded and nothing else filled in. *)
Definition form1 : ui :=
  {| input_image := img1; sam_results := EmptyString; mask_results := EmptyString;
     text_index := EmptyString; prompt := EmptyString; output_image := None |}.

End Sample.

(** * The pipeline, over its collaborators *)

Section Pipeline.

(** Python floats: their [repr], the value of a float literal (with an
    optional minus sign), and the comparison [x > 0.5]. *)
Variable F : Type.
Variable float_repr : F -> string.
Variable float_of_atom : string -> option F.
Variable float_gt_half : F -> bool.

(** [eval] on a text outside the literal fragment below: it may raise, or
    run the expression and return its value. *)
Variable eval_other : string -> result (pyval F).

(** *** [repr] and [str] *)

Fixpoint py_repr (v : pyval F) : string :=
  match v with
  | PyBool true => "True"
  | PyBool false => "False"
  | PyInt z => str_Z z
  | PyFloat f => float_repr f
  | PyStr s => repr_str s
  | PyList l => "[" ++ join ", " (map py_repr l) ++ "]"
  | PyDict d =>
      "{" ++ join ", " (map (fun kv => (repr_key (fst kv) ++ ": " ++ py_repr (snd kv))%string) d) ++ "}"
  end.

Definition py_str (v : pyval F) : string :=
  match v with
  | PyStr s => s
  | _ => py_repr v
  end.

(** *** The literal fragment of [eval] *)

(** The value of a name or number token: [True], [False], an integer, or
    a float literal. *)
Definition atom_val (a : string) : option (pyval F) :=
  if String.eqb a "True" then Some (PyBool true)
  else if String.eqb a "False" then Some (PyBool false)
  else match int_of_atom a with
       | Some z => Some (PyInt z)
       | None => if float_shaped a then option_map PyFloat (float_of_atom a) else None
       end.

Definition key_of (v : pyval F) : option pykey :=
  match v with
  | PyBool b => Some (KBool b)
  | PyInt z => Some (KInt z)
  | PyStr s => Some (KStr s)
  | _ => None
  end.

(** A dict display inserts its items from left to right. *)
Definition mk_dict (items : list (pykey * pyval F)) : list (pykey * pyval F) :=
  fold_left (fun d kv => dict_set d (fst kv) (snd kv)) items [].

(** Recursive descent over the tokens, with fuel [n]: a value; the rest
    of a list display behind an element; the rest of a dict display behind
    an item. *)
Fixpoint parse_val (n : nat) (ts : list token) : option (pyval F * list token) :=
  match n with
  | O => None
  | S n =>
      match ts with
      | TAtom a :: r =>
          match atom_val a with
          | Some v => Some (v, r)
          | None => None
          end
      | TStr s :: r => Some (PyStr s, r)
      | TLBrack :: r =>
          match r with
          | TRBrack :: r' => Some (PyList [], r')
          | _ =>
              match parse_val n r with
              | Some (v, r1) =>
                  match parse_list_tail n r1 with
                  | Some (vs, r2) => Some (PyList (v :: vs), r2)
                  | None => None
                  end
              | None => None
              end
          end
      | TLBrace :: r =>
          match r with
          | TRBrace :: r' => Some (PyDict [], r')
          | _ =>
              match parse_item n r with
              | Some (kv, r1) =>
                  match parse_dict_tail n r1 with
                  | Some (kvs, r2) => Some (PyDict (mk_dict (kv :: kvs)), r2)
                  | None => None
                  end
              | None => None
              end
          end
      | _ => None
      end
  end
with parse_list_tail (n : nat) (ts : list token) : option (list (pyval F) * list token) :=
  match n with
  | O => None
  | S n =>
      match ts with
      | TRBrack :: r => Some ([], r)
      | TComma :: r =>
          match parse_val n r with
          | Some (v, r1) =>
              match parse_list_tail n r1 with
              | Some (vs, r2) => Some (v :: vs, r2)
              | None => None
              end
          | None => None
          end
      | _ => None
      end
  end
with parse_item (n : nat) (ts : list token) : option ((pykey * pyval F) * list token) :=
  match n with
  | O => None
  | S n =>
      match parse_val n ts with
      | Some (kv, TColon :: r) =>
          match key_of kv with
          | Some k =>
              match parse_val n r with
              | Some (v, r1) => Some ((k, v), r1)
              | None => None
              end
          | None => None
          end
      | _ => None
      end
  end
with parse_dict_tail (n : nat) (ts : list token)
  : option (list (pykey * pyval F) * list token) :=
  match n with
  | O => None
  | S n =>
      match ts with
      | TRBrace :: r => Some ([], r)
      | TComma :: r =>
          match parse_item n r with
          | Some (kv, r1) =>
              match parse_dict_tail n r1 with
              | Some (kvs, r2) => Some (kv :: kvs, r2)
              | None => None
              end
          | None => None
          end
      | _ => None
      end
  end.

(** The value of a text of the fragment: displays of lists and dicts over
    [True], [False], integers, float literals and plain strings.  The fuel
    is enough for every token list (lemma [parse_val_toks]). *)
Definition literal_eval (text : string) : option (pyval F) :=
  match lex text with
  | Some ts =>
      match parse_val (2 * List.length ts + 1) ts with
      | Some (v, []) => Some v
      | _ => None
      end
  | None => None
  end.

(** [eval(text)] *)
Definition py_eval (text : string) : result (pyval F) :=
  match literal_eval text with
  | Some v => Ok v
  | None => eval_other text
  end.

(** *** The tokens of a printed value *)

(** A text that ends a name, a number or a string: empty, or starting
    with a space or a punctuation mark. *)
Definition delimited (s : string) : bool :=
  match s with
  | EmptyString => true
  | String c _ =>
      match classify c with
      | CSpace | CPunct _ => true
      | _ => false
      end
  end.

Fixpoint sep_toks (parts : list (list token)) : list token :=
  match parts with
  | [] => []
  | [x] => x
  | x :: xs => x ++ TComma :: sep_toks xs
  end.

Definition key_tok (k : pykey) : token :=
  match k with
  | KBool true => TAtom "True"
  | KBool false => TAtom "False"
  | KInt z => TAtom (str_Z z)
  | KStr s => TStr s
  end.

Fixpoint toks (v : pyval F) : list token :=
  match v with
  | PyBool true => [TAtom "True"]
  | PyBool false => [TAtom "False"]
  | PyInt z => [TAtom (str_Z z)]
  | PyFloat f => [TAtom (float_repr f)]
  | PyStr s => [TStr s]
  | PyList l => TLBrack :: sep_toks (map toks l) ++ [TRBrack]
  | PyDict d =>
      TLBrace
      :: sep_toks (map (fun kv => key_tok (fst kv) :: TColon :: toks (snd kv)) d)
      ++ [TRBrace]
  end.

(** Strings [repr] prints between single quotes as they are: printable
    ASCII with no backslash and no single quote. *)
Definition plain_str (s : string) : bool :=
  all_chars (fun c => plain_char c && negb (Ascii.eqb c "'")) s.

(** A float whose [repr] is a float literal that reads back as the same
    float (any finite float in Python; [inf] and [nan] are not). *)
Definition float_lit_ok (f : F) : Prop :=
  float_shaped (float_repr f) = true /\
  int_of_atom (float_repr f) = None /\
  float_of_atom (float_repr f) = Some f.

Definition key_ok (k : pykey) : Prop :=
  match k with
  | KStr s => plain_str s = true
  | _ => True
  end.

(** No key equals ([==]) a later one. *)
Fixpoint distinct_keys (ks : list pykey) : bool :=
  match ks with
  | [] => true
  | k :: r => forallb (fun k' => negb (key_eqb k k')) r && distinct_keys r
  end.

(** The values whose [repr] is a text of the literal fragment that
    evaluates to the value itself. *)
Fixpoint lit_ok (v : pyval F) : Prop :=
  match v with
  | PyBool _ => True
  | PyInt _ => True
  | PyFloat f => float_lit_ok f
  | PyStr s => plain_str s = true
  | PyList l =>
      (fix all (l : list (pyval F)) : Prop :=
         match l with
         | [] => True
         | x :: r => lit_ok x /\ all r
         end) l
  | PyDict d =>
      distinct_keys (map fst d) = true /\
      (fix all (d : list (pykey * pyval F)) : Prop :=
         match d with
         | [] => True
         | kv :: r => key_ok (fst kv) /\ lit_ok (snd kv) /\ all r
         end) d
  end.

(** The text [p], in front of a delimiter, is lexed as the tokens [tp]. *)
Definition lexes_as (p : string) (tp : list token) : Prop :=
  forall rest, delimited rest = true ->
    lex (p ++ rest) = option_map (List.app tp) (lex rest).

(** The tokens start a value: a name, a number, a string or an opening
    bracket. *)
Definition head_open (ts : list token) : Prop :=
  match ts with
  | TAtom _ :: _ | TStr _ :: _ | TLBrack :: _ | TLBrace :: _ => True
  | _ => False
  end.

(** The tokens behind the first element of a list display, and behind
    the first item of a dict display. *)
Definition list_tail_toks (l : list (pyval F)) : list token :=
  flat_map (fun x => TComma :: toks x) l ++ [TRBrack].

Definition item_toks (kv : pykey * pyval F) : list token :=
  key_tok (fst kv) :: TColon :: toks (snd kv).

Definition dict_tail_toks (d : list (pykey * pyval F)) : list token :=
  flat_map (fun kv => TComma :: item_toks kv) d ++ [TRBrace].

(** The value is parsed back from its tokens, given fuel for twice their
    number. *)
Definition parses_back (v : pyval F) : Prop :=
  forall n r, 2 * List.length (toks v) <= n + 1 ->
    parse_val n (toks v ++ r) = Some (v, r).

(** *** Subscription, [x[k]] *)

Definition list_index {A : Type} (l : list A) (i : Z) : result A :=
  let n := Z.of_nat (List.length l) in
  let j := if (i <? 0)%Z then (i + n)%Z else i in
  if ((0 <=? j) && (j <? n))%Z then
    match nth_error l (Z.to_nat j) with
    | Some a => Ok a
    | None => Raise IndexError
    end
  else Raise IndexError.

Definition chars_of (s : string) : list string :=
  map (fun c => String c EmptyString) (list_ascii_of_string s).

Definition subscript (x : pyval F) (k : pykey) : result (pyval F) :=
  match x with
  | PyDict d =>
      match dict_get d k with
      | Some v => Ok v
      | None => Raise (KeyError k)
      end
  | PyList l =>
      match key_num k with
      | Some i => list_index l i
      | None => Raise TypeError
      end
  | PyStr s =>
      match key_num k with
      | Some i => c <- list_index (chars_of s) i ;; Ok (PyStr c)
      | None => Raise TypeError
      end
  | _ => Raise TypeError
  end.

(** *** [(np.array(m) > 0.5).astype(np.uint8)] *)

Definition cell01 (v : pyval F) : result Z :=
  match v with
  | PyBool b => Ok (if b then 1 else 0)%Z
  | PyInt z => Ok (if (0 <? z)%Z then 1 else 0)%Z
  | PyFloat f => Ok (if float_gt_half f then 1 else 0)%Z
  | PyStr _ => Raise TypeError
  | _ => Raise ValueError
  end.

Definition row01 (r : pyval F) : result (list Z) :=
  match r with
  | PyList cells => mapM cell01 cells
  | _ => Raise ValueError
  end.

(** A list of equally long, non-empty rows of scalars becomes the 0/1
    array of shape (H, W).  Anything else is reported as [ValueError]
    here: such a value is not a mask, and the steps that follow in the
    program fail on it. *)
Definition np_mask (m : pyval F) : result (list (list Z)) :=
  match m with
  | PyList rows =>
      rs <- mapM row01 rows ;;
      match rs with
      | [] => Raise ValueError
      | r0 :: _ =>
          if Nat.ltb 0 (List.length r0)
             && forallb (fun r => Nat.eqb (List.length r) (List.length r0)) rs
          then Ok rs
          else Raise ValueError
      end
  | _ => Raise ValueError
  end.

(** Lines 133-136 of [run_downstream]: [eval], the three subscriptions
    and the threshold. *)
Definition select_mask (mask_results index : string) : result (list (list Z)) :=
  table <- py_eval mask_results ;;
  i <- py_int index ;;
  entry <- subscript table (KInt i) ;;
  m <- subscript entry (KStr "mask") ;;
  m0 <- subscript m (KInt 0) ;;
  np_mask m0.

(** The exceptions the steps behind [eval] raise themselves: a failed
    [int()], a failed subscription, a value that is no mask. *)
Definition lookup_error (e : exn) : bool :=
  match e with
  | KeyError _ | IndexError | TypeError | ValueError => true
  | _ => false
  end.

(** *** Stage B *)

(** The torch generator: its states, and the state [torch.manual_seed(s)]
    puts it in. *)
Variable Rng : Type.
Variable manual_seed : Z -> Rng.

(** The ControlNet pipeline called with a prompt, a step count, a
    generator and a control image: it raises, or returns the pixels of its
    first output image (indexed row, column, channel) and the state it
    leaves the generator in.  The output image has the size of the control
    image. *)
Variable pipe :
  string -> nat -> Rng -> image -> result ((nat -> nat -> nat -> Z) * Rng).

(** PIL's resampling filter: the pixels of the image resampled to a new
    (width, height). *)
Variable resample : image -> nat * nat -> image.

(** [Image.resize(size)]: a copy when the size is unchanged, otherwise a
    new image of the requested size and the same channels, holding the
    filter's output. *)
Definition Image_resize (im : image) (size : nat * nat) : image :=
  if size_eqb (Image_size im) size then im
  else conform (snd size) (fst size) (channels im) (resample im size).

(** [np.stack([mask, mask, mask], axis=-1)] *)
Definition stack3 (mask : list (list Z)) : image :=
  map (map (fun v => [v; v; v])) mask.

(** The image built from the pipeline's pixels. *)
Definition pipe_image (control : image) (px : nat -> nat -> nat -> Z) : image :=
  tabulate (height control) (width control) 3 px.

(** [run_downstream(img, mask_results, index, prompt)], started with the
    global generator in state [g]; on success it returns the composite and
    the state the generator is left in. *)
Definition run_downstream (g : Rng) (img : image) (mask_results index prompt : string)
  : result (image * Rng) :=
  mask <- select_mask mask_results index ;;
  let mask := stack3 mask in
  img <- cvtColor img ;;
  let original_size := Image_size img in
  let generator := manual_seed 0 in
  ' (px, g') <- pipe prompt 20 generator (Image_resize mask (512, 512)) ;;
  let diff_result := pipe_image (Image_resize mask (512, 512)) px in
  prod <- np_binop mul_u8 diff_result (Image_resize mask (512, 512)) ;;
  let masked_diff_result := Image_resize prod original_size in
  sum <- np_binop add_u8 img masked_diff_result ;;
  out <- cvtColor sum ;;
  Ok (out, g').

(** The inpainting call of the specification, where the caller supplies
    the seed ("generate(mask, prompt, seed)"): [run_downstream] with
    [torch.manual_seed(seed)] in place of [torch.manual_seed(0)].  It is
    not part of the program; the examples compare the program with it. *)
Definition run_downstream_seeded (seed : Z) (img : image)
  (mask_results index prompt : string) : result (image * Rng) :=
  mask <- select_mask mask_results index ;;
  let mask := stack3 mask in
  img <- cvtColor img ;;
  let original_size := Image_size img in
  let generator := manual_seed seed in
  ' (px, g') <- pipe prompt 20 generator (Image_resize mask (512, 512)) ;;
  let diff_result := pipe_image (Image_resize mask (512, 512)) px in
  prod <- np_binop mul_u8 diff_result (Image_resize mask (512, 512)) ;;
  let masked_diff_result := Image_resize prod original_size in
  sum <- np_binop add_u8 img masked_diff_result ;;
  out <- cvtColor sum ;;
  Ok (out, g').

(** The same computation in closed form, for a mask, the pipeline's
    pixels and an image of shape (h, w, 3); lemma [run_downstream_ok]
    relates them to [run_downstream]. *)

(** The control image handed to the pipeline, [mask.resize((512, 512))]. *)
Definition control_image (mask : list (list Z)) : image :=
  Image_resize (stack3 mask) (512, 512).

(** [masked_diff_result]: the generated image times the control image,
    resized to [size]. *)
Definition masked_patch (mask : list (list Z)) (px : nat -> nat -> nat -> Z)
  (size : nat * nat) : image :=
  Image_resize
    (tabulate 512 512 3 (fun y x c => mul_u8 (px y x c) (pixel (control_image mask) y x c)))
    size.

(** The returned array: the image plus the patch, the patch's channels
    in reverse order (the sum is taken between the two colour
    conversions). *)
Definition composite (h w : nat) (img patch : image) : image :=
  tabulate h w 3 (fun y x c => add_u8 (pixel img y x c) (pixel patch y x (2 - c))).

(** The mask has [mh] rows of [mw] entries. *)
Definition rectb (mh mw : nat) (mask : list (list Z)) : bool :=
  Nat.eqb (List.length mask) mh
  && forallb (fun r => Nat.eqb (List.length r) mw) mask.

(** [mask[y][x]], 0 off the mask. *)
Definition mask_at (mask : list (list Z)) (y x : nat) : Z :=
  nth x (nth y mask []) 0%Z.

(** *** Stage A *)

(** numpy's global generator and the colour [np.random.random(3)] draws
    from it. *)
Variable NpRng : Type.
Variable Color : Type.
Variable np_random3 : NpRng -> Color * NpRng.

(** The text spotter, [mmocr_inferencer(img)['predictions'][0]]. *)
Variable mmocr_inferencer : image -> result (prediction F).

(** [mmocr.utils.poly2bbox] *)
Variable poly2bbox : list F -> result (box F).

(** [sam_predictor.transform.apply_boxes_torch(boxes, (h, w))] *)
Variable apply_boxes_torch : list (box F) -> nat * nat -> list (box F).

(** [sam_predictor.set_image(img)] followed by [predict_torch] with box
    prompts and a single mask per box. *)
Variable predict_torch : image -> list (box F) -> result (list sam_mask).

(** The pixels of the figure's canvas (RGBA) once everything is drawn. *)
Variable canvas_render : list (artist F Color) -> image.

Definition figure : Type := list (artist F Color).

(** [np.array(polygon).reshape(-1, 2)]: an odd number of coordinates
    cannot be reshaped. *)
Fixpoint reshape_pairs (l : list F) : result (list (list F)) :=
  match l with
  | [] => Ok []
  | x :: y :: r => ps <- reshape_pairs r ;; Ok ([x; y] :: ps)
  | [_] => Raise ValueError
  end.

(** [np.concatenate([polygon, polygon[:1]], axis=0)] *)
Definition close_polygon (pts : list (list F)) : list (list F) :=
  pts ++ firstn 1 pts.

(** [mask.cpu().numpy().tolist()] and [polygon.tolist()] *)
Definition mask_tolist (m : sam_mask) : pyval F :=
  PyList (map (fun plane => PyList (map (fun row => PyList (map PyBool row)) plane)) m).

Definition polygon_tolist (pts : list (list F)) : pyval F :=
  PyList (map (fun pt => PyList (map PyFloat pt)) pts).

(** [dict(mask=..., polygon=...)] *)
Definition table_entry (m : sam_mask) (pts : list (list F)) : pyval F :=
  PyDict [(KStr "mask", mask_tolist m); (KStr "polygon", polygon_tolist pts)].

Definition newline : string := String (ascii_of_nat 10) EmptyString.

(** The line [f'{idx}:{rec_text}' + '\n'] *)
Definition summary_line (idx : nat) (rec_text : string) : string :=
  (str_nat idx ++ ":" ++ rec_text ++ newline)%string.

(** What the loop carries: the figure, [output_str], [outputs] and the
    numpy generator. *)
Definition loop_state : Type :=
  (figure * string * list (pykey * pyval F) * NpRng)%type.

Definition loop_item : Type := (sam_mask * string * list F * box F)%type.

(** One round of the loop, lines 97-113. *)
Definition loop_body (idx : nat) (item : loop_item) (st : loop_state)
  : result loop_state :=
  let '(mask, rec_text, polygon, bbox) := item in
  let '(fig, output_str, outputs, rng) := st in
  let '(color, rng) := np_random3 rng in
  let fig := fig ++ [MaskOverlay mask color] in
  pts <- reshape_pairs polygon ;;
  let polygon := close_polygon pts in
  let fig := fig ++ [PlotLine polygon] in
  let text_string := ("idx:" ++ str_nat idx ++ ", " ++ rec_text)%string in
  let '(x1, y1, _, _) := bbox in
  let fig := fig ++ [Text x1 y1 text_string] in
  let output_str := (output_str ++ summary_line idx rec_text)%string in
  let outputs := dict_set outputs (KInt (Z.of_nat idx)) (table_entry mask polygon) in
  Ok (fig, output_str, outputs, rng).

(** [for idx, item in enumerate(items)], from index [idx] on. *)
Fixpoint loop (idx : nat) (items : list loop_item) (st : loop_state)
  : result loop_state :=
  match items with
  | [] => Ok st
  | item :: rest => st' <- loop_body idx item st ;; loop (S idx) rest st'
  end.

(** [zip(masks, rec_texts, det_polygons, det_bboxes)]: as long as the
    shortest of the four. *)
Definition zip4 (masks : list sam_mask) (texts : list string)
  (polys : list (list F)) (boxes : list (box F)) : list loop_item :=
  combine (combine (combine masks texts) polys) boxes.

(** [run_mmocr_sam(img)], started with numpy's generator in state [rng]:
    the preview, the summary string and the mask table. *)
Definition run_mmocr_sam (rng : NpRng) (img : image)
  : result (image * string * pyval F) :=
  result <- mmocr_inferencer img ;;
  let rec_texts := rec_texts result in
  let det_polygons := det_polygons result in
  det_bboxes <- mapM poly2bbox det_polygons ;;
  let transformed_boxes := apply_boxes_torch det_bboxes (height img, width img) in
  masks <- predict_torch img transformed_boxes ;;
  img <- cvtColor img ;;
  let fig := [Imshow img] in
  ' (fig, output_str, outputs, _) <-
      loop 0 (zip4 masks rec_texts det_polygons det_bboxes) (fig, EmptyString, [], rng) ;;
  img <- cvtColor (canvas_render fig) ;;
  Ok (img, output_str, PyDict outputs).

(** The table rows and the summary the loop adds for [items], counted
    from [idx]; lemma [loop_spec] relates them to [loop]. *)
Fixpoint table_rows (idx : nat) (items : list loop_item)
  : result (list (pykey * pyval F)) :=
  match items with
  | [] => Ok []
  | (mask, _, polygon, _) :: rest =>
      pts <- reshape_pairs polygon ;;
      rows <- table_rows (S idx) rest ;;
      Ok ((KInt (Z.of_nat idx), table_entry mask (close_polygon pts)) :: rows)
  end.

Fixpoint summary_from (idx : nat) (texts : list string) : string :=
  match texts with
  | [] => EmptyString
  | t :: rest => (summary_line idx t ++ summary_from (S idx) rest)%string
  end.

(** Every key of [d] is an index below [idx]. *)
Definition keys_below (idx : nat) (d : list (pykey * pyval F)) : Prop :=
  Forall (fun kv => exists j, fst kv = KInt (Z.of_nat j) /\ j < idx) d.

(** *** The form *)

(** What a [Textbox] shows for a value a handler returns: [str(value)]. *)
Definition Textbox_postprocess (v : pyval F) : string := py_str v.

(** [mmocr_sam.click]: inputs [input_image]; outputs [output_image],
    [sam_results], [mask_results]. *)
Definition mmocr_sam_click (rng : NpRng) (st : ui) : result ui :=
  ' (img, output_str, outputs) <- run_mmocr_sam rng (input_image st) ;;
  Ok {| input_image := input_image st;
        sam_results := output_str;
        mask_results := Textbox_postprocess outputs;
        text_index := text_index st;
        prompt := prompt st;
        output_image := Some img |}.

(** The form once the user has typed an index and a prompt. *)
Definition with_request (st : ui) (index text : string) : ui :=
  {| input_image := input_image st;
     sam_results := sam_results st;
     mask_results := mask_results st;
     text_index := index;
     prompt := text;
     output_image := output_image st |}.

(** [downstream.click]: inputs [input_image], [mask_results],
    [text_index], [prompt]; output [output_image]. *)
Definition downstream_click (g : Rng) (st : ui) : result (ui * Rng) :=
  ' (img, g') <- run_downstream g (input_image st) (mask_results st)
                   (text_index st) (prompt st) ;;
  Ok ({| input_image := input_image st;
         sam_results := sam_results st;
         mask_results := mask_results st;
         text_index := text_index st;
         prompt := prompt st;
         output_image := Some img |}, g').

(** *** Closed forms used by the facts on both stages *)

(** [(plane > 0.5).astype(np.uint8)] on a plane of booleans. *)
Definition threshold_plane (plane : list (list bool)) : list (list Z) :=
  map (map (fun b : bool => if b then 1%Z else 0%Z)) plane.

(** The three artists one round of the loop draws for region [idx]. *)
Definition region_artists (idx : nat) (mask : sam_mask) (color : Color)
  (pts : list (list F)) (x1 y1 : F) (rec_text : string) : figure :=
  [MaskOverlay mask color;
   PlotLine (close_polygon pts);
   Text x1 y1 ("idx:" ++ str_nat idx ++ ", " ++ rec_text)%string].

(** * Facts *)

(** A computation that returned went through each of its steps: open the
    first [bind] of hypothesis [H]. *)
Ltac step_bind H :=
  match type of H with
  | bind ?c _ = Ok _ =>
      let E := fresh "E" in
      destruct c eqn:E; cbn [bind] in H; [|discriminate H]
  end.

(** ** Lists as tables *)

Lemma map_seq_shift {A : Type} (g : nat -> A) (n : nat) :
  map g (seq 1 n) = map (fun i => g (S i)) (seq 0 n).
Proof.
  rewrite <- seq_shift, map_map. reflexivity.
Qed.

Lemma list_as_table {A : Type} (d : A) (l : list A) :
  l = map (fun i => nth i l d) (seq 0 (List.length l)).
Proof.
  induction l as [|a l IH]; simpl; [reflexivity|].
  f_equal. rewrite map_seq_shift. exact IH.
Qed.

Lemma nth_table {A : Type} (g : nat -> A) (n i : nat) (d : A) :
  i < n -> nth i (map g (seq 0 n)) d = g i.
Proof.
  intros Hi.
  rewrite (nth_indep _ d (g 0)) by (rewrite length_map, length_seq; exact Hi).
  rewrite (map_nth g (seq 0 n) 0 i), seq_nth by exact Hi.
  reflexivity.
Qed.

Lemma table_ext {A : Type} (f g : nat -> A) (n : nat) :
  (forall i, i < n -> f i = g i) -> map f (seq 0 n) = map g (seq 0 n).
Proof.
  intros H. apply map_ext_in. intros i Hi. apply in_seq in Hi. apply H. lia.
Qed.

Lemma forallb_nth {A : Type} (p : A -> bool) (l : list A) (i : nat) (d : A) :
  forallb p l = true -> i < List.length l -> p (nth i l d) = true.
Proof.
  intros H Hi. rewrite forallb_forall in H. apply H, nth_In, Hi.
Qed.

Lemma forallb_table {A : Type} (p : A -> bool) (g : nat -> A) (n : nat) :
  (forall i, i < n -> p (g i) = true) -> forallb p (map g (seq 0 n)) = true.
Proof.
  intros H. apply forallb_forall. intros x Hx.
  apply in_map_iff in Hx. destruct Hx as [i [<- Hi]].
  apply in_seq in Hi. apply H. lia.
Qed.

Lemma mapM_table {A B : Type} (f : A -> result B) (g : nat -> B) (d : A) (l : list A) :
  (forall i, i < List.length l -> f (nth i l d) = Ok (g i)) ->
  mapM f l = Ok (map g (seq 0 (List.length l))).
Proof.
  revert g. induction l as [|a l IH]; intros g H; simpl; [reflexivity|].
  assert (H0 := H 0 ltac:(simpl; lia)). simpl in H0. rewrite H0. simpl.
  rewrite (IH (fun i => g (S i))).
  - simpl. rewrite map_seq_shift. reflexivity.
  - intros i Hi. apply (H (S i)). simpl. lia.
Qed.

Lemma zip_same_table {A B C : Type} (f : A -> B -> result C) (g : nat -> C)
  (da : A) (db : B) (a : list A) (b : list B) :
  List.length b = List.length a ->
  (forall i, i < List.length a -> f (nth i a da) (nth i b db) = Ok (g i)) ->
  zip_same f a b = Ok (map g (seq 0 (List.length a))).
Proof.
  revert b g. induction a as [|x a IH]; intros [|y b] g Hl H; simpl in *;
    try discriminate; [reflexivity|].
  assert (H0 := H 0 ltac:(lia)). simpl in H0. rewrite H0. simpl.
  rewrite (IH b (fun i => g (S i))).
  - simpl. rewrite map_seq_shift. reflexivity.
  - lia.
  - intros i Hi. apply (H (S i)). lia.
Qed.

Lemma zip_same_length {A B C : Type} (f : A -> B -> result C)
  (a : list A) (b : list B) (r : list C) :
  zip_same f a b = Ok r ->
  List.length a = List.length r /\ List.length b = List.length r.
Proof.
  revert b r. induction a as [|x a IH]; intros [|y b] r H; simpl in H;
    try discriminate.
  - injection H as <-. split; reflexivity.
  - destruct (f x y); simpl in H; [|discriminate].
    destruct (zip_same f a b) eqn:E; simpl in H; [|discriminate].
    injection H as <-. destruct (IH _ _ E). simpl. split; congruence.
Qed.

Lemma zip_same_nth {A B C : Type} (f : A -> B -> result C)
  (a : list A) (b : list B) (r : list C) (i : nat) (da : A) (db : B) (dr : C) :
  zip_same f a b = Ok r -> i < List.length r ->
  f (nth i a da) (nth i b db) = Ok (nth i r dr).
Proof.
  revert b r i. induction a as [|x a IH]; intros [|y b] r i H Hi; simpl in H;
    try discriminate.
  - injection H as <-. simpl in Hi. lia.
  - destruct (f x y) eqn:Exy; simpl in H; [|discriminate].
    destruct (zip_same f a b) eqn:E; simpl in H; [|discriminate].
    injection H as <-. destruct i as [|i]; simpl; [exact Exy|].
    apply IH; [exact E | simpl in Hi; lia].
Qed.

(** ** Shapes and pixels *)

Lemma shapeb_rows (h w ch : nat) (im : image) :
  shapeb h w ch im = true -> List.length im = h.
Proof.
  unfold shapeb. intros H. apply andb_prop in H. destruct H as [H _].
  apply Nat.eqb_eq, H.
Qed.

Lemma shapeb_cols (h w ch : nat) (im : image) (y : nat) :
  shapeb h w ch im = true -> y < h -> List.length (nth y im []) = w.
Proof.
  intros H Hy. pose proof (shapeb_rows _ _ _ _ H) as Hh.
  unfold shapeb in H. apply andb_prop in H. destruct H as [_ H].
  apply (forallb_nth _ _ y []) in H; [|lia].
  apply andb_prop in H. destruct H as [H _]. apply Nat.eqb_eq, H.
Qed.

Lemma shapeb_chans (h w ch : nat) (im : image) (y x : nat) :
  shapeb h w ch im = true -> y < h -> x < w ->
  List.length (nth x (nth y im []) []) = ch.
Proof.
  intros H Hy Hx. pose proof (shapeb_rows _ _ _ _ H) as Hh.
  pose proof (shapeb_cols _ _ _ _ y H Hy) as Hw.
  unfold shapeb in H. apply andb_prop in H. destruct H as [_ H].
  apply (forallb_nth _ _ y []) in H; [|lia].
  apply andb_prop in H. destruct H as [_ H].
  apply (forallb_nth _ _ x []) in H; [|lia].
  apply Nat.eqb_eq, H.
Qed.

Lemma shapeb_tabulate (h w ch : nat) (f : nat -> nat -> nat -> Z) :
  shapeb h w ch (tabulate h w ch f) = true.
Proof.
  unfold shapeb, tabulate. rewrite length_map, length_seq, Nat.eqb_refl. simpl.
  apply forallb_table. intros y _.
  rewrite length_map, length_seq, Nat.eqb_refl. simpl.
  apply forallb_table. intros x _.
  rewrite length_map, length_seq. apply Nat.eqb_refl.
Qed.

Lemma pixel_tabulate (h w ch : nat) (f : nat -> nat -> nat -> Z) (y x c : nat) :
  y < h -> x < w -> c < ch -> pixel (tabulate h w ch f) y x c = f y x c.
Proof.
  intros Hy Hx Hc. unfold pixel, tabulate.
  rewrite nth_table by exact Hy. rewrite nth_table by exact Hx.
  apply nth_table. exact Hc.
Qed.

Lemma tabulate_ext (h w ch : nat) (f g : nat -> nat -> nat -> Z) :
  (forall y x c, y < h -> x < w -> c < ch -> f y x c = g y x c) ->
  tabulate h w ch f = tabulate h w ch g.
Proof.
  intros H. unfold tabulate.
  apply table_ext. intros y Hy. apply table_ext. intros x Hx.
  apply table_ext. intros c Hc. apply H; assumption.
Qed.

Lemma fit_table {A : Type} (d : A) (n : nat) (l : list A) :
  fit d n l = map (fun i => nth i l d) (seq 0 n).
Proof.
  revert l. induction n as [|n IH]; intros l; [reflexivity|].
  cbn [fit seq map]. rewrite map_seq_shift.
  destruct l as [|x l]; rewrite IH; simpl; f_equal.
  apply map_ext. intros [|i]; reflexivity.
Qed.

Lemma conform_tabulate (h w ch : nat) (im : image) :
  conform h w ch im = tabulate h w ch (pixel im).
Proof.
  unfold conform, tabulate, pixel. rewrite fit_table, map_map.
  apply map_ext. intros y. rewrite fit_table, map_map.
  apply map_ext. intros x. apply fit_table.
Qed.

(** An array of a given shape is the table of its pixels. *)
Lemma image_as_table (h w ch : nat) (im : image) :
  shapeb h w ch im = true -> im = tabulate h w ch (pixel im).
Proof.
  intros H. unfold tabulate, pixel.
  rewrite (list_as_table [] im) at 1. rewrite (shapeb_rows _ _ _ _ H).
  apply table_ext. intros y Hy.
  rewrite (list_as_table [] (nth y im [])) at 1.
  rewrite (shapeb_cols _ _ _ _ _ H Hy).
  apply table_ext. intros x Hx.
  rewrite (list_as_table 0%Z (nth x (nth y im []) [])) at 1.
  rewrite (shapeb_chans _ _ _ _ _ _ H Hy Hx). reflexivity.
Qed.

Lemma Image_size_shape (h w ch : nat) (im : image) :
  shapeb h w ch im = true -> 0 < h -> Image_size im = (w, h).
Proof.
  intros H Hh. unfold Image_size, width, height.
  rewrite (shapeb_rows _ _ _ _ H).
  replace (hd [] im) with (nth 0 im []) by (destruct im; reflexivity).
  rewrite (shapeb_cols _ _ _ _ 0 H Hh). reflexivity.
Qed.

Lemma channels_shape (h w ch : nat) (im : image) :
  shapeb h w ch im = true -> 0 < h -> 0 < w -> channels im = ch.
Proof.
  intros H Hh Hw. unfold channels.
  replace (hd [] im) with (nth 0 im []) by (destruct im; reflexivity).
  replace (hd [] (nth 0 im [])) with (nth 0 (nth 0 im []) [])
    by (destruct (nth 0 im []); reflexivity).
  apply (shapeb_chans _ _ _ _ _ _ H Hh Hw).
Qed.

(** Arithmetic on two arrays of one shape is entry by entry. *)
Lemma np_binop_shape (op : Z -> Z -> Z) (h w ch : nat) (a b : image) :
  shapeb h w ch a = true -> shapeb h w ch b = true ->
  np_binop op a b
  = Ok (tabulate h w ch (fun y x c => op (pixel a y x c) (pixel b y x c))).
Proof.
  intros Ha Hb. unfold np_binop, tabulate, pixel.
  rewrite <- (shapeb_rows _ _ _ _ Ha) at 1.
  apply (zip_same_table _ _ [] []).
  - rewrite (shapeb_rows _ _ _ _ Ha), (shapeb_rows _ _ _ _ Hb). reflexivity.
  - intros y Hy. rewrite (shapeb_rows _ _ _ _ Ha) in Hy.
    rewrite <- (shapeb_cols _ _ _ _ _ Ha Hy) at 1.
    apply (zip_same_table _ _ [] []).
    + rewrite (shapeb_cols _ _ _ _ _ Ha Hy), (shapeb_cols _ _ _ _ _ Hb Hy).
      reflexivity.
    + intros x Hx. rewrite (shapeb_cols _ _ _ _ _ Ha Hy) in Hx.
      rewrite <- (shapeb_chans _ _ _ _ _ _ Ha Hy Hx) at 1.
      apply (zip_same_table _ _ 0%Z 0%Z).
      * rewrite (shapeb_chans _ _ _ _ _ _ Ha Hy Hx),
          (shapeb_chans _ _ _ _ _ _ Hb Hy Hx). reflexivity.
      * intros c _. reflexivity.
Qed.

(** ** Colour conversion, resizing, masks *)

Lemma cvt_pixel_3 (px : list Z) :
  List.length px = 3 ->
  cvt_pixel px = Ok (map (fun c => nth (2 - c) px 0%Z) (seq 0 3)).
Proof.
  destruct px as [|a [|b [|c [|e px]]]]; simpl; intros H; try discriminate.
  reflexivity.
Qed.

Lemma cvtColor_shape3 (h w : nat) (im : image) :
  shapeb h w 3 im = true -> 0 < h -> 0 < w ->
  cvtColor im = Ok (tabulate h w 3 (fun y x c => pixel im y x (2 - c))).
Proof.
  intros H Hh Hw.
  assert (Hbody : mapM (mapM cvt_pixel) im
                  = Ok (tabulate h w 3 (fun y x c => pixel im y x (2 - c)))).
  { unfold tabulate, pixel.
    rewrite <- (shapeb_rows _ _ _ _ H) at 1. apply (mapM_table _ _ []).
    intros y Hy. rewrite (shapeb_rows _ _ _ _ H) in Hy.
    rewrite <- (shapeb_cols _ _ _ _ _ H Hy) at 1. apply (mapM_table _ _ []).
    intros x Hx. rewrite (shapeb_cols _ _ _ _ _ H Hy) in Hx.
    apply cvt_pixel_3. apply (shapeb_chans _ _ _ _ _ _ H Hy Hx). }
  pose proof (shapeb_rows _ _ _ _ H) as Hr.
  pose proof (shapeb_cols _ _ _ _ 0 H Hh) as Hc.
  unfold cvtColor. destruct im as [|[|p r] im]; simpl in Hr, Hc; try lia.
  exact Hbody.
Qed.

Lemma shapeb_Image_resize (h0 w0 ch h w : nat) (im : image) :
  shapeb h0 w0 ch im = true -> 0 < h0 -> 0 < w0 ->
  shapeb h w ch (Image_resize im (w, h)) = true.
Proof.
  intros H Hh Hw. unfold Image_resize.
  rewrite (Image_size_shape _ _ _ _ H Hh). unfold size_eqb. simpl.
  destruct (Nat.eqb w0 w) eqn:E1; destruct (Nat.eqb h0 h) eqn:E2; simpl;
    try (rewrite (channels_shape _ _ _ _ H Hh Hw), conform_tabulate;
         apply shapeb_tabulate).
  apply Nat.eqb_eq in E1, E2. subst. exact H.
Qed.

(** Resizing to the size an image already has returns it unchanged. *)
Lemma Image_resize_same (h w ch : nat) (im : image) :
  shapeb h w ch im = true -> 0 < h -> Image_resize im (w, h) = im.
Proof.
  intros H Hh. unfold Image_resize.
  rewrite (Image_size_shape _ _ _ _ H Hh). unfold size_eqb. simpl.
  rewrite !Nat.eqb_refl. reflexivity.
Qed.

Lemma shapeb_stack3 (mh mw : nat) (mask : list (list Z)) :
  rectb mh mw mask = true -> shapeb mh mw 3 (stack3 mask) = true.
Proof.
  unfold rectb, shapeb, stack3. intros H. apply andb_prop in H. destruct H as [H1 H2].
  rewrite length_map, H1. simpl.
  rewrite forallb_forall in *. intros row Hrow.
  apply in_map_iff in Hrow. destruct Hrow as [r [<- Hr]].
  rewrite length_map, (H2 _ Hr). simpl.
  apply forallb_forall. intros px Hpx.
  apply in_map_iff in Hpx. destruct Hpx as [v [<- _]]. reflexivity.
Qed.

Lemma pixel_stack3 (mask : list (list Z)) (y x c : nat) :
  y < List.length mask -> x < List.length (nth y mask []) -> c < 3 ->
  pixel (stack3 mask) y x c = mask_at mask y x.
Proof.
  intros Hy Hx Hc. unfold pixel, stack3, mask_at.
  rewrite (nth_indep _ [] (map (fun v => [v; v; v]) []))
    by (rewrite length_map; exact Hy).
  rewrite (map_nth (map (fun v : Z => [v; v; v])) mask [] y).
  rewrite (nth_indep _ [] ((fun v : Z => [v; v; v]) 0%Z))
    by (rewrite length_map; exact Hx).
  rewrite (map_nth (fun v : Z => [v; v; v]) (nth y mask []) 0%Z x).
  destruct c as [|[|[|c]]]; simpl; try reflexivity; lia.
Qed.

Lemma mapM_length {A B : Type} (f : A -> result B) (l : list A) (r : list B) :
  mapM f l = Ok r -> List.length r = List.length l.
Proof.
  revert r. induction l as [|a l IH]; intros r H; simpl in H.
  - injection H as <-. reflexivity.
  - destruct (f a); simpl in H; [|discriminate].
    destruct (mapM f l) eqn:E; simpl in H; [|discriminate].
    injection H as <-. simpl. f_equal. apply IH. reflexivity.
Qed.

(** What [np_mask] returns is a non-empty rectangle. *)
Lemma np_mask_rect (m : pyval F) (mask : list (list Z)) :
  np_mask m = Ok mask ->
  exists mh mw, 0 < mh /\ 0 < mw /\ rectb mh mw mask = true.
Proof.
  unfold np_mask. destruct m; try discriminate. intros H.
  destruct (mapM row01 l) as [rs|] eqn:E; simpl in H; [|discriminate].
  destruct rs as [|r0 rs]; [discriminate|].
  destruct (Nat.ltb 0 (List.length r0)
            && forallb (fun r => Nat.eqb (List.length r) (List.length r0)) (r0 :: rs))
    eqn:E2; [|discriminate].
  injection H as <-. apply andb_prop in E2. destruct E2 as [E2 E3].
  exists (S (List.length rs)), (List.length r0). repeat split.
  - lia.
  - apply Nat.ltb_lt, E2.
  - unfold rectb. simpl List.length. rewrite Nat.eqb_refl. exact E3.
Qed.

Lemma select_mask_rect (text index : string) (mask : list (list Z)) :
  select_mask text index = Ok mask ->
  exists mh mw, 0 < mh /\ 0 < mw /\ rectb mh mw mask = true.
Proof.
  unfold select_mask. intros H.
  destruct (py_eval text); simpl in H; [|discriminate].
  destruct (py_int index); simpl in H; [|discriminate].
  destruct (subscript a (KInt a0)); simpl in H; [|discriminate].
  destruct (subscript a1 (KStr "mask")); simpl in H; [|discriminate].
  destruct (subscript a2 (KInt 0)); simpl in H; [|discriminate].
  eapply np_mask_rect, H.
Qed.

Lemma shapeb_control_image (mask : list (list Z)) (mh mw : nat) :
  0 < mh -> 0 < mw -> rectb mh mw mask = true ->
  shapeb 512 512 3 (control_image mask) = true.
Proof.
  intros Hh Hw H. unfold control_image.
  apply (shapeb_Image_resize mh mw); [apply shapeb_stack3, H | exact Hh | exact Hw].
Qed.

(** ** Stage B in closed form *)

Lemma pipe_image_control (mask : list (list Z)) (mh mw : nat)
  (px : nat -> nat -> nat -> Z) :
  0 < mh -> 0 < mw -> rectb mh mw mask = true ->
  pipe_image (control_image mask) px = tabulate 512 512 3 px.
Proof.
  intros Hh Hw H. pose proof (shapeb_control_image _ _ _ Hh Hw H) as Hc.
  unfold pipe_image.
  assert (Hs : Image_size (control_image mask) = (512, 512))
    by (apply (Image_size_shape _ _ _ _ Hc); lia).
  unfold Image_size in Hs. injection Hs as -> ->. reflexivity.
Qed.

(** A call with a seed, on an image of shape (h, w, 3) with a selectable
    mask and an answering pipeline, returns, and what it returns is
    [composite]. *)
Lemma run_downstream_seeded_ok (seed : Z) (g1 : Rng) (img : image)
  (text index prompt : string)
  (h w : nat) (mask : list (list Z)) (px : nat -> nat -> nat -> Z) :
  select_mask text index = Ok mask ->
  shapeb h w 3 img = true -> 0 < h -> 0 < w ->
  pipe prompt 20 (manual_seed seed) (control_image mask) = Ok (px, g1) ->
  run_downstream_seeded seed img text index prompt
  = Ok (composite h w img (masked_patch mask px (w, h)), g1).
Proof.
  intros Hsel Himg Hh Hw Hpipe.
  destruct (select_mask_rect _ _ _ Hsel) as [mh [mw [Hmh [Hmw Hrect]]]].
  pose proof (shapeb_control_image _ _ _ Hmh Hmw Hrect) as Hctl.
  unfold run_downstream_seeded. rewrite Hsel. cbn [bind].
  rewrite (cvtColor_shape3 _ _ _ Himg Hh Hw). cbn [bind].
  fold (control_image mask). rewrite Hpipe. cbn [bind].
  rewrite (pipe_image_control _ _ _ _ Hmh Hmw Hrect).
  rewrite (np_binop_shape mul_u8 512 512 3)
    by (try apply shapeb_tabulate; exact Hctl).
  cbn [bind].
  rewrite (Image_size_shape h w 3) by (try apply shapeb_tabulate; exact Hh).
  assert (Hprod :
    tabulate 512 512 3
      (fun y x c => mul_u8 (pixel (tabulate 512 512 3 px) y x c)
                      (pixel (control_image mask) y x c))
    = tabulate 512 512 3
      (fun y x c => mul_u8 (px y x c) (pixel (control_image mask) y x c))).
  { apply tabulate_ext. intros y x c Hy Hx Hc.
    rewrite pixel_tabulate by assumption. reflexivity. }
  rewrite Hprod. fold (masked_patch mask px (w, h)).
  assert (Hpatch : shapeb h w 3 (masked_patch mask px (w, h)) = true).
  { unfold masked_patch. apply (shapeb_Image_resize 512 512); try lia.
    apply shapeb_tabulate. }
  rewrite (np_binop_shape add_u8 h w 3) by (try apply shapeb_tabulate; exact Hpatch).
  cbn [bind].
  rewrite (cvtColor_shape3 h w) by (try apply shapeb_tabulate; assumption).
  cbn [bind]. unfold composite. do 2 f_equal.
  apply tabulate_ext. intros y x c Hy Hx Hc.
  rewrite !pixel_tabulate by (try assumption; lia).
  do 2 f_equal. lia.
Qed.

(** A run of the program is the call with seed 0, whatever state the
    generator was in: it returns under the same conditions. *)
Lemma run_downstream_ok (g g1 : Rng) (img : image) (text index prompt : string)
  (h w : nat) (mask : list (list Z)) (px : nat -> nat -> nat -> Z) :
  select_mask text index = Ok mask ->
  shapeb h w 3 img = true -> 0 < h -> 0 < w ->
  pipe prompt 20 (manual_seed 0) (control_image mask) = Ok (px, g1) ->
  run_downstream g img text index prompt
  = Ok (composite h w img (masked_patch mask px (w, h)), g1).
Proof.
  exact (run_downstream_seeded_ok 0 g1 img text index prompt h w mask px).
Qed.

(** On an image and a mask of the working size nothing is resized: a
    pixel of the composite is the image's pixel plus the pipeline's pixel
    times the mask entry. *)
Lemma working_size_pixel (img : image) (mask : list (list Z))
  (px : nat -> nat -> nat -> Z) (y x c : nat) :
  rectb 512 512 mask = true -> y < 512 -> x < 512 -> c < 3 ->
  pixel (composite 512 512 img (masked_patch mask px (512, 512))) y x c
  = add_u8 (pixel img y x c) (mul_u8 (px y x (2 - c)) (mask_at mask y x)).
Proof.
  intros Hrect Hy Hx Hc.
  pose proof (shapeb_stack3 _ _ _ Hrect) as Hst.
  assert (Hctl : control_image mask = stack3 mask).
  { unfold control_image. apply (Image_resize_same 512 512 3); [exact Hst | lia]. }
  unfold composite. rewrite pixel_tabulate by assumption.
  unfold masked_patch.
  rewrite (Image_resize_same 512 512 3) by (try apply shapeb_tabulate; lia).
  rewrite pixel_tabulate by (try assumption; lia).
  rewrite Hctl.
  assert (Hrows : List.length mask = 512).
  { unfold rectb in Hrect. apply andb_prop in Hrect. apply Nat.eqb_eq, Hrect. }
  assert (Hcols : List.length (nth y mask []) = 512).
  { unfold rectb in Hrect. apply andb_prop in Hrect. destruct Hrect as [_ H].
    apply (forallb_nth _ _ y []) in H; [|lia]. apply Nat.eqb_eq, H. }
  rewrite pixel_stack3 by lia. reflexivity.
Qed.

(** A run that returns has selected a mask and got an answer from the
    pipeline, called with the generator seeded with 0. *)
Lemma run_downstream_inv (g g' : Rng) (img out : image) (text index prompt : string) :
  run_downstream g img text index prompt = Ok (out, g') ->
  exists mask px rgb,
    select_mask text index = Ok mask /\
    cvtColor img = Ok rgb /\
    pipe prompt 20 (manual_seed 0) (control_image mask) = Ok (px, g').
Proof.
  unfold run_downstream. intros H.
  step_bind H. step_bind H. step_bind H.
  destruct a1 as [px g1]. step_bind H. step_bind H. step_bind H.
  injection H as _ <-. eexists _, px, _. repeat split; eassumption.
Qed.

Lemma cvtColor_nonempty (im rgb : image) :
  cvtColor im = Ok rgb -> 0 < height im /\ 0 < width im.
Proof.
  unfold cvtColor, height, width. destruct im as [|[|p r] im]; try discriminate.
  intros _. simpl. split; lia.
Qed.

Lemma wf_image_dims (h w ch : nat) (im : image) :
  wf_image h w ch im -> 0 < height im -> 0 < width im -> 0 < h /\ 0 < w.
Proof.
  intros [Hs _] Hh Hw. unfold height in Hh. rewrite (shapeb_rows _ _ _ _ Hs) in Hh.
  split; [exact Hh|].
  assert (Hsz := Image_size_shape _ _ _ _ Hs Hh).
  unfold Image_size in Hsz. injection Hsz as Hsz _. lia.
Qed.

(** Every returning run on a well-formed image is the closed form. *)
Lemma run_downstream_composite (g g' : Rng) (img out : image)
  (text index prompt : string) (h w : nat) :
  wf_image h w 3 img ->
  run_downstream g img text index prompt = Ok (out, g') ->
  exists mask px,
    select_mask text index = Ok mask /\
    pipe prompt 20 (manual_seed 0) (control_image mask) = Ok (px, g') /\
    0 < h /\ 0 < w /\
    out = composite h w img (masked_patch mask px (w, h)).
Proof.
  intros Hwf Hrun.
  destruct (run_downstream_inv _ _ _ _ _ _ _ Hrun) as [mask [px [rgb [Hsel [Hcvt Hp]]]]].
  destruct (cvtColor_nonempty _ _ Hcvt) as [Hh0 Hw0].
  destruct (wf_image_dims _ _ _ _ Hwf Hh0 Hw0) as [Hh Hw].
  exists mask, px. repeat split; try assumption.
  pose proof (run_downstream_ok g g' img text index prompt h w mask px
                Hsel (proj1 Hwf) Hh Hw Hp) as Hok.
  rewrite Hok in Hrun. injection Hrun as <-. reflexivity.
Qed.

Lemma bytesb_pixel (h w ch : nat) (im : image) (y x c : nat) :
  wf_image h w ch im -> y < h -> x < w -> c < ch ->
  (0 <= pixel im y x c < 256)%Z.
Proof.
  intros [Hs Hb] Hy Hx Hc. unfold bytesb in Hb. unfold pixel.
  apply (forallb_nth _ _ y []) in Hb; [|rewrite (shapeb_rows _ _ _ _ Hs); exact Hy].
  apply (forallb_nth _ _ x []) in Hb; [|rewrite (shapeb_cols _ _ _ _ _ Hs Hy); exact Hx].
  apply (forallb_nth _ _ c 0%Z) in Hb;
    [|rewrite (shapeb_chans _ _ _ _ _ _ Hs Hy Hx); exact Hc].
  apply andb_prop in Hb. destruct Hb as [H1 H2].
  apply Z.leb_le in H1. apply Z.ltb_lt in H2. lia.
Qed.

(** ** Stage B: the composite *)

Lemma add_u8_zero (o : Z) : (0 <= o < 256)%Z -> add_u8 o 0 = o.
Proof.
  intros H. unfold add_u8. rewrite Z.add_0_r. apply Z.mod_small. exact H.
Qed.

(** C10.  Every pixel of the array a run of Stage B returns is the 8-bit
    sum of the input pixel and the pixel of the masked, resized generated
    patch at that place (the patch's channels in reverse order): the sum
    modulo 256.  So it is the sum less 256 when the sum of two bytes
    passes 255, and it is the input pixel where the patch is 0. *)
Theorem composite_is_wrapping_sum (g g' : Rng) (img out : image)
  (text index prompt : string) (h w : nat) :
  wf_image h w 3 img ->
  run_downstream g img text index prompt = Ok (out, g') ->
  exists mask px,
    select_mask text index = Ok mask /\
    pipe prompt 20 (manual_seed 0) (control_image mask) = Ok (px, g') /\
    forall y x c, y < h -> x < w -> c < 3 ->
      let o := pixel img y x c in
      let p := pixel (masked_patch mask px (w, h)) y x (2 - c) in
      pixel out y x c = ((o + p) mod 256)%Z /\
      ((0 <= p < 256)%Z -> (255 < o + p)%Z -> pixel out y x c = (o + p - 256)%Z) /\
      (p = 0%Z -> pixel out y x c = o).
Proof.
  intros Hwf Hrun.
  destruct (run_downstream_composite _ _ _ _ _ _ _ _ _ Hwf Hrun)
    as [mask [px [Hsel [Hp [Hh [Hw ->]]]]]].
  exists mask, px. split; [exact Hsel|]. split; [exact Hp|].
  intros y x c Hy Hx Hc o p.
  assert (Ho : (0 <= o < 256)%Z) by (apply (bytesb_pixel h w 3); assumption).
  assert (Hout : pixel (composite h w img (masked_patch mask px (w, h))) y x c
                 = ((o + p) mod 256)%Z).
  { unfold composite. rewrite pixel_tabulate by assumption. reflexivity. }
  split; [exact Hout|]. split.
  - intros Hpb Hsum. rewrite Hout.
    rewrite <- (Z.mod_small (o + p - 256) 256) by lia.
    replace (o + p - 256)%Z with (o + p + (-1) * 256)%Z by lia.
    rewrite Z.mod_add by lia. reflexivity.
  - intros Hp0. rewrite Hout, Hp0, Z.add_0_r. apply Z.mod_small. exact Ho.
Qed.

(** C1, as amended.  On an image of the working size 512 x 512 both
    resizing steps return their argument, and every pixel of the returned
    composite that lies outside the selected mask is the input pixel. *)
Theorem outside_mask_unchanged_at_working_size (g g' : Rng) (img out : image)
  (text index prompt : string) (mask : list (list Z)) :
  wf_image 512 512 3 img ->
  select_mask text index = Ok mask ->
  rectb 512 512 mask = true ->
  run_downstream g img text index prompt = Ok (out, g') ->
  forall y x c, y < 512 -> x < 512 -> c < 3 ->
    mask_at mask y x = 0%Z ->
    pixel out y x c = pixel img y x c.
Proof.
  intros Hwf Hsel Hrect Hrun y x c Hy Hx Hc Hout.
  destruct (run_downstream_composite _ _ _ _ _ _ _ _ _ Hwf Hrun)
    as [mask' [px [Hsel' [_ [_ [_ ->]]]]]].
  rewrite Hsel in Hsel'. injection Hsel' as <-.
  pose proof (shapeb_stack3 _ _ _ Hrect) as Hst.
  assert (Hctl : control_image mask = stack3 mask).
  { unfold control_image. apply (Image_resize_same 512 512 3); [exact Hst | lia]. }
  unfold composite. rewrite pixel_tabulate by assumption.
  unfold masked_patch.
  rewrite (Image_resize_same 512 512 3) by (try apply shapeb_tabulate; lia).
  rewrite pixel_tabulate by (try assumption; lia).
  rewrite Hctl.
  assert (Hrows : List.length mask = 512).
  { unfold rectb in Hrect. apply andb_prop in Hrect. apply Nat.eqb_eq, Hrect. }
  assert (Hcols : List.length (nth y mask []) = 512).
  { unfold rectb in Hrect. apply andb_prop in Hrect. destruct Hrect as [_ H].
    apply (forallb_nth _ _ y []) in H; [|lia]. apply Nat.eqb_eq, H. }
  rewrite pixel_stack3 by lia.
  rewrite Hout. unfold mul_u8. rewrite Z.mul_0_r, Z.mod_0_l by lia.
  apply add_u8_zero. apply (bytesb_pixel 512 512 3); assumption.
Qed.

(** C5, as amended.  Stage B seeds the generator itself, with the
    constant 0, before it calls the pipeline: a run that returns from one
    generator state returns the same image from any other state, and
    from the state it has left behind (a second run in a row). *)
Theorem stage_b_reseeds_with_zero (g1 g2 s1 : Rng) (img out : image)
  (text index prompt : string) :
  run_downstream g1 img text index prompt = Ok (out, s1) ->
  run_downstream g2 img text index prompt = Ok (out, s1) /\
  run_downstream s1 img text index prompt = Ok (out, s1) /\
  exists mask px,
    select_mask text index = Ok mask /\
    pipe prompt 20 (manual_seed 0) (control_image mask) = Ok (px, s1).
Proof.
  intros Hrun. split; [exact Hrun|]. split; [exact Hrun|].
  destruct (run_downstream_inv _ _ _ _ _ _ _ Hrun) as [mask [px [_ [Hsel [_ Hp]]]]].
  exists mask, px. split; assumption.
Qed.

(** ** The form: which image Stage B starts from *)

Lemma run_downstream_shape (g g' : Rng) (img out : image)
  (text index prompt : string) (h w : nat) :
  wf_image h w 3 img ->
  run_downstream g img text index prompt = Ok (out, g') ->
  wf_image h w 3 out.
Proof.
  intros Hwf Hrun.
  destruct (run_downstream_composite _ _ _ _ _ _ _ _ _ Hwf Hrun)
    as [mask [px [_ [_ [_ [_ ->]]]]]].
  unfold composite. split; [apply shapeb_tabulate|].
  unfold bytesb, tabulate.
  apply forallb_table. intros y _. apply forallb_table. intros x _.
  apply forallb_table. intros c _. unfold add_u8.
  pose proof (Z.mod_pos_bound (pixel img y x c
                + pixel (masked_patch mask px (w, h)) y x (2 - c)) 256) as Hb.
  apply andb_true_intro. split; [apply Z.leb_le | apply Z.ltb_lt]; lia.
Qed.

(** C8.  After the detection button, the inpainting button composites
    onto the image of the input component, which the detection handler has
    left as it was; the preview sits in the output component, which the
    inpainting handler does not read.  The composite it shows has the
    shape of the input image. *)
Theorem stage_b_base_is_input_image (rng : NpRng) (g g' : Rng) (st st1 st2 : ui)
  (index text : string) (h w : nat) :
  wf_image h w 3 (input_image st) ->
  mmocr_sam_click rng st = Ok st1 ->
  downstream_click g (with_request st1 index text) = Ok (st2, g') ->
  input_image st1 = input_image st /\
  (exists preview, output_image st1 = Some preview) /\
  (exists out,
     output_image st2 = Some out /\
     run_downstream g (input_image st) (mask_results st1) index text = Ok (out, g') /\
     wf_image h w 3 out) /\
  (forall o,
     downstream_click g
       {| input_image := input_image st1; sam_results := sam_results st1;
          mask_results := mask_results st1; text_index := index;
          prompt := text; output_image := o |}
     = Ok ({| input_image := input_image st1; sam_results := sam_results st1;
              mask_results := mask_results st1; text_index := index;
              prompt := text; output_image := output_image st2 |}, g')).
Proof.
  intros Hwf Ha Hb.
  unfold mmocr_sam_click in Ha. step_bind Ha.
  destruct a as [[preview output_str] outputs]. injection Ha as <-.
  cbn [input_image output_image mask_results sam_results] in *.
  unfold downstream_click in Hb.
  cbn [with_request input_image mask_results text_index prompt sam_results
       output_image] in Hb.
  step_bind Hb. destruct a as [out g1]. injection Hb as <- <-.
  cbn [output_image].
  split; [reflexivity|]. split; [exists preview; reflexivity|]. split.
  - exists out. split; [reflexivity|]. split; [reflexivity|].
    apply (run_downstream_shape _ _ _ _ _ _ _ _ _ Hwf E0).
  - intros o. unfold downstream_click.
    cbn [input_image mask_results text_index prompt sam_results output_image].
    rewrite E0. reflexivity.
Qed.

(** ** Stage B: what goes wrong before the pipeline is called *)

Lemma mapM_error {A B : Type} (f : A -> result B) (l : list A) (e : exn) :
  mapM f l = Raise e -> exists x, In x l /\ f x = Raise e.
Proof.
  induction l as [|a l IH]; simpl; intros H; [discriminate|].
  destruct (f a) eqn:Ea; cbn [bind] in H.
  - destruct (mapM f l) eqn:El; cbn [bind] in H; [discriminate|].
    injection H as <-. destruct (IH eq_refl) as [x [Hx Hfx]].
    exists x. split; [right; exact Hx | exact Hfx].
  - injection H as <-. exists a. split; [left; reflexivity | exact Ea].
Qed.

Lemma py_int_error (text : string) (e : exn) :
  py_int text = Raise e -> e = ValueError.
Proof.
  unfold py_int.
  destruct (match strip text with
            | String "-" t' => option_map Z.opp (nat_of_digits t')
            | String "+" t' => nat_of_digits t'
            | _ => nat_of_digits (strip text)
            end); intros H; [discriminate | injection H as <-; reflexivity].
Qed.

Lemma list_index_error {A : Type} (l : list A) (i : Z) (e : exn) :
  list_index l i = Raise e -> e = IndexError.
Proof.
  unfold list_index.
  destruct ((0 <=? (if (i <? 0)%Z then (i + Z.of_nat (List.length l))%Z else i))%Z
            && ((if (i <? 0)%Z then (i + Z.of_nat (List.length l))%Z else i)
                <? Z.of_nat (List.length l))%Z).
  - destruct (nth_error l _); intros H; [discriminate | injection H as <-; reflexivity].
  - intros H. injection H as <-. reflexivity.
Qed.

Lemma subscript_error (x : pyval F) (k : pykey) (e : exn) :
  subscript x k = Raise e -> lookup_error e = true.
Proof.
  destruct x; simpl; intros H; try (injection H as <-; reflexivity).
  - destruct (key_num k); [|injection H as <-; reflexivity].
    destruct (list_index (chars_of s) z) eqn:E; cbn [bind] in H; [discriminate|].
    injection H as <-. rewrite (list_index_error _ _ _ E). reflexivity.
  - destruct (key_num k); [|injection H as <-; reflexivity].
    rewrite (list_index_error _ _ _ H). reflexivity.
  - destruct (dict_get d k); [discriminate | injection H as <-; reflexivity].
Qed.

Lemma cell01_error (v : pyval F) (e : exn) :
  cell01 v = Raise e -> lookup_error e = true.
Proof.
  destruct v; simpl; intros H; try discriminate; injection H as <-; reflexivity.
Qed.

Lemma row01_error (r : pyval F) (e : exn) :
  row01 r = Raise e -> lookup_error e = true.
Proof.
  destruct r; simpl; intros H; try (injection H as <-; reflexivity).
  destruct (mapM_error _ _ _ H) as [v [_ Hv]]. exact (cell01_error _ _ Hv).
Qed.

Lemma np_mask_error (m : pyval F) (e : exn) :
  np_mask m = Raise e -> lookup_error e = true.
Proof.
  destruct m; simpl; intros H; try (injection H as <-; reflexivity).
  destruct (mapM row01 l) as [rs|e'] eqn:E; cbn [bind] in H.
  - destruct rs as [|r0 rs]; [injection H as <-; reflexivity|].
    destruct (Nat.ltb 0 (List.length r0) && _); [discriminate|].
    injection H as <-. reflexivity.
  - injection H as <-. destruct (mapM_error _ _ _ E) as [r [_ Hr]].
    exact (row01_error _ _ Hr).
Qed.

Lemma run_downstream_select_error (g : Rng) (img : image)
  (text index prompt : string) (e : exn) :
  select_mask text index = Raise e ->
  run_downstream g img text index prompt = Raise e.
Proof.
  intros H. unfold run_downstream. rewrite H. reflexivity.
Qed.

(** C2, as amended.  Stage B does not turn a failure of the table lookup
    into an error of its own.  What [eval] raises on the text, or what
    [int()], the three subscriptions or the array conversion raise on the
    evaluated value ([KeyError], [IndexError], [TypeError],
    [ValueError]), leaves [run_downstream] unchanged, before any image is
    produced. *)
Theorem lookup_failure_propagates (g : Rng) (img : image)
  (text index prompt : string) (e : exn) :
  select_mask text index = Raise e ->
  run_downstream g img text index prompt = Raise e /\
  (py_eval text = Raise e \/ lookup_error e = true).
Proof.
  intros H. split; [apply run_downstream_select_error, H|].
  unfold select_mask in H.
  destruct (py_eval text) as [table|e0]; cbn [bind] in H;
    [|left; injection H as <-; reflexivity].
  right.
  destruct (py_int index) as [i|e1] eqn:Ei; cbn [bind] in H.
  2:{ injection H as <-. rewrite (py_int_error _ _ Ei). reflexivity. }
  destruct (subscript table (KInt i)) as [entry|e2] eqn:E1; cbn [bind] in H.
  2:{ injection H as <-. exact (subscript_error _ _ _ E1). }
  destruct (subscript entry (KStr "mask")) as [m|e3] eqn:E2; cbn [bind] in H.
  2:{ injection H as <-. exact (subscript_error _ _ _ E2). }
  destruct (subscript m (KInt 0)) as [m0|e4] eqn:E3; cbn [bind] in H.
  2:{ injection H as <-. exact (subscript_error _ _ _ E3). }
  exact (np_mask_error _ _ H).
Qed.

(** C3, as amended.  When the text evaluates to a dict and the index,
    read by [int()], is none of its keys, Stage B raises the built-in
    [KeyError] carrying that index, and returns no image. *)
Theorem missing_index_raises_KeyError (g : Rng) (img : image)
  (text index prompt : string) (d : list (pykey * pyval F)) (k : Z) :
  py_eval text = Ok (PyDict d) ->
  py_int index = Ok k ->
  dict_get d (KInt k) = None ->
  run_downstream g img text index prompt = Raise (KeyError (KInt k)).
Proof.
  intros He Hi Hd. apply run_downstream_select_error.
  unfold select_mask. rewrite He, Hi. cbn [bind]. simpl. rewrite Hd. reflexivity.
Qed.

(** ** Stage A: the loop *)

Lemma string_app_assoc (a b c : string) :
  ((a ++ b) ++ c = a ++ (b ++ c))%string.
Proof.
  induction a as [|x a IH]; simpl; [reflexivity | rewrite IH; reflexivity].
Qed.

Lemma string_app_nil_r (a : string) : (a ++ EmptyString)%string = a.
Proof.
  induction a as [|x a IH]; simpl; [reflexivity | rewrite IH; reflexivity].
Qed.

Lemma dict_get_keys_below (idx : nat) (d : list (pykey * pyval F)) :
  keys_below idx d -> dict_get d (KInt (Z.of_nat idx)) = None.
Proof.
  induction d as [|[k v] d IH]; intros H; simpl; [reflexivity|].
  inversion H as [|? ? [j [Hk Hj]] Hd]; subst. simpl in Hk. subst k.
  simpl. replace (Z.of_nat j =? Z.of_nat idx)%Z with false
    by (symmetry; apply Z.eqb_neq; lia).
  apply IH, Hd.
Qed.

Lemma dict_set_fresh {V : Type} (d : list (pykey * V)) (k : pykey) (v : V) :
  dict_get d k = None -> dict_set d k v = d ++ [(k, v)].
Proof.
  induction d as [|[k' v'] d IH]; simpl; [reflexivity|].
  destruct (key_eqb k' k); [discriminate|]. intros H. rewrite (IH H). reflexivity.
Qed.

Lemma keys_below_snoc (idx : nat) (d : list (pykey * pyval F)) (v : pyval F) :
  keys_below idx d -> keys_below (S idx) (d ++ [(KInt (Z.of_nat idx), v)]).
Proof.
  intros H. unfold keys_below. apply Forall_app. split.
  - eapply Forall_impl; [|exact H]. intros kv [j [Hk Hj]]. exists j. split; [exact Hk | lia].
  - constructor; [|constructor]. exists idx. split; [reflexivity | lia].
Qed.

(** The loop adds one row per item under the next index, and one line. *)
Lemma loop_spec (items : list loop_item) (idx : nat) (fig fig' : figure)
  (s s' : string) (d d' : list (pykey * pyval F)) (rng rng' : NpRng) :
  keys_below idx d ->
  loop idx items (fig, s, d, rng) = Ok (fig', s', d', rng') ->
  exists rows,
    table_rows idx items = Ok rows /\
    d' = d ++ rows /\
    s' = (s ++ summary_from idx (map (fun it => snd (fst (fst it))) items))%string.
Proof.
  revert idx fig s d rng. induction items as [|item items IH];
    intros idx fig s d rng Hk H; simpl in H.
  - injection H as <- <- <- <-. exists []. simpl.
    rewrite app_nil_r, string_app_nil_r. repeat split; reflexivity.
  - destruct item as [[[mask text] polygon] [[[x1 y1] x2] y2]].
    unfold loop_body in H.
    destruct (np_random3 rng) as [color rng1].
    destruct (reshape_pairs polygon) as [pts|] eqn:Er; cbn [bind] in H; [|discriminate].
    rewrite (dict_set_fresh _ _ _ (dict_get_keys_below _ _ Hk)) in H.
    apply IH in H; [|apply keys_below_snoc, Hk].
    destruct H as [rows [Hrows [-> ->]]].
    exists ((KInt (Z.of_nat idx), table_entry mask (close_polygon pts)) :: rows).
    simpl. rewrite Er, Hrows. cbn [bind].
    rewrite <- app_assoc, string_app_assoc. repeat split; reflexivity.
Qed.

Lemma table_rows_keys (items : list loop_item) (idx : nat)
  (rows : list (pykey * pyval F)) :
  table_rows idx items = Ok rows ->
  map fst rows = map (fun i => KInt (Z.of_nat i)) (seq idx (List.length items)).
Proof.
  revert idx rows. induction items as [|[[[mask text] polygon] bbox] items IH];
    intros idx rows H; simpl in H.
  - injection H as <-. reflexivity.
  - step_bind H. step_bind H. injection H as <-. simpl. f_equal. apply IH, E0.
Qed.

Lemma table_rows_nth (items : list loop_item) (idx j : nat)
  (rows : list (pykey * pyval F)) (mask : sam_mask) (text : string)
  (polygon : list F) (bbox : box F) :
  table_rows idx items = Ok rows ->
  nth_error items j = Some (mask, text, polygon, bbox) ->
  exists pts,
    reshape_pairs polygon = Ok pts /\
    nth_error rows j
    = Some (KInt (Z.of_nat (idx + j)), table_entry mask (close_polygon pts)).
Proof.
  revert idx j rows. induction items as [|[[[m t] p] b] items IH];
    intros idx j rows H Hj; simpl in H.
  - destruct j; discriminate.
  - step_bind H. step_bind H. injection H as <-. destruct j as [|j]; simpl in Hj.
    + injection Hj as -> -> -> ->. exists a. rewrite Nat.add_0_r. split; [exact E | reflexivity].
    + destruct (IH _ _ _ E0 Hj) as [pts [Hp Hn]]. exists pts. split; [exact Hp|].
      simpl. rewrite Hn. do 4 f_equal. lia.
Qed.

(** In a dict whose keys are the indices from 0 in order, the entry under
    index [j] is the row at position [j]. *)
Lemma dict_get_indexed (rows : list (pykey * pyval F)) (base j : nat) (v : pyval F) :
  map fst rows = map (fun i => KInt (Z.of_nat i)) (seq base (List.length rows)) ->
  nth_error rows j = Some (KInt (Z.of_nat (base + j)), v) ->
  dict_get rows (KInt (Z.of_nat (base + j))) = Some v.
Proof.
  revert base j. induction rows as [|[k v'] rows IH]; intros base j Hk Hj.
  - destruct j; discriminate.
  - simpl in Hk. injection Hk as -> Hk. destruct j as [|j]; simpl in Hj.
    + injection Hj as _ ->. simpl. rewrite Nat.add_0_r, Z.eqb_refl. reflexivity.
    + simpl. replace (Z.of_nat base =? Z.of_nat (base + S j))%Z with false
        by (symmetry; apply Z.eqb_neq; lia).
      replace (base + S j) with (S base + j) in * by lia.
      apply IH; assumption.
Qed.

Lemma concat_cons_empty (x : string) (l : list string) :
  String.concat EmptyString (x :: l) = (x ++ String.concat EmptyString l)%string.
Proof.
  destruct l; simpl; [symmetry; apply string_app_nil_r | reflexivity].
Qed.

Lemma summary_from_concat (texts : list string) (idx : nat) :
  summary_from idx texts
  = String.concat EmptyString
      (map (fun i => summary_line (idx + i) (nth i texts EmptyString))
         (seq 0 (List.length texts))).
Proof.
  revert idx. induction texts as [|t texts IH]; intros idx; [reflexivity|].
  cbn [summary_from List.length seq map nth].
  rewrite concat_cons_empty, Nat.add_0_r, map_seq_shift, IH.
  do 2 f_equal. apply map_ext. intros i. f_equal. lia.
Qed.

(** ** Stage A: the run *)

Lemma combine_nth_error {A B : Type} (a : list A) (b : list B) (j : nat)
  (x : A) (y : B) :
  nth_error a j = Some x -> nth_error b j = Some y ->
  nth_error (combine a b) j = Some (x, y).
Proof.
  revert b j. induction a as [|a0 a IH]; intros [|b0 b] [|j] Ha Hb;
    simpl in *; try discriminate.
  - injection Ha as ->. injection Hb as ->. reflexivity.
  - apply IH; assumption.
Qed.

Lemma map_fst_combine_same {A B : Type} (a : list A) (b : list B) :
  List.length a = List.length b -> map fst (combine a b) = a.
Proof.
  revert b. induction a as [|a0 a IH]; intros [|b0 b] H; simpl in *;
    try discriminate; [reflexivity|].
  f_equal. apply IH. lia.
Qed.

Lemma map_snd_combine_same {A B : Type} (a : list A) (b : list B) :
  List.length a = List.length b -> map snd (combine a b) = b.
Proof.
  revert b. induction a as [|a0 a IH]; intros [|b0 b] H; simpl in *;
    try discriminate; [reflexivity|].
  f_equal. apply IH. lia.
Qed.

Lemma zip4_texts (n : nat) (masks : list sam_mask) (texts : list string)
  (polys : list (list F)) (boxes : list (box F)) :
  List.length masks = n -> List.length texts = n ->
  List.length polys = n -> List.length boxes = n ->
  map (fun it : loop_item => snd (fst (fst it))) (zip4 masks texts polys boxes) = texts.
Proof.
  revert n texts polys boxes. unfold zip4.
  induction masks as [|m masks IH]; intros n [|t texts] [|p polys] [|b boxes];
    simpl; intros Hm Ht Hp Hb; try reflexivity; try lia.
  f_equal. apply (IH (Nat.pred n)); lia.
Qed.

Lemma zip4_length (n : nat) (masks : list sam_mask) (texts : list string)
  (polys : list (list F)) (boxes : list (box F)) :
  List.length masks = n -> List.length texts = n ->
  List.length polys = n -> List.length boxes = n ->
  List.length (zip4 masks texts polys boxes) = n.
Proof.
  revert n texts polys boxes. unfold zip4.
  induction masks as [|m masks IH]; intros n [|t texts] [|p polys] [|b boxes];
    simpl; intros Hm Ht Hp Hb; try lia.
  rewrite (IH (Nat.pred n)) by lia. lia.
Qed.

Lemma mapM_nth_error {A B : Type} (f : A -> result B) (l : list A) (r : list B)
  (j : nat) (x : A) :
  mapM f l = Ok r -> nth_error l j = Some x ->
  exists y, nth_error r j = Some y /\ f x = Ok y.
Proof.
  revert r j. induction l as [|a l IH]; intros r j H Hj; simpl in H.
  - destruct j; discriminate.
  - step_bind H. step_bind H. injection H as <-. destruct j as [|j]; simpl in Hj.
    + injection Hj as ->. exists a0. split; [reflexivity | exact E].
    + apply (IH _ _ eq_refl Hj).
Qed.

(** A run of Stage A that returns has gone through the spotter, the box
    conversion, the predictor, the loop and the canvas. *)
Lemma run_mmocr_sam_inv (rng : NpRng) (img preview : image) (s : string)
  (outputs : pyval F) :
  run_mmocr_sam rng img = Ok (preview, s, outputs) ->
  exists pred bbs masks rgb fig d rng',
    mmocr_inferencer img = Ok pred /\
    mapM poly2bbox (det_polygons pred) = Ok bbs /\
    predict_torch img (apply_boxes_torch bbs (height img, width img)) = Ok masks /\
    cvtColor img = Ok rgb /\
    loop 0 (zip4 masks (rec_texts pred) (det_polygons pred) bbs)
      ([Imshow rgb], EmptyString, [], rng) = Ok (fig, s, d, rng') /\
    cvtColor (canvas_render fig) = Ok preview /\
    outputs = PyDict d.
Proof.
  unfold run_mmocr_sam. intros H.
  step_bind H. step_bind H. step_bind H. step_bind H. step_bind H.
  destruct a3 as [[[fig s0] d] rng']. step_bind H. injection H as <- <- <-.
  exists a, a0, a1, a2, fig, d, rng'. repeat split; assumption.
Qed.

(** C9.  When the predictor answers with one mask per box and the
    spotter with one text per polygon, the keys of the mask table of a
    returning Stage A run are 0, 1, ..., n-1 in this order (n the number
    of detected regions), and the summary is the lines
    "i:text_i" + newline joined in this order. *)
Theorem table_keys_and_summary (rng : NpRng) (img preview : image) (s : string)
  (outputs : pyval F) (pred : prediction F) (bbs : list (box F))
  (masks : list sam_mask) (n : nat) :
  mmocr_inferencer img = Ok pred ->
  mapM poly2bbox (det_polygons pred) = Ok bbs ->
  predict_torch img (apply_boxes_torch bbs (height img, width img)) = Ok masks ->
  List.length (det_polygons pred) = n ->
  List.length (rec_texts pred) = n ->
  List.length masks = n ->
  run_mmocr_sam rng img = Ok (preview, s, outputs) ->
  exists d,
    outputs = PyDict d /\
    map fst d = map (fun i => KInt (Z.of_nat i)) (seq 0 n) /\
    s = String.concat EmptyString
          (map (fun i => summary_line i (nth i (rec_texts pred) EmptyString)) (seq 0 n)).
Proof.
  intros Hpred Hbbs Hmasks Hn Ht Hm Hrun.
  destruct (run_mmocr_sam_inv _ _ _ _ _ Hrun)
    as [pred' [bbs' [masks' [rgb [fig [d [rng' [H1 [H2 [H3 [_ [Hloop [_ ->]]]]]]]]]]]]].
  rewrite Hpred in H1. injection H1 as <-.
  rewrite Hbbs in H2. injection H2 as <-.
  rewrite Hmasks in H3. injection H3 as <-.
  pose proof (mapM_length _ _ _ Hbbs) as Hb. rewrite Hn in Hb.
  apply loop_spec in Hloop; [|constructor].
  destruct Hloop as [rows [Hrows [-> ->]]]. simpl.
  exists rows. split; [reflexivity|]. split.
  - rewrite (table_rows_keys _ _ _ Hrows).
    rewrite (zip4_length n) by assumption. reflexivity.
  - rewrite (zip4_texts n) by assumption.
    rewrite summary_from_concat, Ht. reflexivity.
Qed.

(** C6, as amended.  When the spotter detects no region and the
    predictor returns on the empty box list, Stage A returns the empty
    table, the empty summary, and as preview the colour-converted canvas
    of a figure on which only the input image has been drawn. *)
Theorem no_regions_empty_table (rng : NpRng) (img rgb preview : image)
  (pred : prediction F) (masks : list sam_mask) :
  mmocr_inferencer img = Ok pred ->
  det_polygons pred = [] ->
  predict_torch img (apply_boxes_torch [] (height img, width img)) = Ok masks ->
  cvtColor img = Ok rgb ->
  cvtColor (canvas_render [Imshow rgb]) = Ok preview ->
  run_mmocr_sam rng img = Ok (preview, EmptyString, PyDict []).
Proof.
  intros Hpred Hnil Hmasks Hrgb Hprev.
  unfold run_mmocr_sam. rewrite Hpred. cbn [bind]. rewrite Hnil.
  cbn [mapM bind]. rewrite Hmasks. cbn [bind]. rewrite Hrgb. cbn [bind].
  unfold zip4. rewrite combine_nil. cbn [combine loop bind].
  rewrite Hprev. reflexivity.
Qed.

(** ** The lexer on printed text *)

Lemma classify_atom (c : ascii) : is_atom_char c = true -> classify c = CAtom.
Proof.
  destruct c as [[] [] [] [] [] [] [] []]; intros H; try reflexivity; discriminate H.
Qed.

Lemma float_char_is_atom (c : ascii) : is_float_char c = true -> is_atom_char c = true.
Proof.
  destruct c as [[] [] [] [] [] [] [] []]; intros H; try reflexivity; discriminate H.
Qed.

Lemma digit_is_float_char (c : ascii) : is_digit c = true -> is_float_char c = true.
Proof.
  unfold is_float_char. intros ->. reflexivity.
Qed.

Lemma repr_char_plain (c : ascii) :
  plain_char c && negb (Ascii.eqb c "'") = true ->
  repr_char "'" c = String c EmptyString.
Proof.
  destruct c as [[] [] [] [] [] [] [] []]; intros H; try reflexivity; discriminate H.
Qed.

Lemma plain_not_quote (c : ascii) :
  plain_char c && negb (Ascii.eqb c "'") = true ->
  Ascii.eqb c "'" = false /\ plain_char c = true.
Proof.
  intros H. apply andb_prop in H. destruct H as [H1 H2].
  split; [apply negb_true_iff, H2 | exact H1].
Qed.

Lemma all_chars_impl (p q : ascii -> bool) (s : string) :
  (forall c, p c = true -> q c = true) ->
  all_chars p s = true -> all_chars q s = true.
Proof.
  intros Hpq. induction s as [|c s IH]; simpl; [reflexivity|].
  intros H. apply andb_prop in H. destruct H as [H1 H2].
  rewrite (Hpq _ H1), (IH H2). reflexivity.
Qed.

Lemma after_str_delimited (rest : string) :
  delimited rest = true -> after_str rest = lex rest.
Proof.
  destruct rest as [|c r]; simpl; [reflexivity|].
  destruct (classify c); intros H; try discriminate H; reflexivity.
Qed.

Lemma in_atom_spec (a rest : string) :
  all_chars is_atom_char a = true -> delimited rest = true ->
  in_atom (a ++ rest) = option_map (pair a) (lex rest).
Proof.
  intros Ha Hr. induction a as [|c a IH]; simpl.
  - destruct rest as [|c r]; simpl; [reflexivity|].
    simpl in Hr. destruct (classify c); try discriminate Hr.
    + reflexivity.
    + destruct (lex r); reflexivity.
  - simpl in Ha. apply andb_prop in Ha. destruct Ha as [Hc Ha].
    rewrite (classify_atom _ Hc), (IH Ha).
    destruct (lex rest); reflexivity.
Qed.

(** A name or number followed by a delimiter is one token. *)
Lemma lex_atom (a rest : string) :
  a <> EmptyString -> all_chars is_atom_char a = true -> delimited rest = true ->
  lex (a ++ rest) = option_map (cons (TAtom a)) (lex rest).
Proof.
  intros Hne Ha Hr. destruct a as [|c a]; [congruence|]. simpl.
  simpl in Ha. apply andb_prop in Ha. destruct Ha as [Hc Ha].
  rewrite (classify_atom _ Hc), (in_atom_spec _ _ Ha Hr).
  destruct (lex rest); reflexivity.
Qed.

Lemma in_str_spec (body rest : string) :
  plain_str body = true -> delimited rest = true ->
  in_str "'" (body ++ String "'" rest) = option_map (pair body) (lex rest).
Proof.
  intros Hb Hr. induction body as [|c body IH]; simpl.
  - rewrite (after_str_delimited _ Hr). reflexivity.
  - unfold plain_str in Hb. simpl in Hb. apply andb_prop in Hb. destruct Hb as [Hc Hb].
    destruct (plain_not_quote _ Hc) as [Hq Hp]. rewrite Hq, Hp, (IH Hb).
    destruct (lex rest); reflexivity.
Qed.

Lemma repr_chars_plain (s : string) :
  plain_str s = true -> repr_chars "'" s = s.
Proof.
  induction s as [|c s IH]; simpl; intros H; [reflexivity|].
  unfold plain_str in H. simpl in H. apply andb_prop in H. destruct H as [Hc H].
  rewrite (repr_char_plain _ Hc), (IH H). reflexivity.
Qed.

Lemma repr_quote_plain (s : string) :
  plain_str s = true -> repr_quote s = "'"%char.
Proof.
  intros H. unfold repr_quote.
  assert (Hc : str_contains "'" s = false).
  { induction s as [|c s IH]; simpl; [reflexivity|].
    unfold plain_str in H. simpl in H. apply andb_prop in H. destruct H as [Hc H].
    destruct (plain_not_quote _ Hc) as [Hq _]. rewrite Hq. apply IH, H. }
  rewrite Hc. reflexivity.
Qed.

Lemma repr_str_plain (s : string) :
  plain_str s = true -> repr_str s = String "'" (s ++ String "'" EmptyString).
Proof.
  intros H. unfold repr_str. cbv zeta.
  rewrite (repr_quote_plain _ H), (repr_chars_plain _ H). reflexivity.
Qed.

(** A plain string in quotes followed by a delimiter is one token. *)
Lemma lex_str (s rest : string) :
  plain_str s = true -> delimited rest = true ->
  lex (repr_str s ++ rest) = option_map (cons (TStr s)) (lex rest).
Proof.
  intros Hs Hr. rewrite (repr_str_plain _ Hs). simpl.
  rewrite string_app_assoc. simpl.
  rewrite (in_str_spec _ _ Hs Hr). destruct (lex rest); reflexivity.
Qed.

(** ** Induction on values *)

Lemma pyval_ind2 (P : pyval F -> Prop) :
  (forall b, P (PyBool b)) ->
  (forall z, P (PyInt z)) ->
  (forall f, P (PyFloat f)) ->
  (forall s, P (PyStr s)) ->
  (forall l, Forall P l -> P (PyList l)) ->
  (forall d, Forall (fun kv => P (snd kv)) d -> P (PyDict d)) ->
  forall v, P v.
Proof.
  intros Hb Hi Hf Hs Hl Hd. fix IH 1. intros [b|z|f|s|l|d].
  - apply Hb.
  - apply Hi.
  - apply Hf.
  - apply Hs.
  - apply Hl. induction l as [|x l IHl]; constructor; [apply IH | exact IHl].
  - apply Hd. induction d as [|[k x] d IHd]; constructor; [apply IH | exact IHd].
Qed.

Lemma lit_ok_list (l : list (pyval F)) : lit_ok (PyList l) <-> Forall lit_ok l.
Proof.
  simpl. induction l as [|x l IH]; split; intros H.
  - constructor.
  - exact I.
  - destruct H as [Hx Hl]. constructor; [exact Hx | apply IH, Hl].
  - inversion H; subst. split; [assumption | apply IH; assumption].
Qed.

Lemma lit_ok_dict (d : list (pykey * pyval F)) :
  lit_ok (PyDict d) <->
  distinct_keys (map fst d) = true /\
  Forall (fun kv => key_ok (fst kv) /\ lit_ok (snd kv)) d.
Proof.
  simpl. split; intros [Hk H]; (split; [exact Hk|]); clear Hk.
  - induction d as [|kv d IH]; [constructor|].
    destruct H as [H1 [H2 H3]]. constructor; [split; assumption | apply IH, H3].
  - induction d as [|kv d IH]; [exact I|].
    inversion H as [|? ? [H1 H2] H3]; subst. repeat split; try assumption.
    apply IH, H3.
Qed.

(** ** Numbers as tokens *)

Lemma uint_digits (d : Decimal.uint) :
  all_chars is_digit (NilEmpty.string_of_uint d) = true.
Proof.
  induction d; simpl; try reflexivity; exact IHd.
Qed.

Lemma uint_string_digits (d : Decimal.uint) :
  all_chars is_digit (NilZero.string_of_uint d) = true /\
  NilZero.string_of_uint d <> EmptyString.
Proof.
  destruct d; simpl; split; try reflexivity; try discriminate; apply uint_digits.
Qed.

Lemma str_Z_chars (z : Z) :
  all_chars is_float_char (str_Z z) = true /\ str_Z z <> EmptyString.
Proof.
  unfold str_Z. destruct z as [|p|p]; simpl Z.to_int; unfold NilZero.string_of_int.
  - split; [reflexivity | discriminate].
  - destruct (uint_string_digits (Pos.to_uint p)) as [H1 H2].
    split; [|exact H2].
    apply (all_chars_impl is_digit); [apply digit_is_float_char | exact H1].
  - destruct (uint_string_digits (Pos.to_uint p)) as [H1 H2].
    split; [|discriminate]. simpl.
    apply (all_chars_impl is_digit); [apply digit_is_float_char | exact H1].
Qed.

Lemma int_of_atom_str_Z (z : Z) : int_of_atom (str_Z z) = Some z.
Proof.
  unfold int_of_atom, str_Z.
  rewrite NilZero.isi.
  - rewrite DecimalZ.of_to, String.eqb_refl. reflexivity.
  - destruct z; simpl; try discriminate.
    intros H. injection H as H. exact (DecimalPos.Unsigned.to_uint_nonnil _ H).
  - destruct z; simpl; try discriminate.
    intros H. injection H as H. exact (DecimalPos.Unsigned.to_uint_nonnil _ H).
Qed.

Lemma float_chars_not_bool (a : string) :
  all_chars is_float_char a = true ->
  String.eqb a "True" = false /\ String.eqb a "False" = false.
Proof.
  destruct a as [|c a]; [split; reflexivity|]. simpl. intros H.
  apply andb_prop in H. destruct H as [Hc _].
  split.
  - destruct (Ascii.eqb_spec c "T"); [subst c; discriminate Hc | reflexivity].
  - destruct (Ascii.eqb_spec c "F"); [subst c; discriminate Hc | reflexivity].
Qed.

Lemma atom_val_int (z : Z) : atom_val (str_Z z) = Some (PyInt z).
Proof.
  unfold atom_val. destruct (float_chars_not_bool _ (proj1 (str_Z_chars z))) as [-> ->].
  rewrite int_of_atom_str_Z. reflexivity.
Qed.

Lemma float_shaped_chars (a : string) :
  float_shaped a = true -> all_chars is_float_char a = true /\ a <> EmptyString.
Proof.
  destruct a as [|c a]; [discriminate|]. unfold float_shaped. intros H.
  apply andb_prop in H. destruct H as [_ H]. split; [exact H | discriminate].
Qed.

Lemma atom_val_float (f : F) :
  float_lit_ok f -> atom_val (float_repr f) = Some (PyFloat f).
Proof.
  intros [Hs [Hi Hf]]. unfold atom_val.
  destruct (float_chars_not_bool _ (proj1 (float_shaped_chars _ Hs))) as [-> ->].
  rewrite Hi, Hs, Hf. reflexivity.
Qed.

(** ** Printed values as tokens *)

Lemma lexes_as_atom (a : string) :
  all_chars is_float_char a = true -> a <> EmptyString -> lexes_as a [TAtom a].
Proof.
  intros Ha Hne rest Hr.
  rewrite (lex_atom a rest Hne); [|apply (all_chars_impl is_float_char);
    [apply float_char_is_atom | exact Ha] | exact Hr].
  destruct (lex rest); reflexivity.
Qed.

Lemma lexes_as_bool (b : bool) :
  lexes_as (if b then "True" else "False") [TAtom (if b then "True" else "False")].
Proof.
  intros rest Hr. destruct b.
  - rewrite (lex_atom "True" rest); [destruct (lex rest); reflexivity | discriminate
      | reflexivity | exact Hr].
  - rewrite (lex_atom "False" rest); [destruct (lex rest); reflexivity | discriminate
      | reflexivity | exact Hr].
Qed.

Lemma lexes_as_str (s : string) : plain_str s = true -> lexes_as (repr_str s) [TStr s].
Proof.
  intros Hs rest Hr. rewrite (lex_str _ _ Hs Hr). destruct (lex rest); reflexivity.
Qed.

Lemma lexes_as_key (k : pykey) : key_ok k -> lexes_as (repr_key k) [key_tok k].
Proof.
  destruct k as [[]|z|s]; simpl; intros Hk.
  - apply (lexes_as_bool true).
  - apply (lexes_as_bool false).
  - destruct (str_Z_chars z). apply lexes_as_atom; assumption.
  - apply lexes_as_str, Hk.
Qed.

Lemma lexes_as_join (parts : list (string * list token)) :
  Forall (fun p => lexes_as (fst p) (snd p)) parts ->
  lexes_as (join ", " (map fst parts)) (sep_toks (map snd parts)).
Proof.
  induction parts as [|[p tp] parts IH]; intros H rest Hr.
  - simpl. destruct (lex rest); reflexivity.
  - inversion H as [|? ? Hp Hps]; subst. simpl in Hp.
    destruct parts as [|q parts].
    + simpl. apply Hp, Hr.
    + specialize (IH Hps).
      change (join ", " (map fst ((p, tp) :: q :: parts)))
        with (p ++ ", " ++ join ", " (map fst (q :: parts)))%string.
      change (sep_toks (map snd ((p, tp) :: q :: parts)))
        with (tp ++ TComma :: sep_toks (map snd (q :: parts))).
      rewrite string_app_assoc, Hp by reflexivity.
      rewrite string_app_assoc.
      change (lex (", " ++ join ", " (map fst (q :: parts)) ++ rest))
        with (option_map (cons TComma)
                (lex (join ", " (map fst (q :: parts)) ++ rest))).
      rewrite (IH rest Hr). destruct (lex rest); simpl; [|reflexivity].
      rewrite <- app_assoc. reflexivity.
Qed.

(** What [repr] prints for a value of the fragment is lexed as its
    tokens. *)
Lemma lexes_as_repr (v : pyval F) : lit_ok v -> lexes_as (py_repr v) (toks v).
Proof.
  induction v as [b|z|f|s|l IH|d IH] using pyval_ind2; intros Hok.
  - destruct b; [apply (lexes_as_bool true) | apply (lexes_as_bool false)].
  - destruct (str_Z_chars z). apply lexes_as_atom; assumption.
  - destruct Hok as [Hs _]. destruct (float_shaped_chars _ Hs).
    apply lexes_as_atom; assumption.
  - apply lexes_as_str, Hok.
  - apply lit_ok_list in Hok.
    assert (Hparts : Forall (fun p => lexes_as (fst p) (snd p))
                       (map (fun x => (py_repr x, toks x)) l)).
    { apply Forall_map. rewrite Forall_forall in *. intros x Hx. cbn [fst snd].
      apply IH; [exact Hx | apply Hok, Hx]. }
    apply lexes_as_join in Hparts. rewrite !map_map in Hparts. cbn [fst snd] in Hparts.
    intros rest Hr.
    change (py_repr (PyList l)) with ("[" ++ join ", " (map py_repr l) ++ "]")%string.
    change (toks (PyList l)) with (TLBrack :: sep_toks (map toks l) ++ [TRBrack]).
    change (lex (("[" ++ join ", " (map py_repr l) ++ "]") ++ rest))
      with (option_map (cons TLBrack)
              (lex ((join ", " (map py_repr l) ++ "]") ++ rest))).
    rewrite string_app_assoc, Hparts by reflexivity.
    change (lex ("]" ++ rest)) with (option_map (cons TRBrack) (lex rest)).
    destruct (lex rest); simpl; [|reflexivity].
    rewrite <- app_assoc. reflexivity.
  - apply lit_ok_dict in Hok. destruct Hok as [_ Hok].
    assert (Hparts : Forall (fun p => lexes_as (fst p) (snd p))
                       (map (fun kv => ((repr_key (fst kv) ++ ": " ++ py_repr (snd kv))%string,
                                        key_tok (fst kv) :: TColon :: toks (snd kv))) d)).
    { apply Forall_map. rewrite Forall_forall in *. intros kv Hkv. cbn [fst snd].
      destruct (Hok _ Hkv) as [Hk Hv]. intros rest Hr.
      rewrite string_app_assoc, (lexes_as_key _ Hk) by reflexivity.
      rewrite string_app_assoc.
      change (lex (": " ++ py_repr (snd kv) ++ rest))
        with (option_map (cons TColon) (lex (py_repr (snd kv) ++ rest))).
      rewrite (IH _ Hkv Hv rest Hr). destruct (lex rest); reflexivity. }
    apply lexes_as_join in Hparts. rewrite !map_map in Hparts. cbn [fst snd] in Hparts.
    intros rest Hr.
    change (py_repr (PyDict d))
      with ("{" ++ join ", " (map (fun kv => (repr_key (fst kv) ++ ": " ++ py_repr (snd kv))%string) d)
            ++ "}")%string.
    change (toks (PyDict d))
      with (TLBrace
            :: sep_toks (map (fun kv => key_tok (fst kv) :: TColon :: toks (snd kv)) d)
            ++ [TRBrace]).
    match goal with
    | |- lex (("{" ++ ?J ++ "}") ++ rest) = _ =>
        change (lex (("{" ++ J ++ "}") ++ rest))
          with (option_map (cons TLBrace) (lex ((J ++ "}") ++ rest)))
    end.
    rewrite string_app_assoc, Hparts by reflexivity.
    change (lex ("}" ++ rest)) with (option_map (cons TRBrace) (lex rest)).
    destruct (lex rest); simpl; [|reflexivity].
    rewrite <- app_assoc. reflexivity.
Qed.

(** ** The parser on the tokens of a value *)

Lemma sep_toks_cons (t : list token) (ts : list (list token)) :
  sep_toks (t :: ts) = t ++ flat_map (fun u => TComma :: u) ts.
Proof.
  revert t. induction ts as [|u ts IH]; intros t.
  - simpl. rewrite app_nil_r. reflexivity.
  - change (sep_toks (t :: u :: ts)) with (t ++ TComma :: sep_toks (u :: ts)).
    rewrite IH. reflexivity.
Qed.

Lemma flat_map_map {A B C : Type} (f : A -> B) (g : B -> list C) (l : list A) :
  flat_map g (map f l) = flat_map (fun x => g (f x)) l.
Proof.
  induction l as [|x l IH]; simpl; [reflexivity | rewrite IH; reflexivity].
Qed.

Lemma toks_list_cons (x : pyval F) (l : list (pyval F)) :
  toks (PyList (x :: l)) = TLBrack :: toks x ++ list_tail_toks l.
Proof.
  change (toks (PyList (x :: l)))
    with (TLBrack :: sep_toks (toks x :: map toks l) ++ [TRBrack]).
  rewrite sep_toks_cons, flat_map_map, <- app_assoc. reflexivity.
Qed.

Lemma toks_dict_cons (kv : pykey * pyval F) (d : list (pykey * pyval F)) :
  toks (PyDict (kv :: d)) = TLBrace :: item_toks kv ++ dict_tail_toks d.
Proof.
  change (toks (PyDict (kv :: d)))
    with (TLBrace :: sep_toks (item_toks kv :: map item_toks d) ++ [TRBrace]).
  rewrite sep_toks_cons, flat_map_map, <- app_assoc. reflexivity.
Qed.

Lemma toks_head_open (v : pyval F) (r : list token) : head_open (toks v ++ r).
Proof.
  destruct v as [[]|z|f|s|l|d]; exact I.
Qed.

Lemma item_toks_head_open (kv : pykey * pyval F) (r : list token) :
  head_open (item_toks kv ++ r).
Proof.
  destruct kv as [[[]|z|s] v]; exact I.
Qed.

Lemma parse_val_list_step (n : nat) (r : list token) :
  head_open r ->
  parse_val (S n) (TLBrack :: r)
  = match parse_val n r with
    | Some (v, r1) =>
        match parse_list_tail n r1 with
        | Some (vs, r2) => Some (PyList (v :: vs), r2)
        | None => None
        end
    | None => None
    end.
Proof.
  destruct r as [|[] r]; simpl; intros H; try contradiction; reflexivity.
Qed.

Lemma parse_val_dict_step (n : nat) (r : list token) :
  head_open r ->
  parse_val (S n) (TLBrace :: r)
  = match parse_item n r with
    | Some (kv, r1) =>
        match parse_dict_tail n r1 with
        | Some (kvs, r2) => Some (PyDict (mk_dict (kv :: kvs)), r2)
        | None => None
        end
    | None => None
    end.
Proof.
  destruct r as [|[] r]; simpl; intros H; try contradiction; reflexivity.
Qed.

Lemma parse_key_tok (n : nat) (k : pykey) (r : list token) :
  exists v, parse_val (S n) (key_tok k :: r) = Some (v, r) /\ key_of v = Some k.
Proof.
  destruct k as [[]|z|s].
  - exists (PyBool true). split; reflexivity.
  - exists (PyBool false). split; reflexivity.
  - exists (PyInt z). simpl. rewrite atom_val_int. split; reflexivity.
  - exists (PyStr s). split; reflexivity.
Qed.

Lemma list_tail_toks_cons (y : pyval F) (l : list (pyval F)) (r : list token) :
  list_tail_toks (y :: l) ++ r = TComma :: toks y ++ (list_tail_toks l ++ r) /\
  List.length (list_tail_toks (y :: l))
  = 1 + List.length (toks y) + List.length (list_tail_toks l).
Proof.
  unfold list_tail_toks. split.
  - cbn [flat_map List.app]. rewrite <- !app_assoc. reflexivity.
  - cbn [flat_map List.app List.length]. rewrite !length_app. simpl. lia.
Qed.

Lemma dict_tail_toks_cons (kv : pykey * pyval F) (d : list (pykey * pyval F))
  (r : list token) :
  dict_tail_toks (kv :: d) ++ r = TComma :: item_toks kv ++ (dict_tail_toks d ++ r) /\
  List.length (dict_tail_toks (kv :: d))
  = 1 + List.length (item_toks kv) + List.length (dict_tail_toks d).
Proof.
  unfold dict_tail_toks. split.
  - cbn [flat_map List.app]. rewrite <- !app_assoc. reflexivity.
  - cbn [flat_map List.app List.length]. rewrite !length_app. simpl. lia.
Qed.

Lemma parse_list_tail_toks (l : list (pyval F)) (r : list token) :
  Forall parses_back l ->
  forall m, 2 * List.length (list_tail_toks l) <= m + 1 ->
    parse_list_tail m (list_tail_toks l ++ r) = Some (l, r).
Proof.
  induction l as [|y l IHl]; intros Hl m Hm.
  - destruct m as [|m]; [simpl in Hm; lia|]. reflexivity.
  - inversion Hl as [|? ? Hy Hl2]; subst.
    destruct (list_tail_toks_cons y l r) as [-> Hlen]. rewrite Hlen in Hm.
    destruct m as [|m]; [lia|].
    cbn [parse_list_tail].
    rewrite (Hy m) by lia.
    rewrite (IHl Hl2 m) by lia.
    reflexivity.
Qed.

Lemma parse_item_toks (kv : pykey * pyval F) (m : nat) (rest : list token) :
  parses_back (snd kv) ->
  2 * List.length (item_toks kv) <= m ->
  parse_item m (item_toks kv ++ rest) = Some (kv, rest).
Proof.
  destruct kv as [k x]. unfold item_toks. cbn [fst snd]. intros Hx Hm.
  simpl List.length in Hm.
  destruct m as [|[|m]]; [lia | lia |].
  destruct (parse_key_tok m k (TColon :: toks x ++ rest)) as [kvv [Hp Hk]].
  change ((key_tok k :: TColon :: toks x) ++ rest)
    with (key_tok k :: TColon :: toks x ++ rest).
  change (parse_item (S (S m)) (key_tok k :: TColon :: toks x ++ rest))
    with (match parse_val (S m) (key_tok k :: TColon :: toks x ++ rest) with
          | Some (kv0, TColon :: r0) =>
              match key_of kv0 with
              | Some k0 =>
                  match parse_val (S m) r0 with
                  | Some (v0, r1) => Some ((k0, v0), r1)
                  | None => None
                  end
              | None => None
              end
          | _ => None
          end).
  rewrite Hp, Hk. rewrite (Hx (S m)) by lia. reflexivity.
Qed.

Lemma parse_dict_tail_toks (d : list (pykey * pyval F)) (r : list token) :
  Forall (fun kv => parses_back (snd kv)) d ->
  forall m, 2 * List.length (dict_tail_toks d) <= m + 1 ->
    parse_dict_tail m (dict_tail_toks d ++ r) = Some (d, r).
Proof.
  induction d as [|kv d IHd]; intros Hd m Hm.
  - destruct m as [|m]; [simpl in Hm; lia|]. reflexivity.
  - inversion Hd as [|? ? Hkv Hd2]; subst.
    destruct (dict_tail_toks_cons kv d r) as [-> Hlen]. rewrite Hlen in Hm.
    destruct m as [|m]; [lia|].
    cbn [parse_dict_tail].
    rewrite (parse_item_toks kv m _ Hkv) by lia.
    rewrite (IHd Hd2 m) by lia.
    reflexivity.
Qed.

Lemma dict_get_later_key (acc d : list (pykey * pyval F)) (k : pykey) (x : pyval F) :
  distinct_keys (map fst (acc ++ (k, x) :: d)) = true -> dict_get acc k = None.
Proof.
  induction acc as [|[k' x'] acc IH]; intros Hd; [reflexivity|].
  simpl in Hd. apply andb_prop in Hd. destruct Hd as [Hd1 Hd2].
  simpl. rewrite map_app, forallb_app in Hd1.
  apply andb_prop in Hd1. destruct Hd1 as [_ Hd1]. simpl in Hd1.
  apply andb_prop in Hd1. destruct Hd1 as [Hd1 _].
  apply negb_true_iff in Hd1. rewrite Hd1. apply IH, Hd2.
Qed.

(** A display whose keys are all different evaluates to its items in
    order. *)
Lemma mk_dict_distinct (d : list (pykey * pyval F)) :
  distinct_keys (map fst d) = true -> mk_dict d = d.
Proof.
  unfold mk_dict.
  assert (Hgen : forall items (acc : list (pykey * pyval F)),
            distinct_keys (map fst (acc ++ items)) = true ->
            fold_left (fun d0 kv0 => dict_set d0 (fst kv0) (snd kv0)) items acc
            = acc ++ items).
  { induction items as [|[k x] items IHi]; intros acc Hd.
    - simpl. rewrite app_nil_r. reflexivity.
    - simpl. rewrite (dict_set_fresh _ _ _ (dict_get_later_key _ _ _ _ Hd)).
      rewrite IHi; rewrite <- app_assoc; [reflexivity | exact Hd]. }
  intros H. apply (Hgen d []). exact H.
Qed.

(** A value of the fragment is parsed back from its tokens. *)
Lemma parse_val_toks (v : pyval F) : lit_ok v -> parses_back v.
Proof.
  induction v as [b|z|f|s|l IH|d IH] using pyval_ind2; intros Hok n r Hn.
  - destruct n as [|n]; [destruct b; simpl in Hn; lia|].
    destruct b; reflexivity.
  - destruct n as [|n]; [simpl in Hn; lia|].
    simpl. rewrite atom_val_int. reflexivity.
  - destruct n as [|n]; [simpl in Hn; lia|].
    simpl. rewrite (atom_val_float _ Hok). reflexivity.
  - destruct n as [|n]; [simpl in Hn; lia|]. reflexivity.
  - apply lit_ok_list in Hok.
    assert (Hpb : Forall parses_back l).
    { rewrite Forall_forall in *. intros x Hx. apply IH; [exact Hx | apply Hok, Hx]. }
    clear IH Hok. destruct l as [|x l].
    + destruct n as [|n]; [simpl in Hn; lia|]. reflexivity.
    + rewrite toks_list_cons in *. cbn [List.length] in Hn. rewrite length_app in Hn.
      destruct n as [|n]; [lia|].
      change ((TLBrack :: toks x ++ list_tail_toks l) ++ r)
        with (TLBrack :: (toks x ++ list_tail_toks l) ++ r).
      rewrite <- app_assoc.
      rewrite parse_val_list_step by apply toks_head_open.
      inversion Hpb as [|? ? Hx Hl]; subst.
      rewrite (Hx n) by lia.
      rewrite (parse_list_tail_toks l r Hl) by lia. reflexivity.
  - apply lit_ok_dict in Hok. destruct Hok as [Hkeys Hok].
    assert (Hpb : Forall (fun kv => parses_back (snd kv)) d).
    { rewrite Forall_forall in *. intros kv Hkv.
      apply IH; [exact Hkv | apply Hok, Hkv]. }
    clear IH Hok. destruct d as [|kv d].
    + destruct n as [|n]; [simpl in Hn; lia|]. reflexivity.
    + rewrite toks_dict_cons in *. cbn [List.length] in Hn. rewrite length_app in Hn.
      destruct n as [|n]; [lia|].
      change ((TLBrace :: item_toks kv ++ dict_tail_toks d) ++ r)
        with (TLBrace :: (item_toks kv ++ dict_tail_toks d) ++ r).
      rewrite <- app_assoc.
      rewrite parse_val_dict_step by apply item_toks_head_open.
      inversion Hpb as [|? ? Hkv Hd]; subst.
      rewrite (parse_item_toks kv n _ Hkv) by lia.
      rewrite (parse_dict_tail_toks d r Hd) by lia.
      rewrite (mk_dict_distinct _ Hkeys). reflexivity.
Qed.

(** The text [repr] prints for a value of the fragment evaluates to the
    value. *)
Lemma literal_eval_repr (v : pyval F) :
  lit_ok v -> literal_eval (py_repr v) = Some v.
Proof.
  intros Hok. unfold literal_eval.
  pose proof (lexes_as_repr v Hok EmptyString eq_refl) as Hlex.
  rewrite string_app_nil_r in Hlex. rewrite Hlex. simpl option_map.
  rewrite app_nil_r.
  rewrite <- (app_nil_r (toks v)) at 2.
  rewrite (parse_val_toks v Hok) by lia. reflexivity.
Qed.

(** ** The mask table through the text box *)

Lemma lit_ok_mask_tolist (m : sam_mask) : lit_ok (mask_tolist m).
Proof.
  unfold mask_tolist. apply lit_ok_list, Forall_map, Forall_forall. intros plane _.
  apply lit_ok_list, Forall_map, Forall_forall. intros row _.
  apply lit_ok_list, Forall_map, Forall_forall. intros b _. exact I.
Qed.

Lemma lit_ok_polygon_tolist (pts : list (list F)) :
  Forall (Forall float_lit_ok) pts -> lit_ok (polygon_tolist pts).
Proof.
  intros H. unfold polygon_tolist. apply lit_ok_list, Forall_map.
  eapply Forall_impl; [|exact H]. intros pt Hpt.
  apply lit_ok_list, Forall_map. eapply Forall_impl; [|exact Hpt].
  intros f Hf. exact Hf.
Qed.

Lemma reshape_pairs_Forall (P : F -> Prop) (l : list F) :
  (forall pts, Forall P l -> reshape_pairs l = Ok pts -> Forall (Forall P) pts) /\
  (forall a pts, Forall P (a :: l) -> reshape_pairs (a :: l) = Ok pts ->
     Forall (Forall P) pts).
Proof.
  induction l as [|b l [IH1 IH2]]; split.
  - intros pts _ H. injection H as <-. constructor.
  - intros a pts _ H. discriminate H.
  - exact (IH2 b).
  - intros a pts Hall H. simpl in H.
    destruct (reshape_pairs l) as [ps|] eqn:E; cbn [bind] in H; [|discriminate].
    injection H as <-.
    inversion Hall as [|? ? Ha Hall1]; subst. inversion Hall1 as [|? ? Hb Hall2]; subst.
    constructor; [repeat constructor; assumption | apply IH1; [exact Hall2 | reflexivity]].
Qed.

Lemma close_polygon_Forall (Q : list F -> Prop) (pts : list (list F)) :
  Forall Q pts -> Forall Q (close_polygon pts).
Proof.
  intros H. unfold close_polygon. apply Forall_app. split; [exact H|].
  destruct pts as [|p pts]; simpl; [constructor|].
  inversion H; subst. constructor; [assumption | constructor].
Qed.

Lemma lit_ok_table_entry (m : sam_mask) (polygon : list F) (pts : list (list F)) :
  Forall float_lit_ok polygon ->
  reshape_pairs polygon = Ok pts ->
  lit_ok (table_entry m (close_polygon pts)).
Proof.
  intros Hf Hr. unfold table_entry. apply lit_ok_dict. split; [reflexivity|].
  constructor; [split; [reflexivity | apply lit_ok_mask_tolist]|].
  constructor; [|constructor]. split; [reflexivity|].
  apply lit_ok_polygon_tolist, close_polygon_Forall.
  exact (proj1 (reshape_pairs_Forall float_lit_ok polygon) pts Hf Hr).
Qed.

Lemma table_rows_lit_ok (items : list loop_item) (idx : nat)
  (rows : list (pykey * pyval F)) :
  Forall (fun it : loop_item => Forall float_lit_ok (snd (fst it))) items ->
  table_rows idx items = Ok rows ->
  Forall (fun kv => key_ok (fst kv) /\ lit_ok (snd kv)) rows.
Proof.
  revert idx rows. induction items as [|[[[m t] p] b] items IH];
    intros idx rows Hall H; simpl in H.
  - injection H as <-. constructor.
  - inversion Hall as [|? ? Hp Hall']; subst. cbn [fst snd] in Hp.
    destruct (reshape_pairs p) as [pts|] eqn:Er; cbn [bind] in H; [|discriminate].
    destruct (table_rows (S idx) items) as [rows'|] eqn:Et; cbn [bind] in H;
      [|discriminate].
    injection H as <-. constructor.
    + split; [exact I | exact (lit_ok_table_entry m p pts Hp Er)].
    + exact (IH _ _ Hall' Et).
Qed.

Lemma distinct_index_keys (base n : nat) :
  distinct_keys (map (fun i => KInt (Z.of_nat i)) (seq base n)) = true.
Proof.
  revert base. induction n as [|n IH]; intros base; [reflexivity|].
  simpl. rewrite IH, andb_true_r.
  apply forallb_forall. intros k Hk. apply in_map_iff in Hk.
  destruct Hk as [j [<- Hj]]. apply in_seq in Hj. simpl.
  apply negb_true_iff, Z.eqb_neq. lia.
Qed.

Lemma zip4_polygons (masks : list sam_mask) (texts : list string)
  (polys : list (list F)) (boxes : list (box F)) (P : list F -> Prop) :
  Forall P polys ->
  Forall (fun it : loop_item => P (snd (fst it))) (zip4 masks texts polys boxes).
Proof.
  intros H. apply Forall_forall. intros [[[m t] p] b] Hin. cbn [fst snd].
  unfold zip4 in Hin. apply in_combine_l in Hin. apply in_combine_r in Hin.
  rewrite Forall_forall in H. apply H, Hin.
Qed.

(** C4.  The mask table Stage A returns, shown in the text box (its
    [str]) and evaluated again by Stage B, is the same table: same keys
    in the same order, same masks, same polygons, provided the polygon
    coordinates are floats whose [repr] reads back as the float. *)
Theorem mask_table_round_trip (rng : NpRng) (img preview : image) (s : string)
  (outputs : pyval F) (pred : prediction F) :
  mmocr_inferencer img = Ok pred ->
  Forall (Forall float_lit_ok) (det_polygons pred) ->
  run_mmocr_sam rng img = Ok (preview, s, outputs) ->
  py_eval (Textbox_postprocess outputs) = Ok outputs.
Proof.
  intros Hpred Hfl Hrun.
  destruct (run_mmocr_sam_inv _ _ _ _ _ Hrun)
    as [pred' [bbs [masks [rgb [fig [d [rng' [H1 [_ [_ [_ [Hloop [_ ->]]]]]]]]]]]]].
  rewrite Hpred in H1. injection H1 as <-.
  apply loop_spec in Hloop; [|constructor].
  destruct Hloop as [rows [Hrows [-> _]]]. simpl List.app.
  assert (Hok : lit_ok (PyDict rows)).
  { apply lit_ok_dict. split.
    - rewrite (table_rows_keys _ _ _ Hrows). apply distinct_index_keys.
    - apply (table_rows_lit_ok _ _ _ (zip4_polygons _ _ _ _ _ Hfl) Hrows). }
  unfold Textbox_postprocess, py_str, py_eval.
  rewrite (literal_eval_repr _ Hok). reflexivity.
Qed.

(** ** [int(index)] on decimal text *)

Lemma str_rev_onto_app (s acc : string) :
  str_rev_onto s acc = (str_rev s ++ acc)%string.
Proof.
  unfold str_rev. revert acc. induction s as [|c s IH]; intros acc; [reflexivity|].
  simpl. rewrite (IH (String c acc)), (IH (String c EmptyString)).
  rewrite string_app_assoc. reflexivity.
Qed.

Lemma str_rev_app (a b : string) :
  str_rev (a ++ b) = (str_rev b ++ str_rev a)%string.
Proof.
  unfold str_rev at 1 3. revert b. generalize EmptyString as acc.
  induction a as [|c a IH]; intros acc b; simpl.
  - rewrite str_rev_onto_app. reflexivity.
  - rewrite IH. reflexivity.
Qed.

Lemma str_rev_involutive (s : string) : str_rev (str_rev s) = s.
Proof.
  induction s as [|c s IH]; [reflexivity|].
  change (String c s) with (String c EmptyString ++ s)%string.
  rewrite str_rev_app, str_rev_app, IH. reflexivity.
Qed.

Lemma all_chars_app (p : ascii -> bool) (a b : string) :
  all_chars p (a ++ b) = all_chars p a && all_chars p b.
Proof.
  induction a as [|c a IH]; simpl; [reflexivity|].
  rewrite IH, andb_assoc. reflexivity.
Qed.

Lemma all_chars_rev (p : ascii -> bool) (s : string) :
  all_chars p (str_rev s) = all_chars p s.
Proof.
  induction s as [|c s IH]; [reflexivity|].
  change (String c s) with (String c EmptyString ++ s)%string.
  rewrite str_rev_app, !all_chars_app, IH. apply andb_comm.
Qed.

Lemma lstrip_spaces (ws s : string) :
  all_chars is_space ws = true -> lstrip (ws ++ s) = lstrip s.
Proof.
  induction ws as [|c ws IH]; simpl; [reflexivity|].
  intros H. apply andb_prop in H. destruct H as [-> H]. exact (IH H).
Qed.

Lemma lstrip_no_space (s : string) :
  all_chars (fun c => negb (is_space c)) s = true -> lstrip s = s.
Proof.
  destruct s as [|c s]; simpl; [reflexivity|].
  intros H. apply andb_prop in H. destruct H as [H _].
  apply negb_true_iff in H. rewrite H. reflexivity.
Qed.

(** [strip] removes the whitespace around a text that holds none. *)
Lemma strip_padded (ws1 ws2 s : string) :
  all_chars is_space ws1 = true -> all_chars is_space ws2 = true ->
  all_chars (fun c => negb (is_space c)) s = true ->
  strip (ws1 ++ s ++ ws2) = s.
Proof.
  intros H1 H2 Hs. unfold strip.
  rewrite (lstrip_spaces _ _ H1).
  destruct s as [|c s].
  - simpl. rewrite <- (string_app_nil_r ws2) at 1.
    rewrite (lstrip_spaces _ _ H2). simpl.
    change (str_rev EmptyString) with EmptyString. reflexivity.
  - assert (Hl : lstrip (String c s ++ ws2) = (String c s ++ ws2)%string).
    { simpl in Hs |- *. apply andb_prop in Hs. destruct Hs as [Hc _].
      apply negb_true_iff in Hc. rewrite Hc. reflexivity. }
    rewrite Hl, str_rev_app.
    rewrite lstrip_spaces by (rewrite all_chars_rev; exact H2).
    rewrite lstrip_no_space by (rewrite all_chars_rev; exact Hs).
    apply str_rev_involutive.
Qed.

Lemma digit_no_space (c : ascii) : is_digit c = true -> negb (is_space c) = true.
Proof.
  destruct c as [[] [] [] [] [] [] [] []]; intros H; try reflexivity; discriminate H.
Qed.

Lemma int_digits_all (prev : bool) (s : string) :
  all_chars is_digit s = true -> prev = true \/ s <> EmptyString ->
  int_digits prev s = Some s.
Proof.
  revert prev. induction s as [|c s IH]; intros prev Hd Hne; simpl.
  - destruct Hne as [-> | Hne]; [reflexivity | contradiction].
  - simpl in Hd. apply andb_prop in Hd. destruct Hd as [Hc Hd].
    rewrite Hc, (IH true Hd (or_introl eq_refl)). reflexivity.
Qed.

(** A text that starts with a digit has no sign. *)
Lemma py_int_unsigned (c : ascii) (s : string) :
  is_digit c = true -> strip (String c s) = String c s ->
  py_int (String c s)
  = match nat_of_digits (String c s) with
    | Some z => Ok z
    | None => Raise ValueError
    end.
Proof.
  intros Hc Hs. unfold py_int. rewrite Hs.
  destruct c as [[] [] [] [] [] [] [] []]; try discriminate Hc; reflexivity.
Qed.

Lemma nat_of_digits_uint (d : Decimal.uint) :
  d <> Decimal.Nil ->
  String.length (NilZero.string_of_uint d) <= max_str_digits ->
  nat_of_digits (NilZero.string_of_uint d) = Some (Z.of_uint d).
Proof.
  intros Hd Hlen. destruct (uint_string_digits d) as [H1 H2].
  unfold nat_of_digits. rewrite (int_digits_all false _ H1 (or_intror H2)).
  replace (Nat.ltb max_str_digits (String.length (NilZero.string_of_uint d)))
    with false by (symmetry; apply Nat.ltb_ge; exact Hlen).
  replace (NilZero.string_of_uint d) with (NilEmpty.string_of_uint d)
    by (destruct d; try reflexivity; contradiction).
  rewrite NilEmpty.usu. reflexivity.
Qed.

Lemma py_int_uint (d : Decimal.uint) :
  d <> Decimal.Nil ->
  String.length (NilZero.string_of_uint d) <= max_str_digits ->
  py_int (NilZero.string_of_uint d) = Ok (Z.of_uint d).
Proof.
  intros Hd Hlen. destruct (uint_string_digits d) as [H1 H2].
  destruct (NilZero.string_of_uint d) as [|c s] eqn:E; [contradiction|].
  pose proof H1 as H1'. simpl in H1'. apply andb_prop in H1'. destruct H1' as [Hc _].
  assert (Hs : strip (String c s) = String c s).
  { rewrite <- (strip_padded EmptyString EmptyString (String c s)) at 2;
      [rewrite string_app_nil_r; reflexivity | reflexivity | reflexivity |].
    apply (all_chars_impl is_digit); [apply digit_no_space | exact H1]. }
  rewrite (py_int_unsigned c s Hc Hs), <- E.
  rewrite (nat_of_digits_uint d Hd) by (rewrite E; exact Hlen). reflexivity.
Qed.

(** [int(str(z)) == z], for an integer of at most [max_str_digits]
    digits. *)
Lemma py_int_str_Z (z : Z) :
  String.length (str_Z (Z.abs z)) <= max_str_digits ->
  py_int (str_Z z) = Ok z.
Proof.
  unfold str_Z. destruct z as [|p|p]; simpl Z.abs; simpl Z.to_int;
    unfold NilZero.string_of_int; intros Hlen.
  - reflexivity.
  - rewrite py_int_uint by (try apply DecimalPos.Unsigned.to_uint_nonnil; exact Hlen).
    f_equal. change (Z.of_uint (Pos.to_uint p)) with (Z.of_N (Pos.of_uint (Pos.to_uint p))).
    rewrite DecimalPos.Unsigned.of_to. reflexivity.
  - assert (Hd : Pos.to_uint p <> Decimal.Nil) by apply DecimalPos.Unsigned.to_uint_nonnil.
    destruct (uint_string_digits (Pos.to_uint p)) as [H1 H2].
    assert (Hs : strip (String "-" (NilZero.string_of_uint (Pos.to_uint p)))
                 = String "-" (NilZero.string_of_uint (Pos.to_uint p))).
    { rewrite <- (strip_padded EmptyString EmptyString
                    (String "-" (NilZero.string_of_uint (Pos.to_uint p)))) at 2;
        [rewrite string_app_nil_r; reflexivity | reflexivity | reflexivity |].
      simpl. apply (all_chars_impl is_digit); [apply digit_no_space | exact H1]. }
    unfold py_int. rewrite Hs, (nat_of_digits_uint _ Hd Hlen). simpl. f_equal.
    change (Z.of_uint (Pos.to_uint p)) with (Z.of_N (Pos.of_uint (Pos.to_uint p))).
    rewrite DecimalPos.Unsigned.of_to. reflexivity.
Qed.

(** X9.  [int()] reads the decimal text of an integer of at most 4300
    digits back, with any spaces, tabs or line breaks before and after
    it: the index box may hold " 0 ". *)
Theorem int_accepts_padded_decimal (z : Z) (ws1 ws2 : string) :
  all_chars is_space ws1 = true -> all_chars is_space ws2 = true ->
  String.length (str_Z (Z.abs z)) <= max_str_digits ->
  py_int (ws1 ++ str_Z z ++ ws2) = Ok z.
Proof.
  intros H1 H2 Hlen.
  assert (Hns : all_chars (fun c => negb (is_space c)) (str_Z z) = true).
  { unfold str_Z. destruct z as [|p|p]; simpl Z.to_int; unfold NilZero.string_of_int.
    - reflexivity.
    - apply (all_chars_impl is_digit); [apply digit_no_space|].
      apply uint_string_digits.
    - simpl. apply (all_chars_impl is_digit); [apply digit_no_space|].
      apply uint_string_digits. }
  pose proof (py_int_str_Z z Hlen) as Hz. unfold py_int in Hz |- *.
  rewrite (strip_padded _ _ _ H1 H2 Hns).
  rewrite <- (strip_padded EmptyString EmptyString (str_Z z)) by (try reflexivity; exact Hns).
  rewrite string_app_nil_r. exact Hz.
Qed.

(** ** [int(index)] on text without a digit *)

Lemma all_chars_lstrip (p : ascii -> bool) (s : string) :
  all_chars p s = true -> all_chars p (lstrip s) = true.
Proof.
  induction s as [|c s IH]; simpl; [reflexivity|].
  intros H. destruct (is_space c); [|exact H].
  apply andb_prop in H. exact (IH (proj2 H)).
Qed.

Lemma all_chars_strip (p : ascii -> bool) (s : string) :
  all_chars p s = true -> all_chars p (strip s) = true.
Proof.
  intros H. unfold strip.
  rewrite all_chars_rev. apply all_chars_lstrip.
  rewrite all_chars_rev. apply all_chars_lstrip. exact H.
Qed.

Lemma nat_of_digits_no_digit (s : string) :
  all_chars (fun c => negb (is_digit c)) s = true -> nat_of_digits s = None.
Proof.
  intros H. unfold nat_of_digits. destruct s as [|c s]; [reflexivity|].
  simpl in H |- *. apply andb_prop in H. destruct H as [Hc _].
  apply negb_true_iff in Hc. rewrite Hc, andb_false_r. reflexivity.
Qed.

Lemma py_int_no_digit (s : string) :
  all_chars (fun c => negb (is_digit c)) s = true -> py_int s = Raise ValueError.
Proof.
  intros H. apply all_chars_strip in H. unfold py_int.
  destruct (strip s) as [|c t]; [reflexivity|].
  pose proof (nat_of_digits_no_digit _ H) as Hall.
  simpl in H. apply andb_prop in H. destruct H as [_ Ht].
  pose proof (nat_of_digits_no_digit _ Ht) as Htail.
  destruct c as [[] [] [] [] [] [] [] []];
    first [ rewrite Hall; reflexivity | rewrite Htail; reflexivity ].
Qed.

(** X10.  An index text that holds no digit (the empty box, a word) is
    refused by [int()]: Stage B raises [ValueError], after the table has
    been evaluated; when the table text does not evaluate either, that
    error comes first. *)
Theorem index_without_digit_raises_ValueError (g : Rng) (img : image)
  (text index prompt : string) :
  all_chars (fun c => negb (is_digit c)) index = true ->
  (forall table, py_eval text = Ok table ->
     run_downstream g img text index prompt = Raise ValueError) /\
  (forall e, py_eval text = Raise e ->
     run_downstream g img text index prompt = Raise e).
Proof.
  intros H. split.
  - intros table Ht. apply run_downstream_select_error.
    unfold select_mask. rewrite Ht. cbn [bind].
    rewrite (py_int_no_digit _ H). reflexivity.
  - intros e He. apply run_downstream_select_error.
    unfold select_mask. rewrite He. reflexivity.
Qed.

(** ** The polygons of the table *)

Lemma reshape_pairs_parity_aux (l : list F) :
  ((Nat.even (List.length l) = true ->
    exists pts, reshape_pairs l = Ok pts /\ List.concat pts = l /\
                Forall (fun p => List.length p = 2) pts /\
                2 * List.length pts = List.length l) /\
   (Nat.even (List.length l) = false -> reshape_pairs l = Raise ValueError)) /\
  (forall a,
     (Nat.even (List.length (a :: l)) = true ->
      exists pts, reshape_pairs (a :: l) = Ok pts /\ List.concat pts = a :: l /\
                  Forall (fun p => List.length p = 2) pts /\
                  2 * List.length pts = List.length (a :: l)) /\
     (Nat.even (List.length (a :: l)) = false ->
      reshape_pairs (a :: l) = Raise ValueError)).
Proof.
  induction l as [|b l [[IHe IHo] IH2]].
  - split; [split|intros a; split].
    + intros _. exists []. repeat split; constructor.
    + discriminate.
    + discriminate.
    + reflexivity.
  - split; [exact (IH2 b)|]. intros a. split.
    + intros He. change (Nat.even (List.length l) = true) in He.
      destruct (IHe He) as [pts [Hr [Hc [Hf Hn]]]].
      exists ([a; b] :: pts). simpl. rewrite Hr. cbn [bind].
      repeat split; [rewrite Hc; reflexivity | constructor; [reflexivity | exact Hf] | lia].
    + intros Ho. change (Nat.even (List.length l) = false) in Ho.
      simpl. rewrite (IHo Ho). reflexivity.
Qed.

(** X5.  [reshape(-1, 2)] pairs the coordinates up when their number is
    even (the pairs, laid end to end, are the coordinates again), and is
    a [ValueError] when it is odd; closing a polygon with at least one
    point appends its first point, and leaves the empty one empty. *)
Theorem reshape_pairs_parity (l : list F) :
  (Nat.even (List.length l) = true ->
   exists pts, reshape_pairs l = Ok pts /\ List.concat pts = l /\
               Forall (fun p => List.length p = 2) pts /\
               2 * List.length pts = List.length l /\
               close_polygon pts = pts ++ firstn 1 pts /\
               (forall p rest, pts = p :: rest ->
                  close_polygon pts = pts ++ [p] /\ last (close_polygon pts) [] = p)) /\
  (Nat.even (List.length l) = false -> reshape_pairs l = Raise ValueError) /\
  close_polygon (@nil (list F)) = [].
Proof.
  destruct (reshape_pairs_parity_aux l) as [[He Ho] _].
  split; [|split; [exact Ho | reflexivity]].
  intros H. destruct (He H) as [pts [Hr [Hc [Hf Hn]]]].
  exists pts. repeat split; try assumption.
  - subst pts. reflexivity.
  - subst pts. unfold close_polygon. cbn [firstn]. apply last_last.
Qed.

(** ** The selected mask *)

Lemma mapM_Forall {A B : Type} (f : A -> result B) (P : B -> Prop)
  (l : list A) (r : list B) :
  (forall x y, f x = Ok y -> P y) -> mapM f l = Ok r -> Forall P r.
Proof.
  intros Hf. revert r. induction l as [|a l IH]; intros r H; simpl in H.
  - injection H as <-. constructor.
  - destruct (f a) as [y|] eqn:Ea; cbn [bind] in H; [|discriminate].
    destruct (mapM f l) as [r'|] eqn:El; cbn [bind] in H; [|discriminate].
    injection H as <-. constructor; [exact (Hf _ _ Ea) | exact (IH _ eq_refl)].
Qed.

Lemma cell01_binary (v : pyval F) (z : Z) :
  cell01 v = Ok z -> z = 0%Z \/ z = 1%Z.
Proof.
  destruct v; simpl; intros H; try discriminate; injection H as <-.
  - destruct b; auto.
  - destruct (0 <? z0)%Z; auto.
  - destruct (float_gt_half f); auto.
Qed.

Lemma np_mask_binary (m : pyval F) (mask : list (list Z)) :
  np_mask m = Ok mask -> Forall (Forall (fun v => v = 0%Z \/ v = 1%Z)) mask.
Proof.
  unfold np_mask. destruct m; try discriminate. intros H.
  destruct (mapM row01 l) as [rs|] eqn:E; cbn [bind] in H; [|discriminate].
  destruct rs as [|r0 rs]; [discriminate|].
  destruct (Nat.ltb 0 (List.length r0) && _); [|discriminate].
  injection H as <-.
  apply (mapM_Forall row01 (Forall (fun v => v = 0%Z \/ v = 1%Z)) l (r0 :: rs));
    [|exact E].
  intros r row Hr. destruct r; simpl in Hr; try discriminate.
  exact (mapM_Forall cell01 _ _ _ cell01_binary Hr).
Qed.

(** X6.  Every entry of the mask Stage B selects is 0 or 1, whatever
    scalars the table text held (booleans, integers, floats): the
    threshold of line 136 leaves nothing else. *)
Theorem selected_mask_is_binary (text index : string) (mask : list (list Z)) :
  select_mask text index = Ok mask ->
  Forall (Forall (fun v => v = 0%Z \/ v = 1%Z)) mask /\
  (forall y x, mask_at mask y x = 0%Z \/ mask_at mask y x = 1%Z).
Proof.
  intros H.
  assert (Hb : Forall (Forall (fun v => v = 0%Z \/ v = 1%Z)) mask).
  { unfold select_mask in H.
    destruct (py_eval text); cbn [bind] in H; [|discriminate].
    destruct (py_int index); cbn [bind] in H; [|discriminate].
    destruct (subscript a (KInt a0)); cbn [bind] in H; [|discriminate].
    destruct (subscript a1 (KStr "mask")); cbn [bind] in H; [|discriminate].
    destruct (subscript a2 (KInt 0)); cbn [bind] in H; [|discriminate].
    exact (np_mask_binary _ _ H). }
  split; [exact Hb|].
  intros y x. unfold mask_at.
  destruct (nth_error mask y) as [row|] eqn:Ey.
  - rewrite (nth_error_nth _ _ _ Ey).
    destruct (nth_error row x) as [v|] eqn:Ex.
    + rewrite (nth_error_nth _ _ _ Ex).
      rewrite Forall_forall in Hb. pose proof (Hb _ (nth_error_In _ _ Ey)) as Hrow.
      rewrite Forall_forall in Hrow. exact (Hrow _ (nth_error_In _ _ Ex)).
    + left. apply nth_overflow. apply nth_error_None, Ex.
  - left. rewrite (nth_overflow mask []) by (apply nth_error_None, Ey).
    destruct x; reflexivity.
Qed.

(** X7.  On an image and a mask of the working size, a pixel inside the
    selected mask is not the generated pixel but the sum, modulo 256, of
    the input pixel and the generated pixel (of the opposite channel
    order). *)
Theorem inside_mask_is_wrapping_sum (g g' : Rng) (img out : image)
  (text index prompt : string) (mask : list (list Z)) :
  wf_image 512 512 3 img ->
  select_mask text index = Ok mask ->
  rectb 512 512 mask = true ->
  run_downstream g img text index prompt = Ok (out, g') ->
  exists px,
    pipe prompt 20 (manual_seed 0) (control_image mask) = Ok (px, g') /\
    forall y x c, y < 512 -> x < 512 -> c < 3 ->
      mask_at mask y x = 1%Z ->
      pixel out y x c = ((pixel img y x c + px y x (2 - c)%nat) mod 256)%Z.
Proof.
  intros Hwf Hsel Hrect Hrun.
  destruct (run_downstream_composite _ _ _ _ _ _ _ _ _ Hwf Hrun)
    as [mask' [px [Hsel' [Hpipe [_ [_ ->]]]]]].
  rewrite Hsel in Hsel'. injection Hsel' as <-.
  exists px. split; [exact Hpipe|].
  intros y x c Hy Hx Hc Hin.
  rewrite (working_size_pixel img mask px y x c Hrect Hy Hx Hc), Hin.
  unfold add_u8, mul_u8. rewrite Z.mul_1_r.
  apply Zplus_mod_idemp_r.
Qed.

(** ** The buttons, pressed again *)

(** X8.  Pressing the inpainting button again on the form it has left,
    in whatever state the generator is, shows the same image: Stage B
    composites onto the input image, never onto its own output, and the
    fields Stage A reads are as they were. *)
Theorem stage_b_click_idempotent (g g' : Rng) (st st2 : ui) :
  downstream_click g st = Ok (st2, g') ->
  (forall g2, downstream_click g2 st2 = Ok (st2, g')) /\
  (forall rng, mmocr_sam_click rng st2 = mmocr_sam_click rng st).
Proof.
  intros H. unfold downstream_click in H. step_bind H.
  destruct a as [out g1]. injection H as <- <-. split.
  - intros g2. unfold downstream_click.
    cbn [input_image mask_results text_index prompt sam_results].
    change (run_downstream g2 (input_image st) (mask_results st) (text_index st)
              (prompt st))
      with (run_downstream g (input_image st) (mask_results st) (text_index st)
              (prompt st)).
    rewrite E. reflexivity.
  - intros rng. reflexivity.
Qed.

(** ** Stage A and numpy's generator *)

(** X3.  The summary and the mask table of Stage A do not depend on the
    state of numpy's generator, which only colours the preview: two
    returning runs on one image give the same summary and the same
    table. *)
Theorem table_independent_of_numpy_rng (rng1 rng2 : NpRng) (img p1 p2 : image)
  (s1 s2 : string) (t1 t2 : pyval F) :
  run_mmocr_sam rng1 img = Ok (p1, s1, t1) ->
  run_mmocr_sam rng2 img = Ok (p2, s2, t2) ->
  s1 = s2 /\ t1 = t2.
Proof.
  intros H1 H2.
  destruct (run_mmocr_sam_inv _ _ _ _ _ H1)
    as [pred [bbs [masks [rgb [fig [d [r1 [A1 [A2 [A3 [A4 [Aloop [_ ->]]]]]]]]]]]]].
  destruct (run_mmocr_sam_inv _ _ _ _ _ H2)
    as [pred' [bbs' [masks' [rgb' [fig' [d' [r2 [B1 [B2 [B3 [B4 [Bloop [_ ->]]]]]]]]]]]]].
  rewrite A1 in B1. injection B1 as <-.
  rewrite A2 in B2. injection B2 as <-.
  rewrite A3 in B3. injection B3 as <-.
  apply loop_spec in Aloop; [|constructor].
  apply loop_spec in Bloop; [|constructor].
  destruct Aloop as [rows [Hrows [-> ->]]].
  destruct Bloop as [rows' [Hrows' [-> ->]]].
  rewrite Hrows in Hrows'. injection Hrows' as <-. split; reflexivity.
Qed.

(** ** Stage A when the collaborators disagree on the number of regions *)

Lemma zip4_length_min (masks : list sam_mask) (texts : list string)
  (polys : list (list F)) (boxes : list (box F)) :
  List.length (zip4 masks texts polys boxes)
  = Nat.min (Nat.min (Nat.min (List.length masks) (List.length texts))
               (List.length polys)) (List.length boxes).
Proof.
  unfold zip4. revert texts polys boxes.
  induction masks as [|m masks IH]; intros [|t texts] [|p polys] [|b boxes];
    simpl; try lia.
  rewrite IH. lia.
Qed.

Lemma zip4_texts_firstn (masks : list sam_mask) (texts : list string)
  (polys : list (list F)) (boxes : list (box F)) :
  map (fun it : loop_item => snd (fst (fst it))) (zip4 masks texts polys boxes)
  = firstn (List.length (zip4 masks texts polys boxes)) texts.
Proof.
  unfold zip4. revert texts polys boxes.
  induction masks as [|m masks IH]; intros [|t texts] [|p polys] [|b boxes];
    simpl; try reflexivity.
  rewrite IH. reflexivity.
Qed.

(** X4.  The loop runs over [zip]: when the predictor returns fewer
    masks than there are regions, or the spotter fewer texts than
    polygons, Stage A still returns, and the table and the summary hold
    only as many regions as the shortest of the three lists. *)
Theorem table_truncated_to_shortest (rng : NpRng) (img preview : image)
  (s : string) (outputs : pyval F) (pred : prediction F) (bbs : list (box F))
  (masks : list sam_mask) :
  mmocr_inferencer img = Ok pred ->
  mapM poly2bbox (det_polygons pred) = Ok bbs ->
  predict_torch img (apply_boxes_torch bbs (height img, width img)) = Ok masks ->
  run_mmocr_sam rng img = Ok (preview, s, outputs) ->
  exists d,
    outputs = PyDict d /\
    List.length d
    = Nat.min (List.length masks)
        (Nat.min (List.length (rec_texts pred)) (List.length (det_polygons pred))) /\
    map fst d = map (fun i => KInt (Z.of_nat i)) (seq 0 (List.length d)) /\
    s = summary_from 0 (firstn (List.length d) (rec_texts pred)).
Proof.
  intros Hpred Hbbs Hmasks Hrun.
  destruct (run_mmocr_sam_inv _ _ _ _ _ Hrun)
    as [pred' [bbs' [masks' [rgb [fig [d [rng' [H1 [H2 [H3 [_ [Hloop [_ ->]]]]]]]]]]]]].
  rewrite Hpred in H1. injection H1 as <-.
  rewrite Hbbs in H2. injection H2 as <-.
  rewrite Hmasks in H3. injection H3 as <-.
  pose proof (mapM_length _ _ _ Hbbs) as Hb.
  apply loop_spec in Hloop; [|constructor].
  destruct Hloop as [rows [Hrows [-> ->]]]. cbn [List.app String.append].
  pose proof (table_rows_keys _ _ _ Hrows) as Hkeys.
  assert (Hlen : List.length rows
                 = List.length (zip4 masks (rec_texts pred) (det_polygons pred) bbs)).
  { rewrite <- (length_map fst), Hkeys, length_map, length_seq. reflexivity. }
  exists rows. split; [reflexivity|]. split; [|split].
  - rewrite Hlen, zip4_length_min, Hb. lia.
  - rewrite Hlen. exact Hkeys.
  - rewrite zip4_texts_firstn, Hlen. reflexivity.
Qed.

(** ** What is drawn on the figure *)

Lemma loop_figure (items : list loop_item) (idx : nat) (fig fig' : figure)
  (s s' : string) (d d' : list (pykey * pyval F)) (rng rng' : NpRng) :
  loop idx items (fig, s, d, rng) = Ok (fig', s', d', rng') ->
  exists drawn,
    fig' = fig ++ drawn /\
    List.length drawn = 3 * List.length items /\
    forall j mask text polygon x1 y1 x2 y2,
      nth_error items j = Some (mask, text, polygon, (x1, y1, x2, y2)) ->
      exists color pts,
        reshape_pairs polygon = Ok pts /\
        firstn 3 (skipn (3 * j) drawn)
        = region_artists (idx + j) mask color pts x1 y1 text.
Proof.
  revert idx fig s d rng. induction items as [|item items IH];
    intros idx fig s d rng H; simpl in H.
  - injection H as <- <- <- <-. exists []. rewrite app_nil_r.
    repeat split. intros j ? ? ? ? ? ? ? Hj. destruct j; discriminate.
  - destruct item as [[[mask text] polygon] [[[x1 y1] x2] y2]].
    unfold loop_body in H.
    destruct (np_random3 rng) as [color rng1].
    destruct (reshape_pairs polygon) as [pts|] eqn:Er; cbn [bind] in H; [|discriminate].
    apply IH in H. destruct H as [drawn [-> [Hlen Hnth]]].
    exists (region_artists idx mask color pts x1 y1 text ++ drawn).
    split; [|split].
    + unfold region_artists. rewrite <- !app_assoc. reflexivity.
    + rewrite length_app, Hlen. simpl. lia.
    + intros j m t p a1 b1 a2 b2 Hj. destruct j as [|j]; simpl in Hj.
      * injection Hj as <- <- <- <- <- <- <-. exists color, pts.
        split; [exact Er|]. rewrite Nat.add_0_r. reflexivity.
      * destruct (Hnth _ _ _ _ _ _ _ _ Hj) as [color' [pts' [Hr Hd]]].
        exists color', pts'. split; [exact Hr|].
        replace (3 * S j) with (3 + 3 * j) by lia.
        replace (idx + S j) with (S idx + j) by lia.
        exact Hd.
Qed.

(** X11.  The preview of Stage A is rendered from a figure that holds
    the colour-converted image and then, for each region of the loop in
    order, three artists: the mask in a colour drawn from numpy's
    generator, the closed polygon, and the label "idx:i, text" at the
    first corner (x1, y1) of the region's box. *)
Theorem preview_draws_regions (rng : NpRng) (img preview : image) (s : string)
  (outputs : pyval F) (pred : prediction F) (bbs : list (box F))
  (masks : list sam_mask) :
  mmocr_inferencer img = Ok pred ->
  mapM poly2bbox (det_polygons pred) = Ok bbs ->
  predict_torch img (apply_boxes_torch bbs (height img, width img)) = Ok masks ->
  run_mmocr_sam rng img = Ok (preview, s, outputs) ->
  exists rgb drawn,
    cvtColor img = Ok rgb /\
    cvtColor (canvas_render (Imshow rgb :: drawn)) = Ok preview /\
    List.length drawn
    = 3 * List.length (zip4 masks (rec_texts pred) (det_polygons pred) bbs) /\
    forall j mask text polygon x1 y1 x2 y2,
      nth_error masks j = Some mask ->
      nth_error (rec_texts pred) j = Some text ->
      nth_error (det_polygons pred) j = Some polygon ->
      nth_error bbs j = Some (x1, y1, x2, y2) ->
      exists color pts,
        reshape_pairs polygon = Ok pts /\
        firstn 3 (skipn (3 * j) drawn) = region_artists j mask color pts x1 y1 text.
Proof.
  intros Hpred Hbbs Hmasks Hrun.
  destruct (run_mmocr_sam_inv _ _ _ _ _ Hrun)
    as [pred' [bbs' [masks' [rgb [fig [d [rng' [H1 [H2 [H3 [Hrgb [Hloop [Hprev _]]]]]]]]]]]]].
  rewrite Hpred in H1. injection H1 as <-.
  rewrite Hbbs in H2. injection H2 as <-.
  rewrite Hmasks in H3. injection H3 as <-.
  apply loop_figure in Hloop. destruct Hloop as [drawn [-> [Hlen Hnth]]].
  exists rgb, drawn. split; [exact Hrgb|]. split; [exact Hprev|]. split; [exact Hlen|].
  intros j mask text polygon x1 y1 x2 y2 Hm Ht Hp Hb.
  assert (Hitem : nth_error (zip4 masks (rec_texts pred) (det_polygons pred) bbs) j
                  = Some (mask, text, polygon, (x1, y1, x2, y2))).
  { unfold zip4. repeat apply combine_nth_error; assumption. }
  exact (Hnth _ _ _ _ _ _ _ _ Hitem).
Qed.

(** ** Stage B on the table of Stage A *)

Lemma mapM_cell01_bools (row : list bool) :
  mapM cell01 (map (@PyBool F) row)
  = Ok (map (fun b : bool => if b then 1%Z else 0%Z) row).
Proof.
  induction row as [|b row IH]; [reflexivity|].
  simpl. rewrite IH. reflexivity.
Qed.

Lemma mapM_row01_bools (plane : list (list bool)) :
  mapM row01 (map (fun row => PyList (map (@PyBool F) row)) plane)
  = Ok (threshold_plane plane).
Proof.
  induction plane as [|row plane IH]; [reflexivity|].
  cbn [map mapM row01]. rewrite mapM_cell01_bools. cbn [bind].
  rewrite IH. reflexivity.
Qed.

Lemma np_mask_plane (plane : list (list bool)) (mh mw : nat) :
  0 < mh -> 0 < mw ->
  List.length plane = mh -> Forall (fun r => List.length r = mw) plane ->
  np_mask (PyList (map (fun row => PyList (map (@PyBool F) row)) plane))
  = Ok (threshold_plane plane).
Proof.
  intros Hmh Hmw Hlen Hrows. unfold np_mask.
  rewrite mapM_row01_bools. cbn [bind].
  destruct plane as [|r0 plane]; [simpl in Hlen; lia|].
  cbn [threshold_plane map].
  assert (Hall : Forall (fun r : list Z => List.length r = mw)
                   (threshold_plane (r0 :: plane))).
  { unfold threshold_plane. apply Forall_map.
    eapply Forall_impl; [|exact Hrows]. intros r Hr. cbn beta.
    rewrite length_map. exact Hr. }
  inversion Hall as [|? ? Hr0 Hrest]; subst.
  change (map (map (fun b : bool => if b then 1%Z else 0%Z)) plane)
    with (threshold_plane plane) in *.
  replace (Nat.ltb 0 (List.length (map (fun b : bool => if b then 1%Z else 0%Z) r0)))
    with true by (symmetry; apply Nat.ltb_lt; lia).
  cbn [andb forallb]. rewrite Nat.eqb_refl. cbn [andb].
  replace (forallb _ (threshold_plane plane)) with true; [reflexivity|].
  symmetry. apply forallb_forall. intros r Hr. apply Nat.eqb_eq.
  rewrite Forall_forall in Hrest. rewrite (Hrest _ Hr). reflexivity.
Qed.

(** The lookup of lines 133-136 on a table that holds, under the index,
    an entry as Stage A writes it. *)
Lemma select_table_entry (text index : string) (d : list (pykey * pyval F))
  (k : Z) (plane : list (list bool)) (more : sam_mask) (pts : list (list F))
  (mh mw : nat) :
  py_eval text = Ok (PyDict d) ->
  py_int index = Ok k ->
  dict_get d (KInt k) = Some (table_entry (plane :: more) pts) ->
  0 < mh -> 0 < mw ->
  List.length plane = mh -> Forall (fun r => List.length r = mw) plane ->
  select_mask text index = Ok (threshold_plane plane).
Proof.
  intros He Hi Hd Hmh Hmw Hlen Hrows.
  unfold select_mask. rewrite He. cbn [bind]. rewrite Hi. cbn [bind].
  cbn [subscript]. rewrite Hd. cbn [bind].
  exact (np_mask_plane plane mh mw Hmh Hmw Hlen Hrows).
Qed.

(** The table of a returning Stage A run, and what [eval] makes of its
    text. *)
Lemma stage_a_table (rng : NpRng) (img preview : image) (s : string)
  (outputs : pyval F) (pred : prediction F) (bbs : list (box F))
  (masks : list sam_mask) :
  mmocr_inferencer img = Ok pred ->
  Forall (Forall float_lit_ok) (det_polygons pred) ->
  mapM poly2bbox (det_polygons pred) = Ok bbs ->
  predict_torch img (apply_boxes_torch bbs (height img, width img)) = Ok masks ->
  run_mmocr_sam rng img = Ok (preview, s, outputs) ->
  exists rows,
    outputs = PyDict rows /\
    table_rows 0 (zip4 masks (rec_texts pred) (det_polygons pred) bbs) = Ok rows /\
    py_eval (Textbox_postprocess outputs) = Ok (PyDict rows).
Proof.
  intros Hpred Hfl Hbbs Hmasks Hrun.
  destruct (run_mmocr_sam_inv _ _ _ _ _ Hrun)
    as [pred' [bbs' [masks' [rgb [fig [d [rng' [H1 [H2 [H3 [_ [Hloop [_ ->]]]]]]]]]]]]].
  rewrite Hpred in H1. injection H1 as <-.
  rewrite Hbbs in H2. injection H2 as <-.
  rewrite Hmasks in H3. injection H3 as <-.
  apply loop_spec in Hloop; [|constructor].
  destruct Hloop as [rows [Hrows [-> _]]]. cbn [List.app].
  exists rows. split; [reflexivity|]. split; [exact Hrows|].
  assert (Hok : lit_ok (PyDict rows)).
  { apply lit_ok_dict. split.
    - rewrite (table_rows_keys _ _ _ Hrows). apply distinct_index_keys.
    - apply (table_rows_lit_ok _ _ _ (zip4_polygons _ _ _ _ _ Hfl) Hrows). }
  unfold Textbox_postprocess, py_str, py_eval.
  rewrite (literal_eval_repr _ Hok). reflexivity.
Qed.

(** X1.  After Stage A has returned, Stage B with the index of a listed
    region, on the text of the table as the text box shows it, selects
    the first plane of that region's mask (True as 1, False as 0), and,
    once the pipeline answers, returns the composite of the input image
    with the patch for that mask. *)
Theorem inpainting_after_detection (rng : NpRng) (g g' : Rng)
  (img preview : image) (s : string) (outputs : pyval F) (pred : prediction F)
  (bbs : list (box F)) (masks : list sam_mask) (i : nat)
  (plane : list (list bool)) (more : sam_mask) (mh mw h w : nat)
  (index prompt : string) (px : nat -> nat -> nat -> Z) :
  mmocr_inferencer img = Ok pred ->
  Forall (Forall float_lit_ok) (det_polygons pred) ->
  mapM poly2bbox (det_polygons pred) = Ok bbs ->
  predict_torch img (apply_boxes_torch bbs (height img, width img)) = Ok masks ->
  run_mmocr_sam rng img = Ok (preview, s, outputs) ->
  nth_error masks i = Some (plane :: more) ->
  i < List.length (rec_texts pred) ->
  i < List.length (det_polygons pred) ->
  0 < mh -> 0 < mw ->
  List.length plane = mh -> Forall (fun r => List.length r = mw) plane ->
  py_int index = Ok (Z.of_nat i) ->
  shapeb h w 3 img = true -> 0 < h -> 0 < w ->
  pipe prompt 20 (manual_seed 0) (control_image (threshold_plane plane)) = Ok (px, g') ->
  select_mask (Textbox_postprocess outputs) index = Ok (threshold_plane plane) /\
  run_downstream g img (Textbox_postprocess outputs) index prompt
  = Ok (composite h w img (masked_patch (threshold_plane plane) px (w, h)), g').
Proof.
  intros Hpred Hfl Hbbs Hmasks Hrun Hm Hti Hpi Hmh Hmw Hlen Hrows Hint Himg Hh Hw Hpipe.
  destruct (stage_a_table _ _ _ _ _ _ _ _ Hpred Hfl Hbbs Hmasks Hrun)
    as [rows [-> [Htab Heval]]].
  destruct (nth_error (rec_texts pred) i) as [text|] eqn:Et;
    [|apply nth_error_None in Et; lia].
  destruct (nth_error (det_polygons pred) i) as [polygon|] eqn:Ep;
    [|apply nth_error_None in Ep; lia].
  destruct (mapM_nth_error _ _ _ _ _ Hbbs Ep) as [bbox [Hbb _]].
  assert (Hitem : nth_error (zip4 masks (rec_texts pred) (det_polygons pred) bbs) i
                  = Some (plane :: more, text, polygon, bbox)).
  { unfold zip4. repeat apply combine_nth_error; assumption. }
  destruct (table_rows_nth _ _ _ _ _ _ _ _ Htab Hitem) as [pts [_ Hrow]].
  pose proof (table_rows_keys _ _ _ Htab) as Hkeys.
  assert (Hn : List.length rows
               = List.length (zip4 masks (rec_texts pred) (det_polygons pred) bbs)).
  { rewrite <- (length_map fst), Hkeys, length_map, length_seq. reflexivity. }
  rewrite <- Hn in Hkeys.
  pose proof (dict_get_indexed rows 0 i _ Hkeys Hrow) as Hget.
  assert (Hsel : select_mask (Textbox_postprocess (PyDict rows)) index
                 = Ok (threshold_plane plane)).
  { exact (select_table_entry _ _ rows (Z.of_nat i) plane more _ mh mw
             Heval Hint Hget Hmh Hmw Hlen Hrows). }
  split; [exact Hsel|].
  exact (run_downstream_ok g g' img _ index prompt h w _ px Hsel Himg Hh Hw Hpipe).
Qed.

Lemma dict_get_outside (rows : list (pykey * pyval F)) (base n : nat) (k : Z) :
  map fst rows = map (fun i => KInt (Z.of_nat i)) (seq base n) ->
  (k < Z.of_nat base \/ Z.of_nat (base + n) <= k)%Z ->
  dict_get rows (KInt k) = None.
Proof.
  revert base n. induction rows as [|[k' v] rows IH]; intros base n Hk Hout;
    [reflexivity|].
  destruct n as [|n]; [discriminate|].
  simpl in Hk. injection Hk as -> Hk. simpl.
  replace (Z.of_nat base =? k)%Z with false by (symmetry; apply Z.eqb_neq; lia).
  apply (IH (S base) n Hk). lia.
Qed.

(** X2.  After Stage A has returned a table of n entries, an index that
    [int()] reads as a number below 0 or not below n selects nothing:
    Stage B raises [KeyError] with that number (a negative index does
    not count from the end), on any image and prompt. *)
Theorem unlisted_index_raises_KeyError (rng : NpRng) (g : Rng)
  (img img' preview : image) (s : string) (d : list (pykey * pyval F))
  (pred : prediction F) (index prompt : string) (k : Z) :
  mmocr_inferencer img = Ok pred ->
  Forall (Forall float_lit_ok) (det_polygons pred) ->
  run_mmocr_sam rng img = Ok (preview, s, PyDict d) ->
  py_int index = Ok k ->
  (k < 0 \/ Z.of_nat (List.length d) <= k)%Z ->
  run_downstream g img' (Textbox_postprocess (PyDict d)) index prompt
  = Raise (KeyError (KInt k)).
Proof.
  intros Hpred Hfl Hrun Hint Hout.
  destruct (run_mmocr_sam_inv _ _ _ _ _ Hrun)
    as [pred' [bbs [masks [rgb [fig [d' [rng' [H1 [H2 [H3 [_ [_ [_ _]]]]]]]]]]]]].
  rewrite Hpred in H1. injection H1 as <-.
  destruct (stage_a_table _ _ _ _ _ _ _ _ Hpred Hfl H2 H3 Hrun)
    as [rows [Hd [Htab Heval]]].
  injection Hd as ->.
  pose proof (table_rows_keys _ _ _ Htab) as Hkeys.
  assert (Hn : List.length rows
               = List.length (zip4 masks (rec_texts pred) (det_polygons pred) bbs)).
  { rewrite <- (length_map fst), Hkeys, length_map, length_seq. reflexivity. }
  rewrite <- Hn in Hkeys.
  apply run_downstream_select_error.
  unfold select_mask. rewrite Heval. cbn [bind]. rewrite Hint. cbn [bind subscript].
  rewrite (dict_get_outside rows 0 (List.length rows) k Hkeys) by (simpl; lia).
  reflexivity.
Qed.

(** ** The entries of the table, region by region *)


(** ** Stage B: what goes wrong after the lookup *)

(** X12.  Once the mask is selected, Stage B converts the image before
    it calls the pipeline: an image without rows or without columns is
    an OpenCV error whatever the pipeline would do, and on an image of
    shape (h, w, 3) an exception of the pipeline leaves Stage B
    unchanged. *)
Theorem stage_b_failure_order (g : Rng) (img : image)
  (text index prompt : string) (mask : list (list Z)) :
  select_mask text index = Ok mask ->
  (height img = 0 \/ width img = 0 ->
   run_downstream g img text index prompt = Raise cv2_error) /\
  (forall h w e,
     shapeb h w 3 img = true -> 0 < h -> 0 < w ->
     pipe prompt 20 (manual_seed 0) (control_image mask) = Raise e ->
     run_downstream g img text index prompt = Raise e).
Proof.
  intros Hsel. split.
  - intros Hempty. unfold run_downstream. rewrite Hsel. cbn [bind].
    destruct img as [|[|px row] rows]; [reflexivity | reflexivity |].
    destruct Hempty as [H | H]; discriminate H.
  - intros h w e Himg Hh Hw Hpipe. unfold run_downstream.
    rewrite Hsel. cbn [bind].
    rewrite (cvtColor_shape3 _ _ _ Himg Hh Hw). cbn [bind].
    fold (control_image mask). rewrite Hpipe. reflexivity.
Qed.

(** ** Stage A returns *)

Lemma loop_total (items : list loop_item) (idx : nat) (st : loop_state) :
  Forall (fun it : loop_item => Nat.even (List.length (snd (fst it))) = true) items ->
  exists st', loop idx items st = Ok st'.
Proof.
  revert idx st. induction items as [|item items IH]; intros idx st Hall.
  - exists st. reflexivity.
  - inversion Hall as [|? ? Hit Hrest]; subst.
    destruct item as [[[mask text] polygon] [[[x1 y1] x2] y2]].
    destruct st as [[[fig s] d] rng]. cbn [fst snd] in Hit.
    destruct (proj1 (proj1 (reshape_pairs_parity_aux polygon)) Hit)
      as [pts [Hr _]].
    cbn [loop]. unfold loop_body.
    destruct (np_random3 rng) as [color rng1]. rewrite Hr. cbn [bind].
    apply IH, Hrest.
Qed.

(** X13.  Stage A returns whenever its collaborators do: the spotter,
    the box conversion and the predictor answer, the image converts,
    every polygon has an even number of coordinates and the canvas
    converts.  The lists need not have equal lengths. *)
Theorem stage_a_returns (rng : NpRng) (img rgb : image) (pred : prediction F)
  (bbs : list (box F)) (masks : list sam_mask) :
  mmocr_inferencer img = Ok pred ->
  mapM poly2bbox (det_polygons pred) = Ok bbs ->
  predict_torch img (apply_boxes_torch bbs (height img, width img)) = Ok masks ->
  cvtColor img = Ok rgb ->
  Forall (fun p => Nat.even (List.length p) = true) (det_polygons pred) ->
  (forall fig, exists preview, cvtColor (canvas_render fig) = Ok preview) ->
  exists preview s d, run_mmocr_sam rng img = Ok (preview, s, PyDict d).
Proof.
  intros Hpred Hbbs Hmasks Hrgb Heven Hcanvas.
  unfold run_mmocr_sam. rewrite Hpred. cbn [bind]. rewrite Hbbs. cbn [bind].
  rewrite Hmasks. cbn [bind]. rewrite Hrgb. cbn [bind].
  destruct (loop_total (zip4 masks (rec_texts pred) (det_polygons pred) bbs) 0
              ([Imshow rgb], EmptyString, [], rng)
              (zip4_polygons _ _ _ _ _ Heven))
    as [[[[fig s] d] rng'] Hloop].
  rewrite Hloop. cbn [bind].
  destruct (Hcanvas fig) as [preview Hprev].
  exists preview, s, d. rewrite Hprev. reflexivity.
Qed.

(** ** [eval] on printed values *)


End Pipeline.

(** * Examples with the sample collaborators *)

Abbreviation sample_eval := (py_eval Z Sample.float_of_atom Sample.eval_other).
Abbreviation sample_select_mask :=
  (select_mask Z Sample.float_of_atom Sample.float_gt_half Sample.eval_other).
Abbreviation sample_run_downstream :=
  (run_downstream Z Sample.float_of_atom Sample.float_gt_half Sample.eval_other
     Z Sample.manual_seed Sample.pipe Sample.resample).
Abbreviation sample_run_downstream_seeded :=
  (run_downstream_seeded Z Sample.float_of_atom Sample.float_gt_half Sample.eval_other
     Z Sample.manual_seed Sample.pipe Sample.resample).
Abbreviation sample_downstream_click :=
  (downstream_click Z Sample.float_of_atom Sample.float_gt_half Sample.eval_other
     Z Sample.manual_seed Sample.pipe Sample.resample).
Abbreviation sample_run_mmocr_sam spotter :=
  (run_mmocr_sam Z nat nat Sample.np_random3 spotter Sample.poly2bbox
     Sample.apply_boxes_torch Sample.predict_torch Sample.canvas_render).
Abbreviation sample_mmocr_sam_click spotter :=
  (mmocr_sam_click Z Sample.float_repr nat nat Sample.np_random3 spotter Sample.poly2bbox
     Sample.apply_boxes_torch Sample.predict_torch Sample.canvas_render).
Abbreviation hello_polygon :=
  ([[10; 10]; [50; 10]; [50; 30]; [10; 30]; [10; 10]]%Z).
Abbreviation hello_table :=
  (PyDict [(KInt 0, table_entry Z [[[false]]] hello_polygon)]).
Abbreviation hello_text :=
  "{0: {'mask': [[[False]]], 'polygon': [[10.0, 10.0], [50.0, 10.0], [50.0, 30.0], [10.0, 30.0], [10.0, 10.0]]}}".
Abbreviation right_pixel_text := "{0: {'mask': [[[False, True]]]}}".
Abbreviation working_size_composite :=
  (composite 512 512 Sample.img512
     (masked_patch Sample.resample Sample.mask512 (Sample.paint 0) (512, 512))).
Abbreviation form1_detected :=
  {| input_image := Sample.img1;
     sam_results := ("0:HELLO" ++ newline)%string;
     mask_results := hello_text;
     text_index := EmptyString;
     prompt := EmptyString;
     output_image := Some Sample.white_preview |}.
Abbreviation form1_inpainted :=
  {| input_image := Sample.img1;
     sam_results := ("0:HELLO" ++ newline)%string;
     mask_results := hello_text;
     text_index := "0";
     prompt := "graffiti";
     output_image :=
       Some (composite 1 1 Sample.img1
               (masked_patch Sample.resample [[0]]%Z (Sample.paint 0) (1, 1))) |}.

(** ** Arrays of equal rows *)

Lemma conform_id (h w ch : nat) (im : image) :
  shapeb h w ch im = true -> conform h w ch im = im.
Proof.
  intros H. rewrite conform_tabulate. symmetry. apply image_as_table. exact H.
Qed.

Lemma shapeb_repeat (h w ch : nat) (row : list (list Z)) :
  List.length row = w ->
  forallb (fun px => Nat.eqb (List.length px) ch) row = true ->
  shapeb h w ch (repeat row h) = true.
Proof.
  intros Hw Hch. unfold shapeb. rewrite repeat_length, Nat.eqb_refl. cbn [andb].
  apply forallb_forall. intros r Hr. apply repeat_spec in Hr. subst r.
  rewrite Hw, Nat.eqb_refl. exact Hch.
Qed.

Lemma tabulate_equal_rows (h w ch : nat) (f : nat -> nat -> Z) :
  tabulate h w ch (fun _ x c => f x c)
  = repeat (map (fun x => map (fun c => f x c) (seq 0 ch)) (seq 0 w)) h.
Proof.
  unfold tabulate. rewrite map_const, length_seq. reflexivity.
Qed.

(** ** The filter on the two-pixel mask

    The runs below go through 512 x 512 arrays whose rows are all equal;
    the lemmas of this part follow one row through the two resizing
    steps. *)

(** The mask [[0, 1]], three channels deep, resized to 512 x 512: the
    left half of every row is 0, the right half 1. *)
Lemma two_pixel_control :
  control_image Sample.resample [[0; 1]]%Z = repeat (Sample.step_row 0 1) 512.
Proof.
  assert (Hh : Sample.horizontal_pass 512 [[[0; 0; 0]; [1; 1; 1]]]%Z
               = [Sample.step_row 0 1]).
  { vm_cast_no_check (@eq_refl image [Sample.step_row 0 1]). }
  assert (Hk : map (Sample.coeffs 1 512) (seq 0 512) = repeat (0, [4194304%Z]) 512).
  { vm_cast_no_check (@eq_refl (list (nat * list Z)) (repeat (0, [4194304%Z]) 512)). }
  assert (Hr : Sample.weighted_rows [4194304%Z] [Sample.step_row 0 1]
               = Sample.step_row 0 1).
  { vm_cast_no_check (@eq_refl (list (list Z)) (Sample.step_row 0 1)). }
  assert (Hv : Sample.vertical_pass 512 [Sample.step_row 0 1]
               = repeat (Sample.step_row 0 1) 512).
  { unfold Sample.vertical_pass.
    change (height [Sample.step_row 0 1]) with 1.
    change (Nat.eqb 1 512) with false. cbv beta match zeta.
    rewrite Hk, map_repeat. cbn [fst snd skipn]. rewrite Hr. reflexivity. }
  unfold control_image, Image_resize.
  change (stack3 [[0; 1]]%Z) with [[[0; 0; 0]; [1; 1; 1]]]%Z.
  change (size_eqb (Image_size [[[0; 0; 0]; [1; 1; 1]]]%Z) (512, 512)) with false.
  change (channels [[[0; 0; 0]; [1; 1; 1]]]%Z) with 3.
  cbv beta match zeta. unfold Sample.resample. cbn [fst snd].
  rewrite Hh, Hv.
  apply conform_id. apply shapeb_repeat; reflexivity.
Qed.

(** 512 equal rows resized to two pixels: the horizontal pass gives the
    same two pixels on every row. *)
Lemma resize_equal_rows (row : list (list Z)) :
  List.length row = 512 ->
  forallb (fun px => Nat.eqb (List.length px) 3) row = true ->
  Image_resize Sample.resample (repeat row 512) (2, 1)
  = conform 1 2 3
      (Sample.vertical_pass 1
         (repeat (Sample.resample_row (map (Sample.coeffs 512 2) (seq 0 2)) row) 512)).
Proof.
  intros Hw Hch. pose proof (shapeb_repeat 512 512 3 row Hw Hch) as Hs.
  assert (Hsz : Image_size (repeat row 512) = (512, 512)).
  { apply (Image_size_shape 512 512 3); [exact Hs | lia]. }
  assert (Hwd : width (repeat row 512) = 512).
  { exact (f_equal fst Hsz). }
  unfold Image_resize.
  rewrite Hsz, (channels_shape 512 512 3 _ Hs) by lia.
  change (size_eqb (512, 512) (2, 1)) with false. cbv beta match zeta.
  unfold Sample.resample. cbn [fst snd].
  unfold Sample.horizontal_pass. rewrite Hwd.
  change (Nat.eqb 512 2) with false. cbv beta match zeta.
  rewrite map_repeat. reflexivity.
Qed.

(** The patch for the two-pixel mask, when the pipeline paints with
    generator state [g]: [v] is the painted value and [patch] what the
    filter makes of 512 rows holding 0 on the left and [v] on the right. *)
Lemma two_pixel_patch (g v : Z) (patch : image) :
  map (fun x => map (fun c => mul_u8 (Sample.paint g 0 x c)
                                (pixel [Sample.step_row 0 1] 0 x c)) (seq 0 3))
      (seq 0 512)
  = Sample.step_row 0 v ->
  conform 1 2 3
    (Sample.vertical_pass 1
       (repeat (Sample.resample_row (map (Sample.coeffs 512 2) (seq 0 2))
                  (Sample.step_row 0 v)) 512))
  = patch ->
  masked_patch Sample.resample [[0; 1]]%Z (Sample.paint g) (2, 1) = patch.
Proof.
  intros Hrow Hpatch. unfold masked_patch. rewrite two_pixel_control.
  rewrite (tabulate_ext 512 512 3 _
             (fun _ x c => mul_u8 (Sample.paint g 0 x c)
                             (pixel [Sample.step_row 0 1] 0 x c))).
  - rewrite (tabulate_equal_rows 512 512 3
               (fun x c => mul_u8 (Sample.paint g 0 x c)
                             (pixel [Sample.step_row 0 1] 0 x c))).
    rewrite Hrow. rewrite resize_equal_rows by reflexivity. exact Hpatch.
  - intros y x c Hy _ _. unfold pixel.
    rewrite (nth_repeat_lt (Sample.step_row 0 1) [] Hy). reflexivity.
Qed.

(** ** Stage B on two pixels, the right one masked *)

(** With PIL's bicubic filter and a pipeline that paints everything 200,
    the mask [[False, True]] on a two-pixel image, resized to 512 x 512
    and back, leaves 20 on the left pixel and 180 on the right one,
    whatever state the generator was in. *)
Lemma two_pixel_run (g : Z) :
  sample_run_downstream g Sample.img2 right_pixel_text "0" "graffiti"
  = Ok ([[[30; 40; 50]; [220; 230; 240]]]%Z, 1%Z).
Proof.
  rewrite (run_downstream_ok Z Sample.float_of_atom Sample.float_gt_half
             Sample.eval_other Z Sample.manual_seed Sample.pipe Sample.resample
             g 1%Z Sample.img2 right_pixel_text "0" "graffiti" 1 2
             [[0; 1]]%Z (Sample.paint 0)).
  - rewrite (two_pixel_patch 0 200 [[[20; 20; 20]; [180; 180; 180]]]%Z).
    + vm_cast_no_check
        (@eq_refl (result (image * Z)) (Ok ([[[30; 40; 50]; [220; 230; 240]]]%Z, 1%Z))).
    + vm_cast_no_check (@eq_refl (list (list Z)) (Sample.step_row 0 200)).
    + vm_cast_no_check (@eq_refl image [[[20; 20; 20]; [180; 180; 180]]]%Z).
  - reflexivity.
  - reflexivity.
  - lia.
  - lia.
  - reflexivity.
Qed.

(** The call with seed 7 paints 207: 21 on the left pixel, 186 on the
    right one. *)
Lemma two_pixel_run_seeded :
  sample_run_downstream_seeded 7%Z Sample.img2 right_pixel_text "0" "graffiti"
  = Ok ([[[31; 41; 51]; [226; 236; 246]]]%Z, 8%Z).
Proof.
  rewrite (run_downstream_seeded_ok Z Sample.float_of_atom Sample.float_gt_half
             Sample.eval_other Z Sample.manual_seed Sample.pipe Sample.resample
             7%Z 8%Z Sample.img2 right_pixel_text "0" "graffiti" 1 2
             [[0; 1]]%Z (Sample.paint 7)).
  - rewrite (two_pixel_patch 7 207 [[[21; 21; 21]; [186; 186; 186]]]%Z).
    + vm_cast_no_check
        (@eq_refl (result (image * Z)) (Ok ([[[31; 41; 51]; [226; 236; 246]]]%Z, 8%Z))).
    + vm_cast_no_check (@eq_refl (list (list Z)) (Sample.step_row 0 207)).
    + vm_cast_no_check (@eq_refl image [[[21; 21; 21]; [186; 186; 186]]]%Z).
  - reflexivity.
  - reflexivity.
  - lia.
  - lia.
  - reflexivity.
Qed.

(** C1, counterexample.  The left pixel lies outside the selected mask
    and is not the input pixel in the composite. *)
Lemma outside_mask_changed_counterexample :
  sample_select_mask right_pixel_text "0" = Ok [[0; 1]]%Z /\
  mask_at [[0; 1]]%Z 0 0 = 0%Z /\
  sample_run_downstream 0%Z Sample.img2 right_pixel_text "0" "graffiti"
  = Ok ([[[30; 40; 50]; [220; 230; 240]]]%Z, 1%Z) /\
  pixel [[[30; 40; 50]; [220; 230; 240]]]%Z 0 0 0 <> pixel Sample.img2 0 0 0.
Proof.
  split; [reflexivity|]. split; [reflexivity|]. split; [exact (two_pixel_run 0)|].
  vm_compute. discriminate.
Qed.

(** C10, at the two-pixel run. *)
Lemma composite_is_wrapping_sum_witness :
  wf_image 1 2 3 Sample.img2 /\
  exists mask px,
    sample_select_mask right_pixel_text "0" = Ok mask /\
    Sample.pipe "graffiti" 20 (Sample.manual_seed 0) (control_image Sample.resample mask)
    = Ok (px, 1%Z) /\
    forall y x c, y < 1 -> x < 2 -> c < 3 ->
      let o := pixel Sample.img2 y x c in
      let p := pixel (masked_patch Sample.resample mask px (2, 1)) y x (2 - c) in
      pixel [[[30; 40; 50]; [220; 230; 240]]]%Z y x c = ((o + p) mod 256)%Z /\
      ((0 <= p < 256)%Z -> (255 < o + p)%Z ->
       pixel [[[30; 40; 50]; [220; 230; 240]]]%Z y x c = (o + p - 256)%Z) /\
      (p = 0%Z -> pixel [[[30; 40; 50]; [220; 230; 240]]]%Z y x c = o).
Proof.
  assert (Hwf : wf_image 1 2 3 Sample.img2) by (split; reflexivity).
  split; [exact Hwf|].
  exact (composite_is_wrapping_sum Z Sample.float_of_atom Sample.float_gt_half
           Sample.eval_other Z Sample.manual_seed Sample.pipe Sample.resample
           0%Z 1%Z Sample.img2 [[[30; 40; 50]; [220; 230; 240]]]%Z
           right_pixel_text "0" "graffiti" 1 2 Hwf (two_pixel_run 0)).
Defined.

(** C5, at the two-pixel run, started with the generator in state 0: the
    same image from state 9, and from state 1, which the run leaves
    behind. *)
Lemma stage_b_reseeds_with_zero_witness :
  sample_run_downstream 0%Z Sample.img2 right_pixel_text "0" "graffiti"
  = Ok ([[[30; 40; 50]; [220; 230; 240]]]%Z, 1%Z) /\
  sample_run_downstream 9%Z Sample.img2 right_pixel_text "0" "graffiti"
  = Ok ([[[30; 40; 50]; [220; 230; 240]]]%Z, 1%Z) /\
  sample_run_downstream 1%Z Sample.img2 right_pixel_text "0" "graffiti"
  = Ok ([[[30; 40; 50]; [220; 230; 240]]]%Z, 1%Z) /\
  exists mask px,
    sample_select_mask right_pixel_text "0" = Ok mask /\
    Sample.pipe "graffiti" 20 (Sample.manual_seed 0) (control_image Sample.resample mask)
    = Ok (px, 1%Z).
Proof.
  split; [exact (two_pixel_run 0)|].
  exact (stage_b_reseeds_with_zero Z Sample.float_of_atom Sample.float_gt_half
           Sample.eval_other Z Sample.manual_seed Sample.pipe Sample.resample
           0%Z 9%Z 1%Z Sample.img2 [[[30; 40; 50]; [220; 230; 240]]]%Z
           right_pixel_text "0" "graffiti" (two_pixel_run 0)).
Defined.

(** C5, counterexample.  A caller who has seeded the generator with 7
    gets the image of seed 0, not the image the pipeline generates from
    seed 7: the seed is fixed inside Stage B. *)
Lemma seed_not_caller_supplied_counterexample :
  sample_run_downstream (Sample.manual_seed 7) Sample.img2 right_pixel_text "0" "graffiti"
  = Ok ([[[30; 40; 50]; [220; 230; 240]]]%Z, 1%Z) /\
  sample_run_downstream_seeded 7%Z Sample.img2 right_pixel_text "0" "graffiti"
  = Ok ([[[31; 41; 51]; [226; 236; 246]]]%Z, 8%Z) /\
  [[[30; 40; 50]; [220; 230; 240]]]%Z <> [[[31; 41; 51]; [226; 236; 246]]]%Z.
Proof.
  split; [exact (two_pixel_run (Sample.manual_seed 7))|].
  split; [exact two_pixel_run_seeded | discriminate].
Qed.

(** ** Stage B on an image of the working size *)

Lemma working_size_select :
  sample_select_mask Sample.half_expr "0" = Ok Sample.mask512.
Proof.
  vm_cast_no_check (@eq_refl (result (list (list Z))) (Ok Sample.mask512)).
Qed.

Lemma working_size_image : wf_image 512 512 3 Sample.img512.
Proof.
  split; vm_cast_no_check (@eq_refl bool true).
Qed.

(** Nothing is resized: the run returns the closed form. *)
Lemma working_size_run (g : Z) :
  sample_run_downstream g Sample.img512 Sample.half_expr "0" "graffiti"
  = Ok (working_size_composite, 1%Z).
Proof.
  apply run_downstream_ok.
  - exact working_size_select.
  - exact (proj1 working_size_image).
  - lia.
  - lia.
  - reflexivity.
Qed.

(** C1 as amended, at the working size: row 3 lies in the upper, unmasked
    half. *)
Lemma outside_mask_unchanged_witness :
  wf_image 512 512 3 Sample.img512 /\
  sample_select_mask Sample.half_expr "0" = Ok Sample.mask512 /\
  rectb 512 512 Sample.mask512 = true /\
  sample_run_downstream 0%Z Sample.img512 Sample.half_expr "0" "graffiti"
  = Ok (working_size_composite, 1%Z) /\
  mask_at Sample.mask512 3 5 = 0%Z /\
  pixel working_size_composite 3 5 1 = pixel Sample.img512 3 5 1.
Proof.
  assert (Hrect : rectb 512 512 Sample.mask512 = true).
  { vm_cast_no_check (@eq_refl bool true). }
  assert (Hout : mask_at Sample.mask512 3 5 = 0%Z).
  { vm_cast_no_check (@eq_refl Z 0%Z). }
  split; [exact working_size_image|]. split; [exact working_size_select|].
  split; [exact Hrect|]. split; [exact (working_size_run 0)|]. split; [exact Hout|].
  apply (outside_mask_unchanged_at_working_size Z Sample.float_of_atom
           Sample.float_gt_half Sample.eval_other Z Sample.manual_seed Sample.pipe
           Sample.resample 0%Z 1%Z Sample.img512 working_size_composite
           Sample.half_expr "0" "graffiti" Sample.mask512
           working_size_image working_size_select Hrect (working_size_run 0) 3 5 1);
    [lia | lia | lia | exact Hout].
Defined.

(** ** Stage B on tables that miss something *)

(** C2 as amended, at a table whose entry has no mask. *)
Lemma lookup_failure_propagates_witness :
  sample_select_mask "{0: {}}" "0" = Raise (KeyError (KStr "mask")) /\
  sample_run_downstream 0%Z Sample.img1 "{0: {}}" "0" "graffiti"
  = Raise (KeyError (KStr "mask")) /\
  (sample_eval "{0: {}}" = Raise (KeyError (KStr "mask")) \/
   lookup_error (KeyError (KStr "mask")) = true).
Proof.
  assert (Hsel : sample_select_mask "{0: {}}" "0" = Raise (KeyError (KStr "mask")))
    by reflexivity.
  split; [exact Hsel|].
  exact (lookup_failure_propagates Z Sample.float_of_atom Sample.float_gt_half
           Sample.eval_other Z Sample.manual_seed Sample.pipe Sample.resample
           0%Z Sample.img1 "{0: {}}" "0" "graffiti" (KeyError (KStr "mask")) Hsel).
Defined.

(** C2, counterexample.  The text is a table without a mask; Stage B
    fails with the [KeyError] of the subscription, which is not the error
    of a malformed table. *)
Lemma malformed_table_counterexample :
  sample_eval "{0: {}}" = Ok (PyDict [(KInt 0, PyDict [])]) /\
  sample_run_downstream 0%Z Sample.img1 "{0: {}}" "0" "graffiti"
  = Raise (KeyError (KStr "mask")) /\
  KeyError (KStr "mask") <> MalformedMaskTableError.
Proof.
  split; [reflexivity|]. split; [reflexivity | discriminate].
Qed.

(** C3 as amended, at the empty table. *)
Lemma missing_index_raises_KeyError_witness :
  sample_eval "{}" = Ok (PyDict []) /\
  py_int "0" = Ok 0%Z /\
  dict_get (@nil (pykey * pyval Z)) (KInt 0) = None /\
  sample_run_downstream 0%Z Sample.img1 "{}" "0" "graffiti" = Raise (KeyError (KInt 0)).
Proof.
  assert (H1 : sample_eval "{}" = Ok (PyDict [])) by reflexivity.
  assert (H2 : py_int "0" = Ok 0%Z) by reflexivity.
  assert (H3 : dict_get (@nil (pykey * pyval Z)) (KInt 0) = None) by reflexivity.
  split; [exact H1|]. split; [exact H2|]. split; [exact H3|].
  exact (missing_index_raises_KeyError Z Sample.float_of_atom Sample.float_gt_half
           Sample.eval_other Z Sample.manual_seed Sample.pipe Sample.resample
           0%Z Sample.img1 "{}" "0" "graffiti" [] 0%Z H1 H2 H3).
Defined.

(** C3, counterexample.  Index 0 is no key of the empty table; Stage B
    fails with [KeyError], which is not [SelectionError]. *)
Lemma missing_index_counterexample :
  sample_eval "{}" = Ok (PyDict []) /\
  sample_run_downstream 0%Z Sample.img1 "{}" "0" "graffiti" = Raise (KeyError (KInt 0)) /\
  KeyError (KInt 0) <> SelectionError.
Proof.
  split; [reflexivity|]. split; [reflexivity | discriminate].
Qed.

(** ** Stage A *)

Lemma white_canvas (fig : list (artist Z nat)) :
  cvtColor (Sample.canvas_render fig) = Ok Sample.white_preview.
Proof.
  vm_cast_no_check (@eq_refl (result image) (Ok Sample.white_preview)).
Qed.

Lemma none_run :
  sample_run_mmocr_sam Sample.spotter_none 0 Sample.img1
  = Ok (Sample.white_preview, EmptyString, PyDict []).
Proof.
  vm_cast_no_check
    (@eq_refl (result (image * string * pyval Z))
       (Ok (Sample.white_preview, EmptyString, PyDict []))).
Qed.

Lemma hello_run :
  sample_run_mmocr_sam Sample.spotter_hello 0 Sample.img1
  = Ok (Sample.white_preview, ("0:HELLO" ++ newline)%string, hello_table).
Proof.
  vm_cast_no_check
    (@eq_refl (result (image * string * pyval Z))
       (Ok (Sample.white_preview, ("0:HELLO" ++ newline)%string, hello_table))).
Qed.

(** C6 as amended, on the one-pixel image with the spotter that finds
    nothing. *)
Lemma no_regions_empty_table_witness :
  Sample.spotter_none Sample.img1 = Ok {| rec_texts := []; det_polygons := [] |} /\
  cvtColor Sample.img1 = Ok [[[30; 20; 10]]]%Z /\
  cvtColor (Sample.canvas_render [Imshow [[[30; 20; 10]]]%Z]) = Ok Sample.white_preview /\
  sample_run_mmocr_sam Sample.spotter_none 0 Sample.img1
  = Ok (Sample.white_preview, EmptyString, PyDict []).
Proof.
  split; [reflexivity|]. split; [reflexivity|]. split; [apply white_canvas|].
  exact (no_regions_empty_table Z nat nat Sample.np_random3 Sample.spotter_none
           Sample.poly2bbox Sample.apply_boxes_torch Sample.predict_torch
           Sample.canvas_render 0 Sample.img1 [[[30; 20; 10]]]%Z Sample.white_preview
           {| rec_texts := []; det_polygons := [] |} []
           eq_refl eq_refl eq_refl eq_refl (white_canvas _)).
Defined.

(** C6, counterexample.  No region is detected on the one-pixel image,
    and the preview is the rendered canvas, 480 rows high, not the
    image. *)
Lemma preview_not_input_counterexample :
  Sample.spotter_none Sample.img1 = Ok {| rec_texts := []; det_polygons := [] |} /\
  sample_run_mmocr_sam Sample.spotter_none 0 Sample.img1
  = Ok (Sample.white_preview, EmptyString, PyDict []) /\
  height Sample.white_preview = 480 /\
  height Sample.img1 = 1 /\
  Sample.white_preview <> Sample.img1.
Proof.
  assert (Hh : height Sample.white_preview = 480).
  { vm_cast_no_check (@eq_refl nat 480). }
  split; [reflexivity|]. split; [exact none_run|]. split; [exact Hh|].
  split; [reflexivity|].
  intros H. rewrite H in Hh. discriminate Hh.
Qed.

(** C9, on the one-pixel image with the spotter that finds HELLO: one
    key, 0, and the summary "0:HELLO" with its newline. *)
Lemma table_keys_and_summary_witness :
  sample_run_mmocr_sam Sample.spotter_hello 0 Sample.img1
  = Ok (Sample.white_preview, ("0:HELLO" ++ newline)%string, hello_table) /\
  exists d,
    hello_table = PyDict d /\
    map fst d = map (fun i => KInt (Z.of_nat i)) (seq 0 1) /\
    ("0:HELLO" ++ newline)%string
    = concat EmptyString
        (map (fun i => summary_line i (nth i ["HELLO"] EmptyString)) (seq 0 1)).
Proof.
  split; [exact hello_run|].
  exact (table_keys_and_summary Z nat nat Sample.np_random3 Sample.spotter_hello
           Sample.poly2bbox Sample.apply_boxes_torch Sample.predict_torch
           Sample.canvas_render 0 Sample.img1 Sample.white_preview
           ("0:HELLO" ++ newline)%string hello_table
           {| rec_texts := ["HELLO"];
              det_polygons := [[10; 10; 50; 10; 50; 30; 10; 30]%Z] |}
           [(10, 10, 50, 30)%Z] [[[[false]]]] 1
           eq_refl eq_refl eq_refl eq_refl eq_refl eq_refl hello_run).
Defined.

(** C4, on the same run: the text the table is shown as evaluates to the
    table. *)
Lemma mask_table_round_trip_witness :
  Forall (Forall (float_lit_ok Z Sample.float_repr Sample.float_of_atom))
    [[10; 10; 50; 10; 50; 30; 10; 30]%Z] /\
  Textbox_postprocess Z Sample.float_repr hello_table = hello_text /\
  sample_eval (Textbox_postprocess Z Sample.float_repr hello_table) = Ok hello_table.
Proof.
  assert (Hf : Forall (Forall (float_lit_ok Z Sample.float_repr Sample.float_of_atom))
                 [[10; 10; 50; 10; 50; 30; 10; 30]%Z]).
  { repeat constructor. }
  split; [exact Hf|]. split; [reflexivity|].
  exact (mask_table_round_trip Z Sample.float_repr Sample.float_of_atom
           Sample.eval_other nat nat Sample.np_random3 Sample.spotter_hello
           Sample.poly2bbox Sample.apply_boxes_torch Sample.predict_torch
           Sample.canvas_render 0 Sample.img1 Sample.white_preview
           ("0:HELLO" ++ newline)%string hello_table
           {| rec_texts := ["HELLO"];
              det_polygons := [[10; 10; 50; 10; 50; 30; 10; 30]%Z] |}
           eq_refl Hf hello_run).
Defined.

(** ** The two buttons in a row *)

(** C8, on the form with the one-pixel image: the detection button puts
    the white canvas into the output component, and the inpainting button
    then composites onto the one-pixel image. *)
Lemma stage_b_base_is_input_image_witness :
  wf_image 1 1 3 (input_image Sample.form1) /\
  sample_mmocr_sam_click Sample.spotter_hello 0 Sample.form1 = Ok form1_detected /\
  sample_downstream_click 0%Z (with_request form1_detected "0" "graffiti")
  = Ok (form1_inpainted, 1%Z) /\
  input_image form1_detected = Sample.img1 /\
  output_image form1_detected = Some Sample.white_preview /\
  exists out,
    output_image form1_inpainted = Some out /\
    sample_run_downstream 0%Z Sample.img1 hello_text "0" "graffiti" = Ok (out, 1%Z) /\
    wf_image 1 1 3 out.
Proof.
  assert (Hwf : wf_image 1 1 3 (input_image Sample.form1)) by (split; reflexivity).
  assert (Ha : sample_mmocr_sam_click Sample.spotter_hello 0 Sample.form1
               = Ok form1_detected).
  { unfold mmocr_sam_click. cbn [input_image Sample.form1].
    rewrite hello_run. reflexivity. }
  assert (Hb : sample_downstream_click 0%Z (with_request form1_detected "0" "graffiti")
               = Ok (form1_inpainted, 1%Z)).
  { unfold downstream_click.
    cbn [with_request input_image mask_results text_index prompt sam_results
         output_image].
    rewrite (run_downstream_ok Z Sample.float_of_atom Sample.float_gt_half
               Sample.eval_other Z Sample.manual_seed Sample.pipe Sample.resample
               0%Z 1%Z Sample.img1 hello_text "0" "graffiti" 1 1
               [[0]]%Z (Sample.paint 0));
      [reflexivity | reflexivity | reflexivity | lia | lia | reflexivity]. }
  split; [exact Hwf|]. split; [exact Ha|]. split; [exact Hb|].
  split; [reflexivity|]. split; [reflexivity|].
  exact (proj1 (proj2 (proj2
           (stage_b_base_is_input_image Z Sample.float_repr Sample.float_of_atom
              Sample.float_gt_half Sample.eval_other Z Sample.manual_seed Sample.pipe
              Sample.resample nat nat Sample.np_random3 Sample.spotter_hello
              Sample.poly2bbox Sample.apply_boxes_torch Sample.predict_torch
              Sample.canvas_render 0 0%Z 1%Z Sample.form1 form1_detected
              form1_inpainted "0" "graffiti" 1 1 Hwf Ha Hb)))).
Defined.

(** ** More runs with the sample collaborators *)

Abbreviation hello_prediction :=
  {| rec_texts := ["HELLO"];
     det_polygons := [[10; 10; 50; 10; 50; 30; 10; 30]%Z] |}.
Abbreviation two_prediction :=
  {| rec_texts := ["HELLO"; "WORLD"];
     det_polygons := [[10; 10; 50; 10; 50; 30; 10; 30]%Z;
                      [60; 10; 90; 10; 90; 30; 60; 30]%Z] |}.
Abbreviation sample_run_first_mask :=
  (run_mmocr_sam Z nat nat Sample.np_random3 Sample.spotter_two Sample.poly2bbox
     Sample.apply_boxes_torch Sample.predict_first Sample.canvas_render).
Abbreviation one_pixel_composite :=
  (composite 1 1 Sample.img1
     (masked_patch Sample.resample (threshold_plane [[false]]) (Sample.paint 0) (1, 1))).

(** The HELLO run from any state of numpy's generator. *)
Lemma hello_run_any (rng : nat) :
  sample_run_mmocr_sam Sample.spotter_hello rng Sample.img1
  = Ok (Sample.white_preview, ("0:HELLO" ++ newline)%string, hello_table).
Proof.
  vm_cast_no_check
    (@eq_refl (result (image * string * pyval Z))
       (Ok (Sample.white_preview, ("0:HELLO" ++ newline)%string, hello_table))).
Qed.

(** Two regions, one mask: the run keeps the first region only. *)
Lemma first_mask_run :
  sample_run_first_mask 0 Sample.img1
  = Ok (Sample.white_preview, ("0:HELLO" ++ newline)%string, hello_table).
Proof.
  vm_cast_no_check
    (@eq_refl (result (image * string * pyval Z))
       (Ok (Sample.white_preview, ("0:HELLO" ++ newline)%string, hello_table))).
Qed.

Lemma hello_floats :
  Forall (Forall (float_lit_ok Z Sample.float_repr Sample.float_of_atom))
    (det_polygons hello_prediction).
Proof.
  repeat constructor.
Qed.

Lemma form1_inpaint_click (g : Z) :
  sample_downstream_click g (with_request form1_detected "0" "graffiti")
  = Ok (form1_inpainted, 1%Z).
Proof.
  unfold downstream_click.
  cbn [with_request input_image mask_results text_index prompt sam_results
       output_image].
  rewrite (run_downstream_ok Z Sample.float_of_atom Sample.float_gt_half
             Sample.eval_other Z Sample.manual_seed Sample.pipe Sample.resample
             g 1%Z Sample.img1 hello_text "0" "graffiti" 1 1
             [[0]]%Z (Sample.paint 0));
    [reflexivity | reflexivity | reflexivity | lia | lia | reflexivity].
Qed.

(** X1, on the HELLO run: index 0 selects the mask [[0]] and Stage B
    returns the composite for it. *)
Lemma inpainting_after_detection_witness :
  sample_run_mmocr_sam Sample.spotter_hello 0 Sample.img1
  = Ok (Sample.white_preview, ("0:HELLO" ++ newline)%string, hello_table) /\
  py_int "0" = Ok (Z.of_nat 0) /\
  sample_select_mask (Textbox_postprocess Z Sample.float_repr hello_table) "0"
  = Ok (threshold_plane [[false]]) /\
  sample_run_downstream 0%Z Sample.img1
    (Textbox_postprocess Z Sample.float_repr hello_table) "0" "graffiti"
  = Ok (one_pixel_composite, 1%Z).
Proof.
  split; [exact (hello_run_any 0)|]. split; [reflexivity|].
  refine (inpainting_after_detection Z Sample.float_repr Sample.float_of_atom
            Sample.float_gt_half Sample.eval_other Z Sample.manual_seed Sample.pipe
            Sample.resample nat nat Sample.np_random3 Sample.spotter_hello
            Sample.poly2bbox Sample.apply_boxes_torch Sample.predict_torch
            Sample.canvas_render 0 0%Z 1%Z Sample.img1 Sample.white_preview
            ("0:HELLO" ++ newline)%string hello_table hello_prediction
            [(10, 10, 50, 30)%Z] [[[[false]]]] 0 [[false]] [] 1 1 1 1
            "0" "graffiti" (Sample.paint 0)
            eq_refl hello_floats eq_refl eq_refl (hello_run_any 0) eq_refl
            _ _ _ _ eq_refl _ eq_refl eq_refl _ _ eq_refl);
    try (cbn; lia).
  repeat constructor.
Defined.

(** X2, on the HELLO table: index -1 is no key. *)
Lemma unlisted_index_raises_KeyError_witness :
  sample_run_mmocr_sam Sample.spotter_hello 0 Sample.img1
  = Ok (Sample.white_preview, ("0:HELLO" ++ newline)%string, hello_table) /\
  py_int "-1" = Ok (-1)%Z /\
  sample_run_downstream 0%Z Sample.img2
    (Textbox_postprocess Z Sample.float_repr hello_table) "-1" "graffiti"
  = Raise (KeyError (KInt (-1))).
Proof.
  split; [exact (hello_run_any 0)|]. split; [reflexivity|].
  refine (unlisted_index_raises_KeyError Z Sample.float_repr Sample.float_of_atom
            Sample.float_gt_half Sample.eval_other Z Sample.manual_seed Sample.pipe
            Sample.resample nat nat Sample.np_random3 Sample.spotter_hello
            Sample.poly2bbox Sample.apply_boxes_torch Sample.predict_torch
            Sample.canvas_render 0 0%Z Sample.img1 Sample.img2 Sample.white_preview
            ("0:HELLO" ++ newline)%string
            [(KInt 0, table_entry Z [[[false]]] hello_polygon)]
            hello_prediction "-1" "graffiti" (-1)%Z
            eq_refl hello_floats (hello_run_any 0) eq_refl _).
  left. lia.
Defined.

(** X3, on the HELLO run from generator states 0 and 5. *)
Lemma table_independent_of_numpy_rng_witness :
  sample_run_mmocr_sam Sample.spotter_hello 0 Sample.img1
  = Ok (Sample.white_preview, ("0:HELLO" ++ newline)%string, hello_table) /\
  sample_run_mmocr_sam Sample.spotter_hello 5 Sample.img1
  = Ok (Sample.white_preview, ("0:HELLO" ++ newline)%string, hello_table) /\
  ("0:HELLO" ++ newline)%string = ("0:HELLO" ++ newline)%string /\
  hello_table = hello_table.
Proof.
  split; [exact (hello_run_any 0)|]. split; [exact (hello_run_any 5)|].
  exact (table_independent_of_numpy_rng Z nat nat Sample.np_random3
           Sample.spotter_hello Sample.poly2bbox Sample.apply_boxes_torch
           Sample.predict_torch Sample.canvas_render 0 5 Sample.img1
           Sample.white_preview Sample.white_preview
           ("0:HELLO" ++ newline)%string ("0:HELLO" ++ newline)%string
           hello_table hello_table (hello_run_any 0) (hello_run_any 5)).
Defined.

(** X4, with two regions and a predictor that returns one mask: one
    entry, one line. *)
Lemma table_truncated_to_shortest_witness :
  Sample.spotter_two Sample.img1 = Ok two_prediction /\
  Sample.predict_first Sample.img1
    (Sample.apply_boxes_torch [(10, 10, 50, 30)%Z; (60, 10, 90, 30)%Z]
       (height Sample.img1, width Sample.img1))
  = Ok [[[[false]]]] /\
  sample_run_first_mask 0 Sample.img1
  = Ok (Sample.white_preview, ("0:HELLO" ++ newline)%string, hello_table) /\
  exists d,
    hello_table = PyDict d /\
    List.length d = Nat.min 1 (Nat.min 2 2) /\
    map fst d = map (fun i => KInt (Z.of_nat i)) (seq 0 (List.length d)) /\
    ("0:HELLO" ++ newline)%string
    = summary_from 0 (firstn (List.length d) ["HELLO"; "WORLD"]).
Proof.
  split; [reflexivity|]. split; [reflexivity|]. split; [exact first_mask_run|].
  exact (table_truncated_to_shortest Z nat nat Sample.np_random3 Sample.spotter_two
           Sample.poly2bbox Sample.apply_boxes_torch Sample.predict_first
           Sample.canvas_render 0 Sample.img1 Sample.white_preview
           ("0:HELLO" ++ newline)%string hello_table two_prediction
           [(10, 10, 50, 30)%Z; (60, 10, 90, 30)%Z] [[[[false]]]]
           eq_refl eq_refl eq_refl first_mask_run).
Defined.

(** X6, on the two-pixel table. *)
Lemma selected_mask_is_binary_witness :
  sample_select_mask right_pixel_text "0" = Ok [[0; 1]]%Z /\
  Forall (Forall (fun v => v = 0%Z \/ v = 1%Z)) [[0; 1]]%Z /\
  (forall y x, mask_at [[0; 1]]%Z y x = 0%Z \/ mask_at [[0; 1]]%Z y x = 1%Z).
Proof.
  assert (H : sample_select_mask right_pixel_text "0" = Ok [[0; 1]]%Z) by reflexivity.
  split; [exact H|].
  exact (selected_mask_is_binary Z Sample.float_of_atom Sample.float_gt_half
           Sample.eval_other right_pixel_text "0" [[0; 1]]%Z H).
Defined.

(** X7, at the working size, where the lower half is masked. *)
Lemma inside_mask_is_wrapping_sum_witness :
  wf_image 512 512 3 Sample.img512 /\
  sample_select_mask Sample.half_expr "0" = Ok Sample.mask512 /\
  rectb 512 512 Sample.mask512 = true /\
  sample_run_downstream 0%Z Sample.img512 Sample.half_expr "0" "graffiti"
  = Ok (working_size_composite, 1%Z) /\
  exists px,
    Sample.pipe "graffiti" 20 (Sample.manual_seed 0)
      (control_image Sample.resample Sample.mask512) = Ok (px, 1%Z) /\
    forall y x c, y < 512 -> x < 512 -> c < 3 ->
      mask_at Sample.mask512 y x = 1%Z ->
      pixel working_size_composite y x c
      = ((pixel Sample.img512 y x c + px y x (2 - c)%nat) mod 256)%Z.
Proof.
  assert (Hrect : rectb 512 512 Sample.mask512 = true).
  { vm_cast_no_check (@eq_refl bool true). }
  split; [exact working_size_image|]. split; [exact working_size_select|].
  split; [exact Hrect|]. split; [exact (working_size_run 0)|].
  exact (inside_mask_is_wrapping_sum Z Sample.float_of_atom Sample.float_gt_half
           Sample.eval_other Z Sample.manual_seed Sample.pipe Sample.resample
           0%Z 1%Z Sample.img512 working_size_composite Sample.half_expr "0"
           "graffiti" Sample.mask512 working_size_image working_size_select Hrect
           (working_size_run 0)).
Defined.

(** X8, on the form after detection and inpainting. *)
Lemma stage_b_click_idempotent_witness :
  sample_downstream_click 0%Z (with_request form1_detected "0" "graffiti")
  = Ok (form1_inpainted, 1%Z) /\
  (forall g2, sample_downstream_click g2 form1_inpainted = Ok (form1_inpainted, 1%Z)) /\
  (forall rng,
     sample_mmocr_sam_click Sample.spotter_hello rng form1_inpainted
     = sample_mmocr_sam_click Sample.spotter_hello rng
         (with_request form1_detected "0" "graffiti")).
Proof.
  split; [exact (form1_inpaint_click 0)|].
  exact (stage_b_click_idempotent Z Sample.float_repr Sample.float_of_atom
           Sample.float_gt_half Sample.eval_other Z Sample.manual_seed Sample.pipe
           Sample.resample nat nat Sample.np_random3 Sample.spotter_hello
           Sample.poly2bbox Sample.apply_boxes_torch Sample.predict_torch
           Sample.canvas_render 0%Z 1%Z (with_request form1_detected "0" "graffiti")
           form1_inpainted (form1_inpaint_click 0)).
Defined.

(** X9, on the text " 12 ". *)
Lemma int_accepts_padded_decimal_witness :
  all_chars is_space " " = true /\
  String.length (str_Z (Z.abs 12)) <= max_str_digits /\
  py_int " 12 " = Ok 12%Z.
Proof.
  assert (Hlen : String.length (str_Z (Z.abs 12)) <= max_str_digits).
  { apply Nat.leb_le. reflexivity. }
  split; [reflexivity|]. split; [exact Hlen|].
  exact (int_accepts_padded_decimal 12 " " " " eq_refl eq_refl Hlen).
Defined.

(** X10, on the index "first". *)
Lemma index_without_digit_raises_ValueError_witness :
  all_chars (fun c => negb (is_digit c)) "first" = true /\
  (forall table, sample_eval right_pixel_text = Ok table ->
     sample_run_downstream 0%Z Sample.img2 right_pixel_text "first" "graffiti"
     = Raise ValueError) /\
  (forall e, sample_eval right_pixel_text = Raise e ->
     sample_run_downstream 0%Z Sample.img2 right_pixel_text "first" "graffiti"
     = Raise e).
Proof.
  split; [reflexivity|].
  exact (index_without_digit_raises_ValueError Z Sample.float_of_atom
           Sample.float_gt_half Sample.eval_other Z Sample.manual_seed Sample.pipe
           Sample.resample 0%Z Sample.img2 right_pixel_text "first" "graffiti"
           eq_refl).
Defined.

(** X11, on the HELLO run: three artists after the image, the label
    "idx:0, HELLO" at (10, 10). *)
Lemma preview_draws_regions_witness :
  sample_run_mmocr_sam Sample.spotter_hello 0 Sample.img1
  = Ok (Sample.white_preview, ("0:HELLO" ++ newline)%string, hello_table) /\
  exists rgb drawn,
    cvtColor Sample.img1 = Ok rgb /\
    cvtColor (Sample.canvas_render (Imshow rgb :: drawn)) = Ok Sample.white_preview /\
    List.length drawn
    = 3 * List.length (zip4 Z [[[[false]]]] ["HELLO"]
                         [[10; 10; 50; 10; 50; 30; 10; 30]%Z] [(10, 10, 50, 30)%Z]) /\
    forall j mask text polygon x1 y1 x2 y2,
      nth_error [[[[false]]]] j = Some mask ->
      nth_error ["HELLO"] j = Some text ->
      nth_error [[10; 10; 50; 10; 50; 30; 10; 30]%Z] j = Some polygon ->
      nth_error [(10, 10, 50, 30)%Z] j = Some (x1, y1, x2, y2) ->
      exists color pts,
        reshape_pairs Z polygon = Ok pts /\
        firstn 3 (skipn (3 * j) drawn)
        = region_artists Z nat j mask color pts x1 y1 text.
Proof.
  split; [exact (hello_run_any 0)|].
  exact (preview_draws_regions Z nat nat Sample.np_random3 Sample.spotter_hello
           Sample.poly2bbox Sample.apply_boxes_torch Sample.predict_torch
           Sample.canvas_render 0 Sample.img1 Sample.white_preview
           ("0:HELLO" ++ newline)%string hello_table hello_prediction
           [(10, 10, 50, 30)%Z] [[[[false]]]]
           eq_refl eq_refl eq_refl (hello_run_any 0)).
Defined.

(** X12, with the two-pixel table and an image without rows. *)
Lemma stage_b_failure_order_witness :
  sample_select_mask right_pixel_text "0" = Ok [[0; 1]]%Z /\
  (height (@nil (list (list Z))) = 0 \/ width (@nil (list (list Z))) = 0 ->
   sample_run_downstream 0%Z [] right_pixel_text "0" "graffiti" = Raise cv2_error) /\
  (forall h w e,
     shapeb h w 3 [] = true -> 0 < h -> 0 < w ->
     Sample.pipe "graffiti" 20 (Sample.manual_seed 0)
       (control_image Sample.resample [[0; 1]]%Z) = Raise e ->
     sample_run_downstream 0%Z [] right_pixel_text "0" "graffiti" = Raise e).
Proof.
  assert (H : sample_select_mask right_pixel_text "0" = Ok [[0; 1]]%Z) by reflexivity.
  split; [exact H|].
  exact (stage_b_failure_order Z Sample.float_of_atom Sample.float_gt_half
           Sample.eval_other Z Sample.manual_seed Sample.pipe Sample.resample
           0%Z [] right_pixel_text "0" "graffiti" [[0; 1]]%Z H).
Defined.

(** X13, with the spotter that finds HELLO. *)
Lemma stage_a_returns_witness :
  Forall (fun p => Nat.even (List.length p) = true) (det_polygons hello_prediction) /\
  (forall fig, exists preview,
     cvtColor (Sample.canvas_render fig) = Ok preview) /\
  exists preview s d,
    sample_run_mmocr_sam Sample.spotter_hello 0 Sample.img1 = Ok (preview, s, PyDict d).
Proof.
  assert (He : Forall (fun p => Nat.even (List.length p) = true)
                 (det_polygons hello_prediction)) by (repeat constructor).
  assert (Hc : forall fig, exists preview,
                 cvtColor (Sample.canvas_render fig) = Ok preview).
  { intros fig. exists Sample.white_preview. apply white_canvas. }
  split; [exact He|]. split; [exact Hc|].
  exact (stage_a_returns Z nat nat Sample.np_random3 Sample.spotter_hello
           Sample.poly2bbox Sample.apply_boxes_torch Sample.predict_torch
           Sample.canvas_render 0 Sample.img1 [[[30; 20; 10]]]%Z hello_prediction
           [(10, 10, 50, 30)%Z] [[[[false]]]]
           eq_refl eq_refl eq_refl eq_refl He Hc).
Defined.


(** ** Two regions and one mask *)


